(** * Care-Alarm dashboard: a shallow embedding of [update-dashboard.py]

    The script fetches the organisation's repositories, members, workflow
    runs and releases, formats six markdown fragments and splices them
    between marker comments of [README.md].

    Python values are modelled as follows.
    - [str] is a sequence of Unicode code points ([list N]), so that [len]
      and slicing count characters, as Python does, and not bytes.
    - [int] is [Z]; [float] is the kernel's binary64 [float].
    - A JSON object of the API is a record; a key that may be absent or
      [null] is a [jfield].
    - An uncaught exception is the [Raise] case of [result].
    - The network, the clock and the file system are one [World] value.

    The first part of the file holds the embedding, the second part the
    properties, one theorem for each claim C1 to C10 of the specification. *)

From Stdlib Require Import List ZArith NArith Bool Lia Arith.
From Stdlib Require String Ascii DecimalString.
From Stdlib Require Import Permutation Sorted.
From Stdlib Require Import QArith.
From Stdlib Require Import Floats Uint63.
Import ListNotations.
Import String.StringSyntax.
Delimit Scope string_scope with string.

Local Open Scope list_scope.

(** ** Python strings *)

Definition str := list N.

(** An ASCII literal of the source as a [str]. *)
Fixpoint lit (s : String.string) : str :=
  match s with
  | String.EmptyString => []
  | String.String a s' => Ascii.N_of_ascii a :: lit s'
  end.

Notation "'L' s" := (lit s%string) (at level 9, s at level 0, only parsing).

(** [len(s)] *)
Definition len (s : str) : Z := Z.of_nat (length s).

(** [s.startswith(p)] *)
Fixpoint startswith (s p : str) {struct p} : bool :=
  match p, s with
  | [], _ => true
  | _ :: _, [] => false
  | a :: p', b :: s' => N.eqb a b && startswith s' p'
  end.

(** [s.endswith(p)] *)
Definition endswith (s p : str) : bool := startswith (rev s) (rev p).

(** The index of the first occurrence of [sub] in [s], if any. *)
Fixpoint index_of (s sub : str) {struct s} : option nat :=
  if startswith s sub then Some O
  else match s with
       | [] => None
       | _ :: s' => option_map S (index_of s' sub)
       end.

(** [s.find(sub)]: the lowest index where [sub] occurs, or -1. *)
Definition find (s sub : str) : Z :=
  match index_of s sub with
  | Some i => Z.of_nat i
  | None => (-1)%Z
  end.

(** [sub in s] *)
Definition contains (s sub : str) : bool :=
  match index_of s sub with Some _ => true | None => false end.

(** A slice bound: a negative bound counts from the end, and every bound
    is clipped to the string. *)
Definition clip (s : str) (k : Z) : nat :=
  Z.to_nat (if (k <? 0)%Z then Z.max 0 (len s + k) else k).

(** [s[:k]] *)
Definition slice_to (s : str) (k : Z) : str := firstn (clip s k) s.

(** [s[k:]] *)
Definition slice_from (s : str) (k : Z) : str := skipn (clip s k) s.

(** [s.replace(old, new)] for a non-empty [old]: the occurrences of [old]
    are found from left to right, each search starting after the previous
    occurrence.  Every round consumes at least one character, so
    [length s + 1] rounds are enough. *)
Fixpoint replace_rounds (fuel : nat) (s old new : str) : str :=
  match fuel with
  | O => s
  | S fuel' =>
      match index_of s old with
      | None => s
      | Some i =>
          firstn i s ++ new ++
          replace_rounds fuel' (skipn (i + length old) s) old new
      end
  end.

(** [s.replace(old, new)].  With an empty [old], [new] is put before every
    character and at the end. *)
Definition replace (s old new : str) : str :=
  match old with
  | [] => new ++ flat_map (fun c => c :: new) s
  | _ :: _ => replace_rounds (S (length s)) s old new
  end.

(** [sep.join(parts)] *)
Fixpoint join (sep : str) (parts : list str) : str :=
  match parts with
  | [] => []
  | [x] => x
  | x :: rest => x ++ sep ++ join sep rest
  end.

(** [str(n)] and [f"{n}"] for an [int]. *)
Definition str_of_int (n : Z) : str := lit (DecimalString.NilZero.string_of_int (Z.to_int n)).

(** Comparison of two [str]: lexicographic on code points. *)
Fixpoint str_compare (a b : str) : comparison :=
  match a, b with
  | [], [] => Eq
  | [], _ :: _ => Lt
  | _ :: _, [] => Gt
  | x :: a', y :: b' =>
      match N.compare x y with
      | Eq => str_compare a' b'
      | c => c
      end
  end.

Definition str_ltb (a b : str) : bool :=
  match str_compare a b with Lt => true | _ => false end.

Definition str_eqb (a b : str) : bool :=
  match str_compare a b with Eq => true | _ => false end.

(** ** Exceptions *)

Inductive exn : Set :=
| TypeError
| ValueError
| OSError               (* an [OSError] of another class than the next two *)
| IsADirectoryError
| PermissionError
| UnicodeDecodeError
| UnicodeEncodeError.

Inductive result (A : Type) : Type :=
| Ok (a : A)
| Raise (e : exn).
Arguments Ok {A} a.
Arguments Raise {A} e.

Definition bind {A B : Type} (c : result A) (k : A -> result B) : result B :=
  match c with
  | Ok a => k a
  | Raise e => Raise e
  end.

Notation "x <- c ;; k" := (bind c (fun x => k))
  (at level 61, c at next level, right associativity).

(** A loop that appends one item per element and stops at the first
    exception. *)
Fixpoint for_each {A B : Type} (body : A -> result B) (l : list A)
  : result (list B) :=
  match l with
  | [] => Ok []
  | a :: l' =>
      b <- body a ;;
      bs <- for_each body l' ;;
      Ok (b :: bs)
  end.

(** ** Dates and times ([datetime])

    An instant is a number of microseconds since 1970-01-01T00:00:00 UTC.
    A [datetime] holds its wall-clock fields, as microseconds since the
    epoch read without a zone, and its [tzinfo]: [None] when naive, else
    the offset from UTC in microseconds. *)

Local Open Scope Z_scope.

Definition us_per_second : Z := 1000000.
Definition us_per_day : Z := 86400 * us_per_second.

Record datetime : Set := mkDatetime {
  wall : Z;
  tzinfo : option Z
}.

(** Days since the epoch of a proleptic Gregorian date. *)
Definition days_from_civil (y m d : Z) : Z :=
  let y' := if m <=? 2 then y - 1 else y in
  let era := y' / 400 in
  let yoe := y' - era * 400 in
  let mp := if 2 <? m then m - 3 else m + 9 in
  let doy := (153 * mp + 2) / 5 + d - 1 in
  let doe := yoe * 365 + yoe / 4 - yoe / 100 + doy in
  era * 146097 + doe - 719468.

(** The proleptic Gregorian date of a day number: (year, month, day). *)
Definition civil_from_days (z : Z) : Z * Z * Z :=
  let z' := z + 719468 in
  let era := z' / 146097 in
  let doe := z' - era * 146097 in
  let yoe := (doe - doe / 1460 + doe / 36524 - doe / 146096) / 365 in
  let y := yoe + era * 400 in
  let doy := doe - (365 * yoe + yoe / 4 - yoe / 100) in
  let mp := (5 * doy + 2) / 153 in
  let d := doy - (153 * mp + 2) / 5 + 1 in
  let m := if mp <? 10 then mp + 3 else mp - 9 in
  (if m <=? 2 then y + 1 else y, m, d).

Definition is_leap (y : Z) : bool :=
  ((y mod 4 =? 0) && negb (y mod 100 =? 0)) || (y mod 400 =? 0).

Definition days_in_month (y m : Z) : Z :=
  if m =? 2 then (if is_leap y then 29 else 28)
  else if (m =? 4) || (m =? 6) || (m =? 9) || (m =? 11) then 30
  else 31.

(** *** Parsing

    [datetime.fromisoformat] as CPython 3.11 implements it, in C: the
    string is encoded as UTF-8 and read byte by byte up to its final NUL,
    which [head_byte] and [byte_at] give past the end of a list.  Besides
    the timestamps of the API it reads a date alone, dates without dashes,
    week dates, shorter times, fractions of a second and offsets with
    seconds; whatever else it is given raises [ValueError]. *)

Definition digit (c : N) : option Z :=
  if (48 <=? c)%N && (c <=? 57)%N then Some (Z.of_N c - 48) else None.

(** A decimal digit. *)
Definition is_digit (c : N) : bool :=
  match digit c with Some _ => true | None => false end.

(** Exactly [n] decimal digits at the head of [s]. *)
Fixpoint digits (n : nat) (acc : Z) (s : str) : option (Z * str) :=
  match n with
  | O => Some (acc, s)
  | S n' =>
      match s with
      | [] => None
      | c :: s' =>
          match digit c with
          | Some d => digits n' (acc * 10 + d) s'
          | None => None
          end
      end
  end.

Definition expect (c : N) (s : str) : option str :=
  match s with
  | x :: s' => if N.eqb x c then Some s' else None
  | [] => None
  end.

Definition obind {A B : Type} (c : option A) (k : A -> option B) : option B :=
  match c with
  | Some a => k a
  | None => None
  end.

Notation "x <~ c ;; k" := (obind c (fun x => k))
  (at level 61, c at next level, right associativity).
Notation "' ( x , y ) <~ c ;; k" := (obind c (fun p => let '(x, y) := p in k))
  (at level 61, x name, y name, c at next level, right associativity).

(** The UTF-8 encoding of a code point, and of a string. *)
Definition utf8_char (c : N) : list N :=
  if (c <? 0x80)%N then [c]
  else if (c <? 0x800)%N then [0xC0 + c / 64; 0x80 + c mod 64]%N
  else if (c <? 0x10000)%N
       then [0xE0 + c / 4096; 0x80 + (c / 64) mod 64; 0x80 + c mod 64]%N
       else [0xF0 + c / 262144; 0x80 + (c / 4096) mod 64;
             0x80 + (c / 64) mod 64; 0x80 + c mod 64]%N.

Definition utf8 (s : str) : list N := flat_map utf8_char s.

(** The number of bytes of the character that starts with the byte [c]. *)
Definition utf8_width (c : N) : nat :=
  if (c <? 0x80)%N then 1
  else if (c / 16 =? 14)%N then 3
  else if (c / 16 =? 15)%N then 4
  else 2.

(** A surrogate code point cannot be encoded. *)
Definition is_surrogate (c : N) : bool := (0xD800 <=? c)%N && (c <=? 0xDFFF)%N.

(** [_sanitize_isoformat_str]: the first surrogate at one of the indices
    7, 8 and 10, where the separator can be, is read as [T]; a string
    that holds another surrogate is not read. *)
Definition sanitize_isoformat_str (s : str) : option str :=
  let as_T (pos : nat) := firstn pos s ++ [84%N] ++ skipn (S pos) s in
  let s' := if is_surrogate (nth 7 s 0%N) then as_T 7%nat
            else if is_surrogate (nth 8 s 0%N) then as_T 8%nat
            else if is_surrogate (nth 10 s 0%N) then as_T 10%nat
            else s in
  if existsb is_surrogate s' then None else Some s'.

(** [*p] and [dtstr[i]] in a buffer that ends with NUL. *)
Definition head_byte (b : list N) : N :=
  match b with
  | c :: _ => c
  | [] => 0%N
  end.

Definition byte_at (b : list N) (i : nat) : N := nth i b 0%N.

(** The number of digits at the head of [b]. *)
Fixpoint count_digits (b : list N) : nat :=
  match b with
  | c :: rest => if is_digit c then S (count_digits rest) else O
  | [] => O
  end.

(** [_find_isoformat_datetime_separator]: the index of the character
    between the date and the time, from the shape of the date. *)
Definition find_isoformat_datetime_separator (b : list N) : option nat :=
  let len := length b in
  if (len =? 7)%nat then Some 7%nat
  else if N.eqb (byte_at b 4) 45 then
    if N.eqb (byte_at b 5) 87 then
      if (len <? 8)%nat then None
      else if (8 <? len)%nat && N.eqb (byte_at b 8) 45 then
        if (len =? 9)%nat then None
        else if (10 <? len)%nat && is_digit (byte_at b 10) then Some 8%nat
        else Some 10%nat
      else Some 8%nat
    else Some 10%nat
  else if N.eqb (byte_at b 4) 87 then
    let idx := (7 + count_digits (skipn 7 b))%nat in
    if (idx <? 9)%nat then Some idx
    else if Nat.even idx then Some 7%nat else Some 8%nat
  else Some 8%nat.

(** The weekday of 1 January, Monday being 0, and the day on which the
    first ISO week of the year starts. *)
Definition weekday_jan1 (y : Z) : Z := (days_from_civil y 1 1 + 3) mod 7.

Definition iso_week1_monday (y : Z) : Z :=
  let first_day := days_from_civil y 1 1 in
  let first_weekday := weekday_jan1 y in
  let week1_monday := first_day - first_weekday in
  if 3 <? first_weekday then week1_monday + 7 else week1_monday.

(** [iso_to_ymd]: the date of a day of an ISO week. *)
Definition iso_to_ymd (y w d : Z) : option (Z * Z * Z) :=
  let week_in_range :=
    ((0 <? w) && (w <? 53))
    || ((w =? 53)
        && ((weekday_jan1 y =? 3) || ((weekday_jan1 y =? 2) && is_leap y))) in
  if week_in_range && (0 <? d) && (d <? 8)
  then Some (civil_from_days (iso_week1_monday y + (w - 1) * 7 + d - 1))
  else None.

(** [parse_isoformat_date]: [YYYY-MM-DD], [YYYYMMDD], and the week dates
    [YYYY-Www], [YYYY-Www-D], [YYYYWww] and [YYYYWwwD]; [sep] is the index
    of the separator. *)
Definition parse_isoformat_date (b : list N) (sep : nat) : option (Z * Z * Z) :=
  '(y, r1) <~ digits 4 0 b ;;
  let uses_separator := N.eqb (head_byte r1) 45 in
  let r2 := if uses_separator then tl r1 else r1 in
  if N.eqb (head_byte r2) 87 then
    '(w, r3) <~ digits 2 0 (tl r2) ;;
    if ((if uses_separator then 8 else 7) <? sep)%nat then
      r4 <~ (if uses_separator then expect 45 r3 else Some r3) ;;
      '(d, _) <~ digits 1 0 r4 ;;
      iso_to_ymd y w d
    else iso_to_ymd y w 1
  else
    '(m, r3) <~ digits 2 0 r2 ;;
    r4 <~ (if uses_separator then expect 45 r3 else Some r3) ;;
    '(d, _) <~ digits 2 0 r4 ;;
    Some (y, m, d).

Fixpoint skip_digits (b : list N) : list N :=
  match b with
  | c :: rest => if is_digit c then skip_digits rest else b
  | [] => []
  end.

(** The end of [parse_hh_mm_ss_ff]: a fraction of a second of [remains]
    characters, of which six digits at most are kept; the result says
    whether the string goes on after the digits. *)
Definition parse_fraction (rest : list N) (remains : nat) (vals : list Z)
  : option (bool * (list Z * Z)) :=
  let to_parse := Nat.min remains 6 in
  '(v, rest') <~ digits to_parse 0 rest ;;
  Some (negb (N.eqb (head_byte (skip_digits rest')) 0),
        (vals, v * 10 ^ (6 - Z.of_nat to_parse))).

(** The loop of [parse_hh_mm_ss_ff] over hours, minutes and seconds:
    [todo] fields are left, [rest] is the string from [p] on, [remains]
    is [p_end - p], and the colon is wanted between the fields when it
    follows the first one. *)
Fixpoint parse_fields (todo : nat) (first has_separator : bool)
                      (rest : list N) (remains : nat) (vals : list Z)
  : option (bool * (list Z * Z)) :=
  match todo with
  | O => parse_fraction rest remains vals
  | S todo' =>
      '(v, rest1) <~ digits 2 0 rest ;;
      let c := head_byte rest1 in
      let has_separator := if first then N.eqb c 58 else has_separator in
      let vals := vals ++ [v] in
      if (remains <=? 3)%nat then Some (negb (N.eqb c 0), (vals, 0))
      else if has_separator && N.eqb c 58
      then parse_fields todo' false has_separator (tl rest1) (remains - 3) vals
      else if N.eqb c 46 || N.eqb c 44
      then parse_fraction (tl rest1) (remains - 3) vals
      else if negb has_separator
      then parse_fields todo' false has_separator rest1 (remains - 2) vals
      else None
  end.

(** [parse_hh_mm_ss_ff]: [HH[:MM[:SS]]] or [HH[MM[SS]]] and a fraction
    after [.] or [,], in the first [len] characters of [rest]. *)
Definition parse_hh_mm_ss_ff (rest : list N) (len : nat)
  : option (bool * (Z * Z * Z * Z)) :=
  '(more, fields) <~ parse_fields 3 true true rest len [] ;;
  let '(vals, us) := fields in
  Some (more, (nth 0 vals 0, nth 1 vals 0, nth 2 vals 0, us)).

(** The index of the first [Z], [+] or [-]. *)
Fixpoint tz_position (t : list N) : nat :=
  match t with
  | [] => O
  | c :: rest =>
      if N.eqb c 90 || N.eqb c 43 || N.eqb c 45 then O
      else S (tz_position rest)
  end.

(** [parse_isoformat_time]: the time and the offset from UTC, in
    microseconds.  An offset of zero seconds is UTC, whatever its
    fraction; another offset must be less than a day. *)
Definition parse_isoformat_time (t : list N)
  : option ((Z * Z * Z * Z) * option Z) :=
  let pos := tz_position t in
  '(more, time) <~ parse_hh_mm_ss_ff t pos ;;
  match skipn pos t with
  | [] => if more then None else Some (time, None)
  | sign :: tzstr =>
      if N.eqb sign 90
      then if N.eqb (head_byte tzstr) 0 then Some (time, Some 0) else None
      else
        '(more', tz) <~ parse_hh_mm_ss_ff tzstr (length tzstr) ;;
        let '(tzhour, tzminute, tzsecond, tzmicrosecond) := tz in
        let tzsign := if N.eqb sign 45 then -1 else 1 in
        let tzoffset := tzsign * (tzhour * 3600 + tzminute * 60 + tzsecond) in
        let offset := tzoffset * us_per_second + tzsign * tzmicrosecond in
        if more' then None
        else if tzoffset =? 0 then Some (time, Some 0)
        else if (- us_per_day <? offset) && (offset <? us_per_day)
             then Some (time, Some offset)
             else None
  end.

(** The checks of the constructor of [datetime]. *)
Definition check_date_args (y m d : Z) : bool :=
  (1 <=? y) && (y <=? 9999) && (1 <=? m) && (m <=? 12) && (1 <=? d)
  && (d <=? days_in_month y m).

Definition check_time_args (h mi sec : Z) : bool :=
  (h <? 24) && (mi <? 60) && (sec <? 60).

Definition parse_iso (s : str) : option datetime :=
  if (length s <? 7)%nat then None
  else
    s' <~ sanitize_isoformat_str s ;;
    let b := utf8 s' in
    sep <~ find_isoformat_datetime_separator b ;;
    ymd <~ parse_isoformat_date b sep ;;
    time <~ (if (sep <? length b)%nat
             then parse_isoformat_time (skipn (sep + utf8_width (byte_at b sep)) b)
             else Some ((0, 0, 0, 0), None)) ;;
    let '(y, m, d) := ymd in
    let '((h, mi, sec, us), tz) := time in
    if check_date_args y m d && check_time_args h mi sec
    then Some (mkDatetime (days_from_civil y m d * us_per_day
                           + (h * 3600 + mi * 60 + sec) * us_per_second + us)
                          tz)
    else None.

(** [datetime.fromisoformat(s)]; a string it cannot read raises
    [ValueError]. *)
Definition fromisoformat (s : str) : result datetime :=
  match parse_iso s with
  | Some d => Ok d
  | None => Raise ValueError
  end.

(** *** The clock

    The instant is read once: the calls of [datetime.now] within one run
    are taken to be simultaneous. *)

Record Clock : Set := mkClock {
  now_us : Z;            (* the current instant *)
  local_offset_us : Z    (* the offset of the machine's time zone from UTC *)
}.

(** [datetime.now(tz)]: the local wall-clock time without a zone when [tz]
    is [None], else the current instant in the zone [tz]. *)
Definition datetime_now (c : Clock) (tz : option Z) : datetime :=
  match tz with
  | None => mkDatetime (now_us c + local_offset_us c) None
  | Some off => mkDatetime (now_us c + off) (Some off)
  end.

(** [a - b] as a number of microseconds; mixing a naive and an aware
    [datetime] raises [TypeError]. *)
Definition datetime_sub (a b : datetime) : result Z :=
  match tzinfo a, tzinfo b with
  | None, None => Ok (wall a - wall b)
  | Some oa, Some ob => Ok ((wall a - oa) - (wall b - ob))
  | _, _ => Raise TypeError
  end.

(** [timedelta.days]: whole days, rounded toward minus infinity. *)
Definition timedelta_days (delta_us : Z) : Z := delta_us / us_per_day.

(** [(datetime.now(d.tzinfo) - d).days] *)
Definition days_since (c : Clock) (d : datetime) : result Z :=
  delta <- datetime_sub (datetime_now c (tzinfo d)) d ;;
  Ok (timedelta_days delta).

(** A numeric field of [strftime]: padded with zeros on the left up to
    [width] characters. *)
Definition zfill (width : nat) (s : str) : str :=
  repeat 48%N (width - length s) ++ s.

(** [d.strftime('%Y-%m-%d %H:%M:%S UTC')]: the wall-clock fields of [d],
    followed by the fixed text [UTC], whatever the zone of [d]. *)
Definition strftime_utc_label (d : datetime) : str :=
  let day := wall d / us_per_day in
  let secs := (wall d mod us_per_day) / us_per_second in
  let '(y, m, dd) := civil_from_days day in
  zfill 4 (str_of_int y) ++ L "-" ++ zfill 2 (str_of_int m) ++ L "-"
  ++ zfill 2 (str_of_int dd) ++ L " "
  ++ zfill 2 (str_of_int (secs / 3600)) ++ L ":"
  ++ zfill 2 (str_of_int ((secs mod 3600) / 60)) ++ L ":"
  ++ zfill 2 (str_of_int (secs mod 60)) ++ L " UTC".

(** ** JSON objects of the API *)

(** A key of a JSON object whose value is a string when it is there. *)
Inductive jfield : Set :=
| Absent
| JNull
| JStr (s : str).

(** [obj.get(key)]: [None] when the key is absent or [null]. *)
Definition get (f : jfield) : option str :=
  match f with
  | Absent | JNull => None
  | JStr s => Some s
  end.

(** [obj.get(key, default)]: the default replaces an absent key only. *)
Definition get_default (f : jfield) (default : str) : option str :=
  match f with
  | Absent => Some default
  | JNull => None
  | JStr s => Some s
  end.

(** Truth value of a [str] or [None]. *)
Definition truthy (v : option str) : bool :=
  match v with
  | Some (_ :: _) => true
  | _ => false
  end.

(** [a or b] *)
Definition py_or (a b : option str) : option str :=
  if truthy a then a else b.

(** A [str] or [None] inside an f-string. *)
Definition format_value (v : option str) : str :=
  match v with
  | Some s => s
  | None => L "None"
  end.

Record Repo : Set := mkRepo {
  repo_name : str;
  repo_full_name : str;
  repo_description : jfield;
  repo_language : jfield;
  repo_updated_at : str;
  repo_stargazers_count : Z;
  repo_html_url : str;
  repo_private : bool
}.

Record Member : Set := mkMember {
  member_login : str;
  member_avatar_url : str;
  member_html_url : str
}.

Record WorkflowRun : Set := mkRun {
  run_name : str;
  run_head_branch : str;
  run_conclusion : jfield;
  run_status : jfield;
  run_created_at : str
}.

Record Release : Set := mkRelease {
  release_tag_name : str;
  release_name : jfield;
  release_html_url : str;
  release_published_at : str;
  release_prerelease : bool
}.

(** ** The world outside the script

    Every request gets a response with a status code and a body that is
    the JSON the API documents.  A request that gets none (the HTTP client
    then raises) is not modelled. *)

Record response (A : Type) : Type := mkResponse {
  status_code : Z;
  json : A
}.
Arguments mkResponse {A} status_code json.
Arguments status_code {A} r.
Arguments json {A} r.

(** README.md as [open], [read], [write] and the end of [with] find it.
    A text has the characters of its bytes read as UTF-8, with the line
    endings it has on disk; a byte that is not UTF-8 is shown as a
    surrogate, as the [surrogateescape] handler shows it, and makes [read]
    raise [UnicodeDecodeError]. *)
Inductive file : Set :=
| Missing                         (* [open(path, 'r')] raises
                                     [FileNotFoundError] *)
| Unreadable (e : exn)            (* [open(path, 'r')] or [read] raises [e],
                                     another exception: [IsADirectoryError]
                                     for a directory, [PermissionError]
                                     for a file that may not be read *)
| ReadOnly (raw : str) (e : exn)  (* the text is read; [open(path, 'w')]
                                     raises [e]: [PermissionError] for a
                                     file that may not be written *)
| Unwritable (raw : str) (e : exn) (* the text is read and the file opened
                                     for writing; [write] or the end of
                                     [with] raises [e]: [OSError] for a
                                     full disk *)
| Text (raw : str).               (* a file that is read and written *)

Definition has_surrogate (s : str) : bool := existsb is_surrogate s.

Record World : Type := mkWorld {
  clock : Clock;
  (* GET /orgs/Care-Alarm/repos, by [per_page] *)
  http_org_repos : Z -> response (list Repo);
  (* GET /orgs/Care-Alarm/members *)
  http_org_members : response (list Member);
  (* GET /repos/<full_name>/actions/runs, by [per_page]; the body's
     [workflow_runs] key may be missing *)
  http_workflow_runs : str -> Z -> response (option (list WorkflowRun));
  (* GET /repos/<full_name>/releases, by [per_page] *)
  http_releases : str -> Z -> response (list Release);
  (* README.md *)
  document : file;
  (* [os.linesep] *)
  linesep : str
}.

(** The text of README.md when the file is read as UTF-8 and can be
    written back, [None] when it does not exist or cannot. *)
Definition readme (w : World) : option str :=
  match document w with
  | Text raw => if has_surrogate raw then None else Some raw
  | _ => None
  end.

(** ** API client *)

Definition get_org_repositories (w : World) (limit : Z) : list Repo :=
  let response := http_org_repos w limit in
  if negb (status_code response =? 200) then [] else json response.

Definition get_org_members (w : World) : list Member :=
  let response := http_org_members w in
  if negb (status_code response =? 200) then [] else json response.

Definition get_workflow_runs (w : World) (repo_full_name : str) (limit : Z)
  : list WorkflowRun :=
  let response := http_workflow_runs w repo_full_name limit in
  if negb (status_code response =? 200) then []
  else match json response with
       | Some runs => runs
       | None => []
       end.

Definition get_repo_releases (w : World) (repo_full_name : str) (limit : Z)
  : list Release :=
  let response := http_releases w repo_full_name limit in
  if negb (status_code response =? 200) then [] else json response.

(** ** Sorting

    [sorted(l, key=k, reverse=True)] and [l.sort(key=k, reverse=True)]:
    descending by key, elements of equal keys staying in their input
    order.  [ltb a b] says that the key of [a] is below the key of [b]. *)

Section Sorting.

Variable A : Type.
Variable ltb : A -> A -> bool.

Fixpoint insert_desc (x : A) (l : list A) : list A :=
  match l with
  | [] => [x]
  | y :: l' => if ltb x y then y :: insert_desc x l' else x :: y :: l'
  end.

Definition sort_desc (l : list A) : list A := fold_right insert_desc [] l.

(** [not_below x y]: the key of [x] is not below the key of [y]. *)
Definition not_below (x y : A) : Prop := ltb x y = false.

(** [same_key x y]: neither key is below the other. *)
Definition same_key (x y : A) : bool := negb (ltb x y) && negb (ltb y x).

End Sorting.
Arguments insert_desc {A} ltb x l.
Arguments sort_desc {A} ltb l.
Arguments not_below {A} ltb x y.
Arguments same_key {A} ltb x y.

(** ** Formatters *)

Definition nl : str := [10%N].

(** *** Repository activity *)

Definition activity_time_str (time_ago : Z) : str :=
  if time_ago =? 0 then L "today"
  else if time_ago =? 1 then L "yesterday"
  else str_of_int time_ago ++ L " days ago".

Definition activity_emoji (time_ago : Z) : str :=
  if time_ago <=? 1 then [0x1F525%N]
  else if time_ago <=? 7 then [0x1F4DD%N]
  else [0x1F4DA%N].

(** [{description[:80]}{'...' if len(description) > 80 else ''}] *)
Definition rendered_description (description : str) : str :=
  slice_to description 80 ++ (if 80 <? len description then L "..." else []).

(** The body of the loop: the entry appended for one repository. *)
Definition activity_entry (c : Clock) (repo : Repo) : result str :=
  let name := repo_name repo in
  let description := get_default (repo_description repo) (L "No description") in
  let language := get_default (repo_language repo) (L "Unknown") in
  let updated := repo_updated_at repo in
  let stars := repo_stargazers_count repo in
  updated_date <- fromisoformat (replace updated (L "Z") (L "+00:00")) ;;
  time_ago <- days_since c updated_date ;;
  let time_str := activity_time_str time_ago in
  let emoji := activity_emoji time_ago in
  match description with
  | None => Raise TypeError            (* None[:80] *)
  | Some description =>
      Ok (emoji ++ L " **[" ++ name ++ L "](" ++ repo_html_url repo ++ L ")** "
          ++ L "(" ++ format_value language ++ L ") - "
          ++ rendered_description description
          ++ nl
          ++ L "   " ++ [0x2B50%N] ++ L " " ++ str_of_int stars ++ L " stars "
          ++ [0x2022%N] ++ L " Updated " ++ time_str)
  end.

Definition format_repository_activity (c : Clock) (repos : list Repo)
  : result str :=
  match repos with
  | [] => Ok (L "No recent activity found.")
  | _ :: _ =>
      activity_md <- for_each (activity_entry c) (firstn 6 repos) ;;
      Ok (join (nl ++ nl) activity_md)
  end.

(** *** Build status *)

Definition status_emoji_table : list (str * str) :=
  [ (L "success", [0x2705%N]);
    (L "failure", [0x274C%N]);
    (L "cancelled", [0x26A0%N; 0xFE0F%N]);
    (L "in_progress", [0x1F7E1%N]) ].

(** [table.get(key, default)] for a key that is a [str] or [None]. *)
Fixpoint dict_get (table : list (str * str)) (key : option str) (default : str)
  : str :=
  match table, key with
  | (k, v) :: rest, Some s => if str_eqb k s then v else dict_get rest key default
  | _, _ => default
  end.

Definition build_time_str (time_ago : Z) : str :=
  if time_ago =? 0 then L "today"
  else if time_ago =? 1 then L "yesterday"
  else str_of_int time_ago ++ L "d ago".

(** The line appended for one workflow run. *)
Definition build_entry (c : Clock) (run : WorkflowRun) : result str :=
  let status_emoji :=
    dict_get status_emoji_table
             (py_or (get (run_conclusion run)) (get (run_status run)))
             [0x2753%N] in
  let workflow_name := run_name run in
  let branch := run_head_branch run in
  created_at <- fromisoformat (replace (run_created_at run) (L "Z") (L "+00:00")) ;;
  time_ago <- days_since c created_at ;;
  let time_str := build_time_str time_ago in
  Ok (L "   " ++ status_emoji ++ L " " ++ workflow_name ++ L " on `" ++ branch
      ++ L "` " ++ [0x2022%N] ++ L " " ++ time_str).

(** The loop over the repositories, with [build_info] as accumulator. *)
Fixpoint build_loop (w : World) (repos : list Repo) (build_info : list str)
  : result (list str) :=
  match repos with
  | [] => Ok build_info
  | repo :: rest =>
      match get_workflow_runs w (repo_full_name repo) 2 with
      | [] => build_loop w rest build_info          (* continue *)
      | (_ :: _) as runs =>
          repo_builds <- for_each (build_entry (clock w)) runs ;;
          match repo_builds with
          | [] => build_loop w rest build_info
          | _ :: _ =>
              build_loop w rest
                (build_info ++
                 [L "**" ++ repo_name repo ++ L "**" ++ nl ++ join nl repo_builds])
          end
      end
  end.

Definition format_build_status (w : World) (repos : list Repo) : result str :=
  build_info <- build_loop w (firstn 4 repos) [] ;;
  match build_info with
  | [] => Ok (L "No recent builds found.")
  | _ :: _ => Ok (join (nl ++ nl) build_info)
  end.

(** *** Team members *)

Definition member_entry (member : Member) : str :=
  let login := member_login member in
  let avatar := member_avatar_url member in
  let profile := member_html_url member in
  L "[<img src='" ++ avatar ++ L "' width='30' height='30' alt='" ++ login
  ++ L "'>](" ++ profile ++ L ")".

Definition format_team_members (members : list Member) : str :=
  match members with
  | [] => L "No team members found."
  | _ :: _ => join (L " ") (map member_entry (firstn 8 members))
  end.

(** *** Active repositories *)

Definition active_repo_entry (repo : Repo) : str :=
  let name := repo_name repo in
  let language := get_default (repo_language repo) (L "Unknown") in
  let stars := repo_stargazers_count repo in
  let visibility := if repo_private repo then [0x1F512%N] else [0x1F310%N] in
  visibility ++ L " **[" ++ name ++ L "](" ++ repo_html_url repo ++ L ")** ("
  ++ format_value language ++ L ") - " ++ [0x2B50%N] ++ L " " ++ str_of_int stars.

Definition format_active_repos (repos : list Repo) : str :=
  match repos with
  | [] => L "No repositories found."
  | _ :: _ => join nl (map active_repo_entry repos)
  end.

(** *** Latest releases *)

Record release_data : Set := mkReleaseData {
  rd_repo : str;
  rd_tag : str;
  rd_name : option str;
  rd_url : str;
  rd_published_at : str;
  rd_prerelease : bool
}.

(** The releases of the first five repositories, in fetch order. *)
Definition collect_releases (w : World) (repos : list Repo) : list release_data :=
  flat_map
    (fun repo =>
       map (fun release =>
              mkReleaseData (repo_name repo)
                            (release_tag_name release)
                            (get_default (release_name release)
                                         (release_tag_name release))
                            (release_html_url release)
                            (release_published_at release)
                            (release_prerelease release))
           (get_repo_releases w (repo_full_name repo) 2))
    (firstn 5 repos).

(** The key of the sort is the [published_at] text itself. *)
Definition published_before (a b : release_data) : bool :=
  str_ltb (rd_published_at a) (rd_published_at b).

(** [all_releases] after [sort(key=published_at, reverse=True)]. *)
Definition sorted_releases (w : World) (repos : list Repo) : list release_data :=
  sort_desc published_before (collect_releases w repos).

(** [all_releases[:5]]: the releases that are rendered. *)
Definition shown_releases (w : World) (repos : list Repo) : list release_data :=
  firstn 5 (sorted_releases w repos).

Definition release_time_str (time_ago : Z) : str :=
  if time_ago =? 0 then L "today"
  else if time_ago =? 1 then L "yesterday"
  else str_of_int time_ago ++ L "d ago".

Definition release_entry (c : Clock) (release : release_data) : result str :=
  published_date <-
    fromisoformat (replace (rd_published_at release) (L "Z") (L "+00:00")) ;;
  time_ago <- days_since c published_date ;;
  let time_str := release_time_str time_ago in
  let emoji := if negb (rd_prerelease release) then [0x1F680%N] else [0x1F9EA%N] in
  Ok (emoji ++ L " **[" ++ rd_repo release ++ L " " ++ rd_tag release ++ L "]("
      ++ rd_url release ++ L ")** - " ++ time_str).

Definition format_latest_releases (w : World) (repos : list Repo) : result str :=
  match sorted_releases w repos with
  | [] => Ok (L "No recent releases found.")
  | _ :: _ =>
      release_info <- for_each (release_entry (clock w)) (shown_releases w repos) ;;
      Ok (join nl release_info)
  end.

(** *** Organisation languages *)

(** [stats[language] += 1] on a [defaultdict(int)]; a dictionary keeps its
    keys in the order of their first insertion. *)
Fixpoint increment (language : str) (stats : list (str * Z)) : list (str * Z) :=
  match stats with
  | [] => [(language, 1)]
  | (k, n) :: rest =>
      if str_eqb k language then (k, n + 1) :: rest
      else (k, n) :: increment language rest
  end.

(** The body of the counting loop. *)
Definition count_language (stats : list (str * Z)) (repo : Repo) : list (str * Z) :=
  match get (repo_language repo) with
  | Some language =>
      if truthy (Some language) then increment language stats else stats
  | None => stats
  end.

Definition language_stats (repos : list Repo) : list (str * Z) :=
  fold_left count_language repos [].

Definition count_below (a b : str * Z) : bool := snd a <? snd b.

Definition sorted_languages (repos : list Repo) : list (str * Z) :=
  sort_desc count_below (language_stats repos).

Definition float_of_int (n : Z) : float := PrimFloat.of_uint63 (Uint63.of_Z n).

(** [(count / len(repos)) * 100] in binary64. *)
Definition percentage (count : Z) (repos : list Repo) : float :=
  (float_of_int count / float_of_int (Z.of_nat (length repos)) * 100)%float.

(** Tenths of [m * 2^e], rounded to the nearest, ties to even. *)
Definition round_tenths (m e : Z) : Z :=
  if 0 <=? e then m * 10 * 2 ^ e
  else
    let d := 2 ^ (- e) in
    let q := (m * 10) / d in
    let r := (m * 10) mod d in
    if (d <? 2 * r) || ((d =? 2 * r) && Z.odd q) then q + 1 else q.

(** [f"{x:.1f}"]: the decimal with one digit after the point nearest to
    the exact value of [x]. *)
Definition format_1f (x : float) : str :=
  match Prim2SF x with
  | S754_zero s => (if s then L "-" else []) ++ L "0.0"
  | S754_finite s m e =>
      let t := round_tenths (Zpos m) e in
      (if s then L "-" else []) ++ str_of_int (t / 10) ++ L "." ++ str_of_int (t mod 10)
  | S754_infinity s => (if s then L "-" else []) ++ L "inf"
  | S754_nan => L "nan"
  end.

Definition language_entry (repos : list Repo) (item : str * Z) : str :=
  let '(language, count) := item in
  let percentage := percentage count repos in
  L "**" ++ language ++ L "** (" ++ str_of_int count ++ L " repos, "
  ++ format_1f percentage ++ L "%)".

Definition format_org_languages (repos : list Repo) : str :=
  match language_stats repos with
  | [] => L "No language data available."
  | _ :: _ =>
      join (L " " ++ [0x2022%N] ++ L " ")
           (map (language_entry repos) (firstn 8 (sorted_languages repos)))
  end.

(** The value of [count / len(repos) * 100] as a rational number, before
    any floating-point rounding. *)
Definition percentage_exact (count : Z) (repos : list Repo) : Q :=
  (inject_Z count / inject_Z (Z.of_nat (length repos)) * inject_Z 100)%Q.

(** Sum of the percentages over all the languages. *)
Definition sum_percentages (repos : list Repo) : float :=
  fold_left (fun acc item => (acc + percentage (snd item) repos)%float)
            (language_stats repos) 0%float.

Definition sum_percentages_exact (repos : list Repo) : Q :=
  fold_right (fun item acc => (percentage_exact (snd item) repos + acc)%Q)
             (inject_Z 0) (language_stats repos).

(** The repositories that declare a primary language. *)
Definition declares_language (repo : Repo) : bool :=
  truthy (get (repo_language repo)).

Definition declared_count (repos : list Repo) : Z :=
  Z.of_nat (length (filter declares_language repos)).

(** ** Document updater *)

(** [f.read()] on a file opened with [open(path, 'r')]: the default
    [newline=None] selects universal newlines, so [\r\n] and a lone [\r]
    both read as [\n]. *)
Fixpoint read_text (raw : str) : str :=
  match raw with
  | [] => []
  | c :: rest =>
      if N.eqb c 13
      then match rest with
           | [] => [10%N]
           | c' :: rest' =>
               10%N :: (if N.eqb c' 10 then read_text rest' else read_text rest)
           end
      else c :: read_text rest
  end.

(** [f.write(content)] on a file opened with [open(path, 'w')]: with the
    default [newline=None] every [\n] is written as [os.linesep]. *)
Definition write_text (linesep : str) (content : str) : str :=
  flat_map (fun c => if N.eqb c 10 then linesep else [c]) content.

Definition RECENT_ACTIVITY : str := L "<!-- RECENT_ACTIVITY:START -->".
Definition BUILD_STATUS : str := L "<!-- BUILD_STATUS:START -->".
Definition TEAM_MEMBERS : str := L "<!-- TEAM_MEMBERS:START -->".
Definition ACTIVE_REPOS : str := L "<!-- ACTIVE_REPOS:START -->".
Definition LATEST_RELEASES : str := L "<!-- LATEST_RELEASES:START -->".
Definition ORG_LANGUAGES : str := L "<!-- ORG_LANGUAGES:START -->".
Definition LAST_UPDATED : str := L "<!-- LAST_UPDATED -->".

(** [marker.replace('START', 'END')] *)
Definition end_marker_of (marker : str) : str :=
  replace marker (L "START") (L "END").

(** The body of the loop over [replacements.items()]: the new [content]. *)
Definition replace_marker (content marker replacement : str) : str :=
  if contains content marker then
    if endswith marker (L "START -->") then
      let end_marker := end_marker_of marker in
      let start_idx := find content marker in
      let end_idx := find content end_marker in
      if negb (start_idx =? -1) && negb (end_idx =? -1) then
        let before := slice_to content (start_idx + len marker) in
        let after := slice_from content end_idx in
        before ++ nl ++ replacement ++ nl ++ after
      else content
    else replace content marker replacement
  else content.

(** The loop: the replacements are applied in the order of the dictionary,
    each to the content left by the one before. *)
Definition apply_replacements (replacements : list (str * str)) (content : str)
  : str :=
  fold_left (fun content item => replace_marker content (fst item) (snd item))
            replacements content.

(** The [replacements] dictionary, in insertion order. *)
Definition replacements_of (activity_content build_content team_content
                            active_repos_content releases_content
                            languages_content timestamp : str)
  : list (str * str) :=
  [ (RECENT_ACTIVITY, activity_content);
    (BUILD_STATUS, build_content);
    (TEAM_MEMBERS, team_content);
    (ACTIVE_REPOS, active_repos_content);
    (LATEST_RELEASES, releases_content);
    (ORG_LANGUAGES, languages_content);
    (LAST_UPDATED, timestamp) ].

(** [with open(readme_path, 'r', encoding='utf-8') as f: content = f.read()]
    inside [try]: the content, or [None] when [FileNotFoundError] is
    caught; any other exception escapes. *)
Definition read_file (f : file) : result (option str) :=
  match f with
  | Missing => Ok None
  | Unreadable e => Raise e
  | ReadOnly raw _ | Unwritable raw _ | Text raw =>
      if has_surrogate raw then Raise UnicodeDecodeError
      else Ok (Some (read_text raw))
  end.

(** [with open(readme_path, 'w', encoding='utf-8') as f: f.write(content)]:
    the file that is left.  Nothing is caught here.  Encoding a surrogate,
    which a fetched string can hold, raises [UnicodeEncodeError] as soon as
    [write] is called. *)
Definition write_file (f : file) (linesep content : str) : result str :=
  match f with
  | ReadOnly _ e => Raise e
  | Unwritable _ e =>
      if has_surrogate content then Raise UnicodeEncodeError else Raise e
  | Missing | Unreadable _ | Text _ =>
      if has_surrogate content then Raise UnicodeEncodeError
      else Ok (write_text linesep content)
  end.

(** [update_readme()]: the value returned and the file it leaves, or the
    exception that escapes.  The progress lines printed on the way are not
    modelled. *)
Definition update_readme (w : World) : result (bool * option str) :=
  let repos := get_org_repositories w 10 in
  let members := get_org_members w in
  activity_content <- format_repository_activity (clock w) repos ;;
  build_content <- format_build_status w repos ;;
  let team_content := format_team_members members in
  let active_repos_content := format_active_repos repos in
  releases_content <- format_latest_releases w repos ;;
  let languages_content := format_org_languages repos in
  read <- read_file (document w) ;;
  match read with
  | None => Ok (false, None)                    (* [return False] *)
  | Some content =>
      let replacements :=
        replacements_of activity_content build_content team_content
                        active_repos_content releases_content
                        languages_content
                        (strftime_utc_label (datetime_now (clock w) None)) in
      let content := apply_replacements replacements content in
      written <- write_file (document w) (linesep w) content ;;
      Ok (true, Some written)                   (* [return True] *)
  end.

(** The exit status of the process: [sys.exit(0 if success else 1)]; an
    exception that nothing catches ends the interpreter with status 1. *)
Definition main (w : World) : Z :=
  match update_readme w with
  | Ok (true, _) => 0
  | Ok (false, _) => 1
  | Raise _ => 1
  end.

(** The timestamp the claim asks for: the current instant read in UTC. *)
Definition utc_timestamp (c : Clock) : str :=
  strftime_utc_label (mkDatetime (now_us c) None).

(** ** Specification vocabulary *)

(** The seven markers, in the order of the dictionary. *)
Definition all_markers : list str :=
  [RECENT_ACTIVITY; BUILD_STATUS; TEAM_MEMBERS; ACTIVE_REPOS; LATEST_RELEASES;
   ORG_LANGUAGES; LAST_UPDATED].

(** [occurs_at s sub i]: [sub] is found in [s] at index [i], character by
    character. *)
Definition occurs_at (s sub : str) (i : nat) : Prop :=
  exists pre post, s = pre ++ sub ++ post /\ length pre = i.

(** [replaced_all old new s s']: [s'] is [s] with every occurrence of
    [old], found from left to right without overlap, turned into [new]. *)
Inductive replaced_all (old new : str) : str -> str -> Prop :=
| replaced_none : forall s,
    index_of s old = None -> replaced_all old new s s
| replaced_next : forall s i rest',
    index_of s old = Some i ->
    replaced_all old new (skipn (i + length old) s) rest' ->
    replaced_all old new s (firstn i s ++ new ++ rest').

(** The number of repositories counted in a table of language counts. *)
Definition total_count (stats : list (str * Z)) : Z :=
  fold_right (fun item acc => snd item + acc) 0 stats.

(** Every release is published strictly after the ones that follow it. *)
Definition strictly_descending (releases : list release_data) : Prop :=
  StronglySorted (fun a b => published_before b a = true) releases.

(** A timestamp of the API, [YYYY-MM-DDTHH:MM:SSZ], by its fields. *)
Record civil : Set := mkCivil {
  year : Z; month : Z; day : Z; hour : Z; minute : Z; second : Z
}.

Definition valid_civil (t : civil) : Prop :=
  1 <= year t <= 9999 /\ 1 <= month t <= 12
  /\ 1 <= day t <= days_in_month (year t) (month t)
  /\ 0 <= hour t < 24 /\ 0 <= minute t < 60 /\ 0 <= second t < 60.

Definition digit_char (k : Z) : N := Z.to_N (48 + k).

Definition two_digits (n : Z) : str :=
  [digit_char (n / 10); digit_char (n mod 10)].

Definition four_digits (n : Z) : str :=
  [digit_char (n / 1000); digit_char (n / 100 mod 10);
   digit_char (n / 10 mod 10); digit_char (n mod 10)].

Definition api_timestamp (t : civil) : str :=
  four_digits (year t) ++ L "-" ++ two_digits (month t) ++ L "-"
  ++ two_digits (day t) ++ L "T" ++ two_digits (hour t) ++ L ":"
  ++ two_digits (minute t) ++ L ":" ++ two_digits (second t) ++ L "Z".

(** The instant that a timestamp of the API denotes. *)
Definition instant_of (t : civil) : Z :=
  (days_from_civil (year t) (month t) (day t) * 86400
   + hour t * 3600 + minute t * 60 + second t) * us_per_second.

(** Comparison of two timestamps field by field. *)
Definition civil_compare (a b : civil) : comparison :=
  match year a ?= year b with
  | Eq =>
      match month a ?= month b with
      | Eq =>
          match day a ?= day b with
          | Eq =>
              match hour a ?= hour b with
              | Eq =>
                  match minute a ?= minute b with
                  | Eq => second a ?= second b
                  | c => c
                  end
              | c => c
              end
          | c => c
          end
      | c => c
      end
  | c => c
  end.

(** What replacing only the first occurrence of [old] would give. *)
Definition replace_first (s old new : str) : str :=
  match index_of s old with
  | None => s
  | Some i => firstn i s ++ new ++ skipn (i + length old) s
  end.

(** ** Concrete inputs *)

(** 2024-01-15 12:30:45 UTC on a machine whose zone is UTC, and the same
    instant on a machine one hour east of UTC. *)
Definition clock_utc : Clock := mkClock 1705321845000000 0.
Definition clock_cet : Clock := mkClock 1705321845000000 3600000000.

(** A run in which every request is answered with status 503. *)
Definition offline (c : Clock) (document : option str) : World :=
  mkWorld c
          (fun _ => mkResponse 503 [])
          (mkResponse 503 [])
          (fun _ _ => mkResponse 503 None)
          (fun _ _ => mkResponse 503 [])
          (match document with Some raw => Text raw | None => Missing end) nl.

(** A run in which the organisation has the repositories [repos], the
    releases [releases] in each of them, and no members or workflow runs. *)
Definition online (c : Clock) (repos : list Repo) (releases : list Release)
                  (document : option str) : World :=
  mkWorld c
          (fun _ => mkResponse 200 repos)
          (mkResponse 200 [])
          (fun _ _ => mkResponse 200 (Some []))
          (fun _ _ => mkResponse 200 releases)
          (match document with Some raw => Text raw | None => Missing end) nl.

Definition repo_api (description language : jfield) : Repo :=
  mkRepo (L "api") (L "Care-Alarm/api") description language
         (L "2024-01-15T08:00:00Z") 3 (L "https://github.com/Care-Alarm/api")
         false.

Definition repo_web (description language : jfield) : Repo :=
  mkRepo (L "web") (L "Care-Alarm/web") description language
         (L "2024-01-10T09:15:00Z") 1 (L "https://github.com/Care-Alarm/web")
         true.

Definition repo_cli (description language : jfield) : Repo :=
  mkRepo (L "cli") (L "Care-Alarm/cli") description language
         (L "2023-12-01T00:00:00Z") 0 (L "https://github.com/Care-Alarm/cli")
         false.

(** One repository with a language and one without. *)
Definition repos_half : list Repo :=
  [repo_api (JStr (L "The API")) (JStr (L "Python")); repo_web JNull JNull].

(** Three repositories, each with a language of its own. *)
Definition repos_thirds : list Repo :=
  [repo_api (JStr (L "The API")) (JStr (L "Python"));
   repo_web (JStr (L "The site")) (JStr (L "TypeScript"));
   repo_cli (JStr (L "The tool")) (JStr (L "Go"))].

(** Two releases, the older one first; in the world [online] every
    repository has them, published at the same instants. *)
Definition release_v1_0 : Release :=
  mkRelease (L "v1.0") (JStr (L "First")) (L "https://example.org/v1.0")
            (L "2024-01-10T10:00:00Z") false.
Definition release_v1_1 : Release :=
  mkRelease (L "v1.1") (JStr (L "Fix")) (L "https://example.org/v1.1")
            (L "2024-01-14T10:00:00Z") false.

Definition repos_two : list Repo :=
  [repo_api (JStr (L "The API")) (JStr (L "Python"));
   repo_web (JStr (L "The site")) (JStr (L "TypeScript"))].

Definition world_releases : World :=
  online clock_utc repos_two [release_v1_0; release_v1_1] None.

(** A description of 100 characters. *)
Definition long_description : str := repeat 97%N 100.

(** The repository [api] with a long description, and the instant of its
    [updated_at], 2024-01-15 08:00:00 UTC. *)
Definition repo_long : Repo := repo_api (JStr long_description) (JStr (L "Python")).
Definition updated_api : datetime := mkDatetime 1705305600000000 (Some 0).

(** A repository updated at the given time. *)
Definition repo_updated (updated_at : str) : Repo :=
  mkRepo (L "api") (L "Care-Alarm/api") (JStr (L "The API")) (JStr (L "Python"))
         updated_at 3 (L "https://github.com/Care-Alarm/api") false.

(** A document with the seven markers, and a run with two repositories,
    one member, two workflow runs and two releases of the first
    repository. *)
Definition doc_full : str :=
  L "# Care-Alarm" ++ nl
  ++ RECENT_ACTIVITY ++ nl ++ L "old" ++ nl ++ L "<!-- RECENT_ACTIVITY:END -->" ++ nl
  ++ BUILD_STATUS ++ L "<!-- BUILD_STATUS:END -->" ++ nl
  ++ TEAM_MEMBERS ++ L "<!-- TEAM_MEMBERS:END -->" ++ nl
  ++ ACTIVE_REPOS ++ L "<!-- ACTIVE_REPOS:END -->" ++ nl
  ++ LATEST_RELEASES ++ L "<!-- LATEST_RELEASES:END -->" ++ nl
  ++ ORG_LANGUAGES ++ L "<!-- ORG_LANGUAGES:END -->" ++ nl
  ++ L "Updated: " ++ LAST_UPDATED ++ nl.

Definition run_ci : WorkflowRun :=
  mkRun (L "CI") (L "main") (JStr (L "success")) (JStr (L "completed"))
        (L "2024-01-15T09:00:00Z").
Definition run_deploy : WorkflowRun :=
  mkRun (L "Deploy") (L "main") JNull (JStr (L "in_progress"))
        (L "2024-01-12T09:00:00Z").
Definition member_ana : Member :=
  mkMember (L "ana") (L "https://avatars.example.org/ana")
           (L "https://github.com/ana").

Definition world_full : World :=
  mkWorld clock_utc
          (fun _ => mkResponse 200 [repo_long; repo_web Absent JNull])
          (mkResponse 200 [member_ana])
          (fun name _ => if str_eqb name (L "Care-Alarm/api")
                         then mkResponse 200 (Some [run_ci; run_deploy])
                         else mkResponse 404 None)
          (fun name _ => if str_eqb name (L "Care-Alarm/api")
                         then mkResponse 200 [release_v1_0; release_v1_1]
                         else mkResponse 200 [])
          (Text doc_full) nl.

Definition doc_two_timestamps : str :=
  LAST_UPDATED ++ L " / " ++ LAST_UPDATED.

Definition doc_end_before_start : str :=
  L "<!-- ORG_LANGUAGES:END -->" ++ nl ++ L "footer" ++ nl
  ++ L "<!-- ORG_LANGUAGES:START -->".

Definition doc_crlf : str := L "line 1" ++ [13%N; 10%N] ++ L "line 2".

Definition doc_activity_and_footer : str :=
  L "<!-- RECENT_ACTIVITY:START -->" ++ L "<!-- RECENT_ACTIVITY:END -->" ++ nl
  ++ L "KEEP" ++ nl ++ L "<!-- BUILD_STATUS:END -->".

Definition doc_timestamp : str := L "Last updated: " ++ LAST_UPDATED.

Definition doc_section : str :=
  L "# Dashboard" ++ nl ++ RECENT_ACTIVITY ++ L "old text"
  ++ L "<!-- RECENT_ACTIVITY:END -->" ++ nl ++ L "footer".

(** ** Vocabulary of the further properties *)

(** [runs] is not empty: the repository gets a block of builds. *)
Definition has_runs (w : World) (repo : Repo) : bool :=
  match get_workflow_runs w (repo_full_name repo) 2 with
  | [] => false
  | _ :: _ => true
  end.

(** [releases] is not empty. *)
Definition has_releases (w : World) (repo : Repo) : bool :=
  match get_repo_releases w (repo_full_name repo) 2 with
  | [] => false
  | _ :: _ => true
  end.

(** The emoji of a workflow run, as [build_entry] computes it. *)
Definition status_emoji_of (run : WorkflowRun) : str :=
  dict_get status_emoji_table
           (py_or (get (run_conclusion run)) (get (run_status run)))
           [0x2753%N].

(** The release with the display name that [name_of] gives it. *)
Definition rename_release (name_of : Release -> jfield) (release : Release)
  : Release :=
  mkRelease (release_tag_name release) (name_of release)
            (release_html_url release) (release_published_at release)
            (release_prerelease release).

(** The world in which the releases fetched are so renamed. *)
Definition with_release_names (name_of : Release -> jfield) (w : World) : World :=
  mkWorld (clock w) (http_org_repos w) (http_org_members w)
          (http_workflow_runs w)
          (fun repo_full_name limit =>
             mkResponse (status_code (http_releases w repo_full_name limit))
                        (map (rename_release name_of)
                             (json (http_releases w repo_full_name limit))))
          (document w) (linesep w).

(** A collected release without its display name. *)
Definition without_name (r : release_data) : release_data :=
  mkReleaseData (rd_repo r) (rd_tag r) None (rd_url r) (rd_published_at r)
                (rd_prerelease r).

(** [stats[language]] when the key is there. *)
Fixpoint stats_get (language : str) (stats : list (str * Z)) : option Z :=
  match stats with
  | [] => None
  | (k, n) :: rest => if str_eqb k language then Some n else stats_get language rest
  end.

(** The repositories that the counting loop files under [language]. *)
Definition has_language (language : str) (repo : Repo) : bool :=
  match get (repo_language repo) with
  | Some s => truthy (Some s) && str_eqb s language
  | None => false
  end.

(** How many repositories the loop files under [language]. *)
Definition repos_in (language : str) (repos : list Repo) : Z :=
  Z.of_nat (length (filter (has_language language) repos)).

(** The language that the counting loop files a repository under, if any. *)
Definition declared_language (repo : Repo) : list str :=
  match get (repo_language repo) with
  | Some language => if truthy (Some language) then [language] else []
  | None => []
  end.

(** The languages that the repositories declare, in the order of the
    list, one for each repository that declares one. *)
Definition declared_languages (repos : list Repo) : list str :=
  flat_map declared_language repos.

(** The strings of [l] without repetition, each at the place of its first
    occurrence. *)
Fixpoint first_mentions (l : list str) : list str :=
  match l with
  | [] => []
  | s :: rest => s :: filter (fun t => negb (str_eqb t s)) (first_mentions rest)
  end.

(** [key in stats] *)
Definition has_key (stats : list (str * Z)) (key : str) : bool :=
  existsb (fun item => str_eqb (fst item) key) stats.

(** The characters a timestamp is made of. *)
Definition timestamp_alphabet : str := L "0123456789-: UTC".

(** [c in alphabet] *)
Definition in_alphabet (alphabet : str) (c : N) : bool :=
  existsb (N.eqb c) alphabet.

(** The time from the instant of [d] to now, in microseconds; a naive [d]
    is read in the machine's zone. *)
Definition elapsed_us (c : Clock) (d : datetime) : Z :=
  now_us c - (wall d - match tzinfo d with
                       | Some off => off
                       | None => local_offset_us c
                       end).

(** The same world with another file, or none, at [README.md]. *)
Definition with_document (document : file) (w : World) : World :=
  mkWorld (clock w) (http_org_repos w) (http_org_members w)
          (http_workflow_runs w) (http_releases w) document (linesep w).

(** The line separator of Windows. *)
Definition crlf : str := [13%N; 10%N].

(** ** Vocabulary of the rewritten document *)

(** The six markers that open a section. *)
Definition paired_markers : list str :=
  [RECENT_ACTIVITY; BUILD_STATUS; TEAM_MEMBERS; ACTIVE_REPOS; LATEST_RELEASES;
   ORG_LANGUAGES].

(** The thirteen tokens that the updater looks for: the seven markers and
    the six end markers. *)
Definition marker_tokens : list str :=
  all_markers ++ map end_marker_of paired_markers.

(** [s] contains none of the tokens. *)
Definition token_free (s : str) : bool :=
  forallb (fun token => negb (contains s token)) marker_tokens.

Definition is_token (s : str) : bool := existsb (str_eqb s) marker_tokens.

(** A document as the texts between its tokens: each piece is a text and
    the token that follows it, and [tail] is the text after the last
    token. *)
Definition flatten (pieces : list (str * str)) (tail : str) : str :=
  flat_map (fun piece => fst piece ++ snd piece) pieces ++ tail.

(** The position of the first [token] in a list of tokens. *)
Fixpoint first_index (tokens : list str) (token : str) : option nat :=
  match tokens with
  | [] => None
  | t :: rest =>
      if str_eqb t token then Some O else option_map S (first_index rest token)
  end.

(** When both tokens of a section occur, the first end marker is the token
    right after the first start marker. *)
Definition well_paired (tokens : list str) (marker : str) : bool :=
  match first_index tokens marker, first_index tokens (end_marker_of marker) with
  | Some p, Some q => Nat.eqb q (S p)
  | _, _ => true
  end.

(** The texts contain no token, every token is one of the thirteen, and
    the six sections are well paired. *)
Definition well_formed (pieces : list (str * str)) (tail : str) : bool :=
  forallb (fun piece => token_free (fst piece) && is_token (snd piece)) pieces
  && token_free tail
  && forallb (well_paired (map snd pieces)) paired_markers.

(** The text between the first [marker] and the end marker that follows it
    becomes the fragment [replacement] on a line of its own. *)
Fixpoint update_section (marker replacement : str) (pieces : list (str * str))
  : list (str * str) :=
  match pieces with
  | [] => []
  | (text, token) :: rest =>
      (text, token)
      :: (if str_eqb token marker
          then match rest with
               | (body, token') :: rest' =>
                   if str_eqb token' (end_marker_of marker)
                   then (nl ++ replacement ++ nl, token') :: rest'
                   else rest
               | [] => []
               end
          else update_section marker replacement rest)
  end.

Definition update_sections (sections pieces : list (str * str))
  : list (str * str) :=
  fold_left (fun pieces item => update_section (fst item) (snd item) pieces)
            sections pieces.

(** Every timestamp marker becomes [timestamp]: the texts on its two sides
    and the timestamp become one text.  [carry] is the text gathered since
    the last token that stays. *)
Fixpoint stamp_pieces (timestamp carry : str) (pieces : list (str * str))
  : list (str * str) :=
  match pieces with
  | [] => []
  | (text, token) :: rest =>
      if str_eqb token LAST_UPDATED
      then stamp_pieces timestamp (carry ++ text ++ timestamp) rest
      else (carry ++ text, token) :: stamp_pieces timestamp [] rest
  end.

Fixpoint stamp_carry (timestamp carry : str) (pieces : list (str * str)) : str :=
  match pieces with
  | [] => carry
  | (text, token) :: rest =>
      if str_eqb token LAST_UPDATED
      then stamp_carry timestamp (carry ++ text ++ timestamp) rest
      else stamp_carry timestamp [] rest
  end.

(** The first six entries of [replacements]: the sections and their new
    fragments. *)
Definition sections_of (w : World) : result (list (str * str)) :=
  let repos := get_org_repositories w 10 in
  activity_content <- format_repository_activity (clock w) repos ;;
  build_content <- format_build_status w repos ;;
  releases_content <- format_latest_releases w repos ;;
  Ok [ (RECENT_ACTIVITY, activity_content);
       (BUILD_STATUS, build_content);
       (TEAM_MEMBERS, format_team_members (get_org_members w));
       (ACTIVE_REPOS, format_active_repos repos);
       (LATEST_RELEASES, releases_content);
       (ORG_LANGUAGES, format_org_languages repos) ].

(** A token starts with its only [<], ends with its only [>] and has no
    digit and no newline. *)
Definition token_shape (token : str) : bool :=
  match token, rev token with
  | c :: rest, c' :: rest' =>
      N.eqb c 60 && negb (existsb (N.eqb 60) rest)
      && N.eqb c' 62 && negb (existsb (N.eqb 62) rest')
      && negb (existsb (fun c => is_digit c || N.eqb c 10) token)
  | _, _ => false
  end.

(** A section inside another one, and a section whose end marker comes
    first. *)
Definition doc_nested : str :=
  BUILD_STATUS ++ nl ++ RECENT_ACTIVITY ++ L "old" ++ end_marker_of RECENT_ACTIVITY
  ++ nl ++ end_marker_of BUILD_STATUS.

Definition doc_reversed : str :=
  end_marker_of RECENT_ACTIVITY ++ L "A" ++ RECENT_ACTIVITY ++ L "B".

(** [doc_full] by its pieces, and the fragments of [world_full]. *)
Definition pieces_full : list (str * str) :=
  [ (L "# Care-Alarm" ++ nl, RECENT_ACTIVITY);
    (nl ++ L "old" ++ nl, end_marker_of RECENT_ACTIVITY);
    (nl, BUILD_STATUS); ([], end_marker_of BUILD_STATUS);
    (nl, TEAM_MEMBERS); ([], end_marker_of TEAM_MEMBERS);
    (nl, ACTIVE_REPOS); ([], end_marker_of ACTIVE_REPOS);
    (nl, LATEST_RELEASES); ([], end_marker_of LATEST_RELEASES);
    (nl, ORG_LANGUAGES); ([], end_marker_of ORG_LANGUAGES);
    (nl ++ L "Updated: ", LAST_UPDATED) ].

Definition sections_full : list (str * str) :=
  match sections_of world_full with
  | Ok sections => sections
  | Raise _ => []
  end.

(** * Properties *)

(** Linear arithmetic with divisions by constants. *)
Ltac zdiv := Z.div_mod_to_equations; lia.

(** ** Evaluation of the model on small inputs *)

Example replace_ex1 :
  replace (L "aXbXc") (L "X") (L "--") = L "a--b--c".
Proof. reflexivity. Qed.

Example replace_ex2 : replace (L "aaa") (L "aa") (L "b") = L "ba".
Proof. reflexivity. Qed.

Example replace_ex3 : replace (L "abc") [] (L "-") = L "-a-b-c-".
Proof. reflexivity. Qed.

Example find_ex1 : find (L "hello") (L "l") = 2%Z.
Proof. reflexivity. Qed.

Example find_ex2 : find (L "hello") (L "L") = (-1)%Z.
Proof. reflexivity. Qed.

Example str_of_int_ex : str_of_int 120 = L "120" /\ str_of_int (-3) = L "-3" /\ str_of_int 0 = L "0".
Proof. repeat split; reflexivity. Qed.

Example parse_iso_ex :
  parse_iso (replace (L "2024-01-15T12:30:45Z") (L "Z") (L "+00:00"))
  = Some (mkDatetime 1705321845000000 (Some 0)).
Proof. reflexivity. Qed.

(** The forms that CPython 3.11 reads: a date alone, a shorter time, the
    compact and the week forms, a final [Z], a fraction of any length, an
    offset; and some that it refuses. *)
Example parse_iso_forms :
  map (fun s => parse_iso (lit s))
      ["2024-01-15"; "2024-01-15T08"; "20240115T0800"; "2024-W03-1";
       "2024-01-15T08:00:00Z"; "2024-01-15T08:00:00.250+00:00";
       "2024-01-15T08:00:00.1234567"; "2024-01-15 08:00:00+05:30";
       "2024-1-15"; "2024-02-30"; "2024-01-15T24:00:00";
       "2024-01-15T08:00:00+24:00"]%string
  = [Some (mkDatetime 1705276800000000 None);
     Some (mkDatetime 1705305600000000 None);
     Some (mkDatetime 1705305600000000 None);
     Some (mkDatetime 1705276800000000 None);
     Some (mkDatetime 1705305600000000 (Some 0));
     Some (mkDatetime 1705305600250000 (Some 0));
     Some (mkDatetime 1705305600123456 None);
     Some (mkDatetime 1705305600000000 (Some 19800000000));
     None; None; None; None].
Proof. vm_compute. reflexivity. Qed.

Example strftime_ex :
  strftime_utc_label (mkDatetime 1705321845000000 None)
  = L "2024-01-15 12:30:45 UTC".
Proof. reflexivity. Qed.

Example civil_ex : civil_from_days 0 = (1970, 1, 1) /\ days_from_civil 2000 2 29 = 11016
  /\ civil_from_days 11016 = (2000, 2, 29).
Proof. repeat split; reflexivity. Qed.

Example format_1f_ex :
  format_1f (1 / 3 * 100)%float = L "33.3" /\ format_1f (1 / 16 * 100)%float = L "6.2"
  /\ format_1f 100%float = L "100.0" /\ format_1f (2 / 3 * 100)%float = L "66.7".
Proof. repeat split; vm_compute; reflexivity. Qed.

Example end_marker_ex :
  map end_marker_of [RECENT_ACTIVITY; BUILD_STATUS; TEAM_MEMBERS; ACTIVE_REPOS;
                     LATEST_RELEASES; ORG_LANGUAGES]
  = [L "<!-- RECENT_ACTIVITY:END -->"; L "<!-- BUILD_STATUS:END -->";
     L "<!-- TEAM_MEMBERS:END -->"; L "<!-- ACTIVE_REPOS:END -->";
     L "<!-- LATEST_RELEASES:END -->"; L "<!-- ORG_LANGUAGES:END -->"].
Proof. reflexivity. Qed.

Example read_text_ex : read_text (L "a" ++ [13; 10] ++ L "b" ++ [13] ++ L "c")%N
                       = (L "a" ++ [10] ++ L "b" ++ [10] ++ L "c")%N.
Proof. reflexivity. Qed.

(** ** Searching a string *)

Lemma startswith_app (p rest : str) : startswith (p ++ rest) p = true.
Proof.
  induction p as [|a p IH]; simpl; [reflexivity|].
  now rewrite N.eqb_refl, IH.
Qed.

Lemma startswith_true (s p : str) :
  startswith s p = true -> s = p ++ skipn (length p) s.
Proof.
  revert s; induction p as [|a p IH]; intros s H; simpl in *; [reflexivity|].
  destruct s as [|b s]; [discriminate|].
  apply andb_true_iff in H as [Hab H].
  apply N.eqb_eq in Hab; subst b.
  simpl. f_equal. now apply IH.
Qed.

Lemma startswith_iff (s p : str) :
  startswith s p = true <-> exists rest, s = p ++ rest.
Proof.
  split.
  - intros H. eexists. now apply startswith_true.
  - intros [rest ->]. apply startswith_app.
Qed.

Lemma startswith_length (s p : str) :
  startswith s p = true -> (length p <= length s)%nat.
Proof.
  intros H. apply startswith_true in H.
  apply (f_equal (@length N)) in H. rewrite length_app in H. lia.
Qed.

(** Whether [p] starts [s] depends on the first [length p] characters of
    [s] only. *)
Lemma startswith_firstn (s p : str) (n : nat) :
  (length p <= n)%nat -> startswith (firstn n s) p = startswith s p.
Proof.
  revert s n; induction p as [|a p IH]; intros s n Hn; simpl.
  - reflexivity.
  - simpl in Hn. destruct n as [|n]; [lia|].
    destruct s as [|b s]; simpl; [reflexivity|].
    rewrite IH by lia. reflexivity.
Qed.

Lemma index_of_unfold (s sub : str) :
  index_of s sub =
  if startswith s sub then Some O
  else match s with
       | [] => None
       | _ :: s' => option_map S (index_of s' sub)
       end.
Proof. destruct s; reflexivity. Qed.

(** [index_of] returns an index where the text occurs, and no smaller
    index is one. *)
Lemma index_of_Some (s sub : str) (i : nat) :
  index_of s sub = Some i ->
  startswith (skipn i s) sub = true /\
  (i + length sub <= length s)%nat /\
  forall j, (j < i)%nat -> startswith (skipn j s) sub = false.
Proof.
  revert i; induction s as [|c s IH]; intros i H; rewrite index_of_unfold in H.
  - destruct (startswith [] sub) eqn:E; [|discriminate].
    inversion H; subst i. simpl. split; [exact E|]. split.
    + apply startswith_length in E. simpl in *. lia.
    + intros j Hj; lia.
  - destruct (startswith (c :: s) sub) eqn:E.
    + inversion H; subst i. simpl. split; [exact E|]. split.
      * apply startswith_length in E. simpl in *. lia.
      * intros j Hj; lia.
    + destruct (index_of s sub) as [k|] eqn:Ek; [|discriminate].
      simpl in H. inversion H; subst i.
      destruct (IH k eq_refl) as (H1 & H2 & H3).
      simpl. split; [exact H1|]. split; [lia|].
      intros [|j] Hj; simpl; [exact E|]. apply H3. lia.
Qed.

Lemma index_of_None (s sub : str) :
  index_of s sub = None ->
  forall j, startswith (skipn j s) sub = false.
Proof.
  induction s as [|c s IH]; intros H j; rewrite index_of_unfold in H.
  - destruct (startswith [] sub) eqn:E; [discriminate|].
    now rewrite skipn_nil.
  - destruct (startswith (c :: s) sub) eqn:E; [discriminate|].
    destruct (index_of s sub) eqn:Ek; [discriminate|].
    destruct j as [|j]; simpl; [exact E|]. now apply IH.
Qed.

(** The converse: the least index where the text occurs is the one
    [index_of] returns. *)
Lemma index_of_least (s sub : str) (i : nat) :
  startswith (skipn i s) sub = true ->
  (i <= length s)%nat ->
  (forall j, (j < i)%nat -> startswith (skipn j s) sub = false) ->
  index_of s sub = Some i.
Proof.
  intros H1 H2 H3.
  destruct (index_of s sub) as [k|] eqn:E.
  - destruct (index_of_Some _ _ _ E) as (K1 & K2 & K3).
    destruct (Nat.lt_trichotomy i k) as [Hlt|[->|Hgt]]; [|reflexivity|].
    + rewrite (K3 i Hlt) in H1; discriminate.
    + rewrite (H3 k Hgt) in K1; discriminate.
  - rewrite (index_of_None _ _ E i) in H1; discriminate.
Qed.

Lemma occurs_at_startswith (s sub : str) (i : nat) :
  occurs_at s sub i <-> startswith (skipn i s) sub = true /\ (i <= length s)%nat.
Proof.
  split.
  - intros (pre & post & -> & <-). split.
    + rewrite skipn_app, Nat.sub_diag, skipn_all. simpl. apply startswith_app.
    + rewrite length_app. lia.
  - intros [H Hi]. exists (firstn i s), (skipn (length sub) (skipn i s)). split.
    + rewrite <- (startswith_true _ _ H). symmetry. apply firstn_skipn.
    + apply firstn_length_le. exact Hi.
Qed.

Lemma index_of_occurs (s sub : str) (i : nat) :
  index_of s sub = Some i ->
  occurs_at s sub i /\ forall j, (j < i)%nat -> ~ occurs_at s sub j.
Proof.
  intros H. destruct (index_of_Some _ _ _ H) as (H1 & H2 & H3). split.
  - apply occurs_at_startswith. split; [exact H1|lia].
  - intros j Hj Hocc. apply occurs_at_startswith in Hocc as [Hocc _].
    rewrite (H3 j Hj) in Hocc. discriminate.
Qed.

Lemma index_of_split (s sub : str) (i : nat) :
  index_of s sub = Some i ->
  s = firstn i s ++ sub ++ skipn (i + length sub) s.
Proof.
  intros H. destruct (index_of_Some _ _ _ H) as (H1 & _ & _).
  apply startswith_true in H1.
  rewrite <- (firstn_skipn i s) at 1. f_equal.
  rewrite H1 at 1. f_equal. rewrite skipn_skipn. f_equal. lia.
Qed.

Lemma contains_iff (s sub : str) :
  contains s sub = true <-> exists pre post, s = pre ++ sub ++ post.
Proof.
  unfold contains. split.
  - destruct (index_of s sub) as [i|] eqn:E; [|discriminate]. intros _.
    exists (firstn i s), (skipn (i + length sub) s).
    apply index_of_split. exact E.
  - intros (pre & post & ->).
    destruct (index_of (pre ++ sub ++ post) sub) eqn:E; [reflexivity|].
    pose proof (index_of_None _ _ E (length pre)) as H.
    rewrite skipn_app, Nat.sub_diag, skipn_all in H. simpl in H.
    now rewrite startswith_app in H.
Qed.

Lemma contains_false (s sub : str) :
  contains s sub = false <-> index_of s sub = None.
Proof.
  unfold contains. destruct (index_of s sub); split; congruence.
Qed.

(** ** [str.replace] *)

Lemma replace_rounds_all (old new : str) :
  old <> [] ->
  forall fuel s, (length s < fuel)%nat ->
  replaced_all old new s (replace_rounds fuel s old new).
Proof.
  intros Hold. induction fuel as [|fuel IH]; intros s Hlen; [lia|].
  simpl. destruct (index_of s old) as [i|] eqn:E.
  - apply replaced_next; [exact E|]. apply IH.
    destruct (index_of_Some _ _ _ E) as (_ & Hi & _).
    rewrite length_skipn.
    destruct old as [|a old]; [congruence|]. simpl in *. lia.
  - now apply replaced_none.
Qed.

Lemma replace_all (s old new : str) :
  old <> [] -> replaced_all old new s (replace s old new).
Proof.
  intros Hold. destruct old as [|a old]; [congruence|].
  unfold replace. apply replace_rounds_all; [exact Hold|lia].
Qed.

Lemma replaced_all_unique (old new s s1 s2 : str) :
  replaced_all old new s s1 -> replaced_all old new s s2 -> s1 = s2.
Proof.
  intros H1; revert s2; induction H1 as [s E|s i rest' E H1 IH]; intros s2 H2.
  - inversion H2; subst; [reflexivity|congruence].
  - inversion H2 as [s' E'|s' i' rest2 E' H2']; subst; [congruence|].
    assert (i' = i) by congruence; subst i'.
    f_equal. f_equal. now apply IH.
Qed.

(** ** One replacement step *)

Lemma clip_of_nat (s : str) (n : nat) : clip s (Z.of_nat n) = n.
Proof.
  unfold clip. destruct (Z.of_nat n <? 0) eqn:E.
  - apply Z.ltb_lt in E. lia.
  - apply Nat2Z.id.
Qed.

Lemma find_Some (s sub : str) (i : nat) :
  index_of s sub = Some i -> find s sub = Z.of_nat i /\ (find s sub =? -1) = false.
Proof.
  unfold find. intros ->. split; [reflexivity|]. apply Z.eqb_neq. lia.
Qed.

Lemma find_None (s sub : str) :
  index_of s sub = None -> (find s sub =? -1) = true.
Proof. unfold find. now intros ->. Qed.

Lemma replace_marker_absent (content marker replacement : str) :
  contains content marker = false ->
  replace_marker content marker replacement = content.
Proof. unfold replace_marker. now intros ->. Qed.

Lemma replace_marker_paired (content marker replacement : str) (i j : nat) :
  endswith marker (L "START -->") = true ->
  index_of content marker = Some i ->
  index_of content (end_marker_of marker) = Some j ->
  replace_marker content marker replacement
  = firstn (i + length marker) content ++ nl ++ replacement ++ nl
    ++ skipn j content.
Proof.
  intros Hp Hi Hj. unfold replace_marker, contains.
  rewrite Hi, Hp.
  destruct (find_Some _ _ _ Hi) as [Fi Ni]. destruct (find_Some _ _ _ Hj) as [Fj Nj].
  rewrite Ni, Nj. simpl negb. simpl andb. cbv iota.
  unfold slice_to, slice_from, len. rewrite Fi, Fj.
  rewrite <- Nat2Z.inj_add, !clip_of_nat. reflexivity.
Qed.

Lemma replace_marker_no_end (content marker replacement : str) :
  endswith marker (L "START -->") = true ->
  index_of content (end_marker_of marker) = None ->
  replace_marker content marker replacement = content.
Proof.
  intros Hp Hj. unfold replace_marker.
  destruct (contains content marker); [|reflexivity].
  rewrite Hp, (find_None _ _ Hj), andb_false_r. reflexivity.
Qed.

Lemma replace_marker_single (content marker replacement : str) :
  endswith marker (L "START -->") = false ->
  contains content marker = true ->
  replace_marker content marker replacement = replace content marker replacement.
Proof. unfold replace_marker. now intros -> ->. Qed.

Lemma apply_replacements_absent (replacements : list (str * str)) (content : str) :
  (forall item, In item replacements -> contains content (fst item) = false) ->
  apply_replacements replacements content = content.
Proof.
  unfold apply_replacements.
  induction replacements as [|item rest IH]; intros H; simpl; [reflexivity|].
  rewrite replace_marker_absent by (apply H; now left).
  apply IH. intros item' Hin. apply H. now right.
Qed.

(** ** What a splice keeps *)

Lemma firstn_app_exact (a b c : str) :
  firstn (length a + length b) (a ++ b ++ c) = a ++ b.
Proof.
  rewrite firstn_app_2. f_equal.
  rewrite <- (Nat.add_0_r (length b)), firstn_app_2. simpl. apply app_nil_r.
Qed.

Lemma index_of_bound (s sub : str) (i : nat) :
  index_of s sub = Some i -> (i + length sub <= length s)%nat.
Proof. intros H. now destruct (index_of_Some _ _ _ H) as (_ & ? & _). Qed.

(** The text up to the end of the first occurrence. *)
Lemma firstn_through (s sub : str) (i : nat) :
  index_of s sub = Some i ->
  firstn (i + length sub) s = firstn i s ++ sub.
Proof.
  intros H. pose proof (index_of_split _ _ _ H) as Hs.
  pose proof (index_of_bound _ _ _ H) as Hb.
  assert (Hl : length (firstn i s) = i) by (apply firstn_length_le; lia).
  set (A := firstn i s) in *. set (B := skipn (i + length sub) s) in *.
  rewrite Hs, <- Hl. apply firstn_app_exact.
Qed.

(** The text from the first occurrence on. *)
Lemma skipn_from (s sub : str) (j : nat) :
  index_of s sub = Some j ->
  skipn j s = sub ++ skipn (j + length sub) s.
Proof.
  intros H. destruct (index_of_Some _ _ _ H) as (H1 & _ & _).
  apply startswith_true in H1. rewrite H1 at 1. f_equal.
  rewrite skipn_skipn. f_equal. lia.
Qed.

Lemma startswith_shared_prefix (a b p : str) (k n : nat) :
  firstn n a = firstn n b ->
  (k + length p <= n)%nat ->
  startswith (skipn k a) p = startswith (skipn k b) p.
Proof.
  intros Hab Hk.
  rewrite <- (startswith_firstn (skipn k a) p (length p)) by lia.
  rewrite <- (startswith_firstn (skipn k b) p (length p)) by lia.
  rewrite !firstn_skipn_comm.
  assert (E : forall l : str, firstn (k + length p) l
                              = firstn (k + length p) (firstn n l)).
  { intros l. rewrite firstn_firstn. f_equal. lia. }
  rewrite (E a), (E b), Hab. reflexivity.
Qed.

(** A text that shares with [s] everything up to the end of the first
    occurrence has its first occurrence at the same index. *)
Lemma index_of_shared_prefix (s t sub : str) (i : nat) :
  index_of s sub = Some i ->
  firstn (i + length sub) t = firstn (i + length sub) s ->
  index_of t sub = Some i.
Proof.
  intros H Hst. destruct (index_of_Some _ _ _ H) as (H1 & H2 & H3).
  assert (Hlen : (i + length sub <= length t)%nat).
  { apply (f_equal (@length N)) in Hst. rewrite !length_firstn in Hst. lia. }
  apply index_of_least.
  - rewrite (startswith_shared_prefix t s sub i _ Hst) by lia. exact H1.
  - lia.
  - intros k Hk.
    rewrite (startswith_shared_prefix t s sub k _ Hst) by lia. now apply H3.
Qed.

Lemma firstn_app_left (a b : str) (n : nat) :
  (n <= length a)%nat -> firstn n (a ++ b) = firstn n a.
Proof.
  intros H. rewrite firstn_app.
  replace (n - length a)%nat with O by lia. simpl. apply app_nil_r.
Qed.

(** The middle of a text between two indices. *)
Lemma split_three (s : str) (a b : nat) :
  (a <= b)%nat ->
  s = firstn a s ++ firstn (b - a) (skipn a s) ++ skipn b s.
Proof.
  intros Hab.
  rewrite <- (firstn_skipn a s) at 1. f_equal.
  rewrite <- (firstn_skipn (b - a) (skipn a s)) at 1. f_equal.
  rewrite skipn_skipn. f_equal. lia.
Qed.

(** The two forms of a paired step's result and of its input. *)
Lemma splice_parts (content marker replacement : str) (i j : nat) :
  endswith marker (L "START -->") = true ->
  index_of content marker = Some i ->
  index_of content (end_marker_of marker) = Some j ->
  replace_marker content marker replacement
  = firstn i content ++ marker ++ nl ++ replacement ++ nl
    ++ end_marker_of marker
    ++ skipn (j + length (end_marker_of marker)) content
  /\ ((i + length marker <= j)%nat ->
      content
      = firstn i content ++ marker
        ++ firstn (j - (i + length marker)) (skipn (i + length marker) content)
        ++ end_marker_of marker
        ++ skipn (j + length (end_marker_of marker)) content).
Proof.
  intros Hp Hi Hj. split.
  - rewrite (replace_marker_paired _ _ replacement _ _ Hp Hi Hj).
    rewrite (firstn_through _ _ _ Hi), (skipn_from _ _ _ Hj).
    rewrite <- !app_assoc. reflexivity.
  - intros Hord.
    rewrite (split_three content (i + length marker) j Hord) at 1.
    rewrite (firstn_through _ _ _ Hi), (skipn_from _ _ _ Hj).
    rewrite <- !app_assoc. reflexivity.
Qed.

(** ** Claims about the document updater *)

(** One step on any content.  When the step replaces a paired section (the
    start marker is in the content and the end marker is found), the
    content it produces is the text before the start marker, the start
    marker itself, a newline, the fragment, a newline, the end marker
    itself and the text after it.  The start marker is still first found at
    the same index and the end marker is still found, so running the same
    step on the new content replaces the section again.  When the start
    marker ends at or before the end marker, the old content is the same
    two outer parts around the text strictly between the markers, which is
    all that the step drops. *)
Lemma paired_step_keeps_markers (content marker replacement : str) (i j : nat) :
  endswith marker (L "START -->") = true ->
  index_of content marker = Some i ->
  index_of content (end_marker_of marker) = Some j ->
  replace_marker content marker replacement
  = firstn i content ++ marker ++ nl ++ replacement ++ nl
    ++ end_marker_of marker
    ++ skipn (j + length (end_marker_of marker)) content
  /\ index_of (replace_marker content marker replacement) marker = Some i
  /\ contains (replace_marker content marker replacement) (end_marker_of marker)
     = true
  /\ (forall replacement', exists j',
        index_of (replace_marker content marker replacement) (end_marker_of marker)
        = Some j'
        /\ replace_marker (replace_marker content marker replacement)
                          marker replacement'
           = firstn i content ++ marker ++ nl ++ replacement' ++ nl
             ++ skipn j' (replace_marker content marker replacement))
  /\ ((i + length marker <= j)%nat ->
      content
      = firstn i content ++ marker
        ++ firstn (j - (i + length marker)) (skipn (i + length marker) content)
        ++ end_marker_of marker
        ++ skipn (j + length (end_marker_of marker)) content).
Proof.
  intros Hp Hi Hj.
  pose proof (index_of_bound _ _ _ Hi) as Hbi.
  assert (Hout : replace_marker content marker replacement
                 = firstn i content ++ marker ++ nl ++ replacement ++ nl
                   ++ end_marker_of marker
                   ++ skipn (j + length (end_marker_of marker)) content).
  { rewrite (replace_marker_paired _ _ replacement _ _ Hp Hi Hj).
    rewrite (firstn_through _ _ _ Hi), (skipn_from _ _ _ Hj).
    rewrite <- !app_assoc. reflexivity. }
  assert (Hidx : index_of (replace_marker content marker replacement) marker
                 = Some i).
  { apply (index_of_shared_prefix content _ marker i Hi).
    rewrite Hout, (firstn_through _ _ _ Hi).
    assert (Hl : length (firstn i content) = i) by (apply firstn_length_le; lia).
    rewrite <- Hl at 1. apply firstn_app_exact. }
  assert (Hend : contains (replace_marker content marker replacement)
                          (end_marker_of marker) = true).
  { apply contains_iff. rewrite Hout.
    exists (firstn i content ++ marker ++ nl ++ replacement ++ nl),
           (skipn (j + length (end_marker_of marker)) content).
    rewrite <- !app_assoc. reflexivity. }
  split; [exact Hout|]. split; [exact Hidx|]. split; [exact Hend|]. split.
  - intros replacement'. unfold contains in Hend.
    destruct (index_of (replace_marker content marker replacement)
                       (end_marker_of marker)) as [j'|] eqn:Ej; [|discriminate].
    exists j'. split; [reflexivity|].
    rewrite (replace_marker_paired _ _ replacement' _ _ Hp Hidx Ej).
    rewrite (firstn_through _ _ _ Hidx).
    assert (Hpre : firstn i (replace_marker content marker replacement)
                   = firstn i content).
    { rewrite Hout. rewrite firstn_app_left.
      - rewrite firstn_firstn. f_equal. lia.
      - rewrite firstn_length_le; lia. }
    rewrite Hpre, <- !app_assoc. reflexivity.
  - intros Hord.
    rewrite (split_three content (i + length marker) j Hord) at 1.
    rewrite (firstn_through _ _ _ Hi), (skipn_from _ _ _ Hj).
    rewrite <- !app_assoc. reflexivity.
Qed.

(** ** Reading and writing the file *)

Lemma read_text_no_cr (raw : str) :
  (forall c, In c raw -> c <> 13%N) -> read_text raw = raw.
Proof.
  induction raw as [|c raw IH]; intros H; simpl; [reflexivity|].
  destruct (N.eqb c 13) eqn:E.
  - apply N.eqb_eq in E. exfalso. apply (H c); [now left|exact E].
  - f_equal. apply IH. intros c' Hc'. apply H. now right.
Qed.

Lemma write_text_nl (content : str) : write_text nl content = content.
Proof.
  unfold write_text. induction content as [|c content IH]; simpl; [reflexivity|].
  rewrite IH. destruct (N.eqb c 10) eqn:E; [|reflexivity].
  apply N.eqb_eq in E. now subst c.
Qed.

(** ** The whole update *)

Lemma replacements_markers (a b t r l g ts : str) :
  map fst (replacements_of a b t r l g ts) = all_markers.
Proof. reflexivity. Qed.

Lemma Ok_inj {A : Type} (a b : A) : Ok a = Ok b -> a = b.
Proof. intros H. now injection H. Qed.

(** The end of [update_readme], once the fragments are formatted. *)
Lemma update_readme_formatted (w : World) (a b l : str) :
  format_repository_activity (clock w) (get_org_repositories w 10) = Ok a ->
  format_build_status w (get_org_repositories w 10) = Ok b ->
  format_latest_releases w (get_org_repositories w 10) = Ok l ->
  update_readme w =
  match document w with
  | Missing => Ok (false, None)
  | Unreadable e => Raise e
  | ReadOnly raw e => if has_surrogate raw then Raise UnicodeDecodeError else Raise e
  | Unwritable raw e =>
      if has_surrogate raw then Raise UnicodeDecodeError
      else if has_surrogate
                (apply_replacements
                   (replacements_of
                      a b (format_team_members (get_org_members w))
                      (format_active_repos (get_org_repositories w 10)) l
                      (format_org_languages (get_org_repositories w 10))
                      (strftime_utc_label (datetime_now (clock w) None)))
                   (read_text raw))
      then Raise UnicodeEncodeError
      else Raise e
  | Text raw =>
      if has_surrogate raw then Raise UnicodeDecodeError
      else if has_surrogate
                (apply_replacements
                   (replacements_of
                      a b (format_team_members (get_org_members w))
                      (format_active_repos (get_org_repositories w 10)) l
                      (format_org_languages (get_org_repositories w 10))
                      (strftime_utc_label (datetime_now (clock w) None)))
                   (read_text raw))
      then Raise UnicodeEncodeError
      else Ok (true,
               Some (write_text (linesep w)
                       (apply_replacements
                          (replacements_of
                             a b (format_team_members (get_org_members w))
                             (format_active_repos (get_org_repositories w 10)) l
                             (format_org_languages (get_org_repositories w 10))
                             (strftime_utc_label (datetime_now (clock w) None)))
                          (read_text raw))))
  end.
Proof.
  intros Ha Hb Hl. unfold update_readme. rewrite Ha. cbn [bind].
  rewrite Hb. cbn [bind]. rewrite Hl. cbn [bind].
  destruct (document w) as [|e|raw e|raw e|raw]; cbn [read_file bind write_file];
    try reflexivity;
    destruct (has_surrogate raw); cbn [bind]; try reflexivity;
    destruct (has_surrogate (apply_replacements _ _)); reflexivity.
Qed.

Lemma readme_Some (w : World) (raw : str) :
  readme w = Some raw <-> document w = Text raw /\ has_surrogate raw = false.
Proof.
  unfold readme.
  destruct (document w) as [|e|raw' e|raw' e|raw']; try (split; [discriminate|]);
    try (now intros [H _]).
  destruct (has_surrogate raw') eqn:E; split.
  - discriminate.
  - intros [H E']. injection H as ->. congruence.
  - intros H. injection H as ->. now split.
  - intros [H _]. now injection H as ->.
Qed.

(** What [update_readme] returns when nothing raises. *)
Lemma update_readme_Ok_inv (w : World) (r : bool * option str) :
  update_readme w = Ok r ->
  (readme w = None /\ r = (false, None))
  \/ exists raw replacements,
       readme w = Some raw
       /\ map fst replacements = all_markers
       /\ r = (true, Some (write_text (linesep w)
                             (apply_replacements replacements (read_text raw)))).
Proof.
  destruct (format_repository_activity (clock w) (get_org_repositories w 10))
    as [a|e] eqn:Ha;
    [|unfold update_readme; rewrite Ha; discriminate].
  destruct (format_build_status w (get_org_repositories w 10)) as [b|e] eqn:Hb;
    [|unfold update_readme; rewrite Ha; cbn [bind]; rewrite Hb; discriminate].
  destruct (format_latest_releases w (get_org_repositories w 10)) as [l|e] eqn:Hl;
    [|unfold update_readme; rewrite Ha; cbn [bind]; rewrite Hb; cbn [bind];
      rewrite Hl; discriminate].
  rewrite (update_readme_formatted w a b l Ha Hb Hl). unfold readme.
  destruct (document w) as [|e|raw e|raw e|raw]; intros H; try discriminate.
  - left. split; [reflexivity|]. symmetry. exact (Ok_inj _ _ H).
  - destruct (has_surrogate raw); discriminate.
  - destruct (has_surrogate raw); [discriminate|].
    destruct (has_surrogate (apply_replacements _ _)); discriminate.
  - destruct (has_surrogate raw); [discriminate|].
    destruct (has_surrogate (apply_replacements _ _)); [discriminate|].
    right. exists raw.
    exists (replacements_of a b (format_team_members (get_org_members w))
              (format_active_repos (get_org_repositories w 10)) l
              (format_org_languages (get_org_repositories w 10))
              (strftime_utc_label (datetime_now (clock w) None))).
    split; [reflexivity|]. split; [apply replacements_markers|].
    symmetry. exact (Ok_inj _ _ H).
Qed.

Lemma update_readme_missing (w : World) :
  readme w = None ->
  update_readme w = Ok (false, None) \/ exists e, update_readme w = Raise e.
Proof.
  intros Hr.
  destruct (format_repository_activity (clock w) (get_org_repositories w 10))
    as [a|e] eqn:Ha;
    [|right; exists e; unfold update_readme; now rewrite Ha].
  destruct (format_build_status w (get_org_repositories w 10)) as [b|e] eqn:Hb;
    [|right; exists e; unfold update_readme; rewrite Ha; cbn [bind];
      now rewrite Hb].
  destruct (format_latest_releases w (get_org_repositories w 10)) as [l|e] eqn:Hl;
    [|right; exists e; unfold update_readme; rewrite Ha; cbn [bind]; rewrite Hb;
      cbn [bind]; now rewrite Hl].
  rewrite (update_readme_formatted w a b l Ha Hb Hl).
  unfold readme in Hr.
  destruct (document w) as [|e|raw e|raw e|raw]; [now left|right; now eexists| | |].
  - destruct (has_surrogate raw); right; now eexists.
  - destruct (has_surrogate raw); [right; now eexists|].
    destruct (has_surrogate (apply_replacements _ _)); right; now eexists.
  - destruct (has_surrogate raw); [right; now eexists|discriminate].
Qed.

Lemma format_build_status_nil (w : World) :
  format_build_status w [] = Ok (L "No recent builds found.").
Proof. reflexivity. Qed.

Lemma format_latest_releases_nil (w : World) :
  format_latest_releases w [] = Ok (L "No recent releases found.").
Proof. reflexivity. Qed.

(** A failed fetch of the repositories: every formatter falls back, and
    no formatter raises. *)
Lemma update_readme_no_repos (w : World) :
  get_org_repositories w 10 = [] ->
  update_readme w =
  match document w with
  | Missing => Ok (false, None)
  | Unreadable e => Raise e
  | ReadOnly raw e => if has_surrogate raw then Raise UnicodeDecodeError else Raise e
  | Unwritable raw e =>
      if has_surrogate raw then Raise UnicodeDecodeError
      else if has_surrogate
                (apply_replacements
                   (replacements_of
                      (L "No recent activity found.")
                      (L "No recent builds found.")
                      (format_team_members (get_org_members w))
                      (L "No repositories found.")
                      (L "No recent releases found.")
                      (L "No language data available.")
                      (strftime_utc_label (datetime_now (clock w) None)))
                   (read_text raw))
      then Raise UnicodeEncodeError
      else Raise e
  | Text raw =>
      if has_surrogate raw then Raise UnicodeDecodeError
      else if has_surrogate
                (apply_replacements
                   (replacements_of
                      (L "No recent activity found.")
                      (L "No recent builds found.")
                      (format_team_members (get_org_members w))
                      (L "No repositories found.")
                      (L "No recent releases found.")
                      (L "No language data available.")
                      (strftime_utc_label (datetime_now (clock w) None)))
                   (read_text raw))
      then Raise UnicodeEncodeError
      else Ok (true,
               Some (write_text (linesep w)
                       (apply_replacements
                          (replacements_of
                             (L "No recent activity found.")
                             (L "No recent builds found.")
                             (format_team_members (get_org_members w))
                             (L "No repositories found.")
                             (L "No recent releases found.")
                             (L "No language data available.")
                             (strftime_utc_label (datetime_now (clock w) None)))
                          (read_text raw))))
  end.
Proof.
  intros H.
  rewrite (update_readme_formatted w (L "No recent activity found.")
             (L "No recent builds found.") (L "No recent releases found."));
    rewrite H; reflexivity.
Qed.

Lemma get_org_repositories_failed (w : World) (limit : Z) :
  status_code (http_org_repos w limit) <> 200 ->
  get_org_repositories w limit = [].
Proof.
  intros H. unfold get_org_repositories.
  apply Z.eqb_neq in H. now rewrite H.
Qed.

(** C2 (the code departs from the claim).  On a machine one hour east of
    UTC, at 12:30:45 UTC, the updater replaces the timestamp marker, in
    place, with the local wall-clock time 13:30:45 followed by the text
    [UTC]; the current UTC time is 12:30:45. *)
Theorem C2_timestamp_is_local_time :
  update_readme (offline clock_cet (Some doc_timestamp))
  = Ok (true, Some (L "Last updated: 2024-01-15 13:30:45 UTC"))
  /\ utc_timestamp clock_cet = L "2024-01-15 12:30:45 UTC"
  /\ update_readme (offline clock_utc (Some doc_timestamp))
     = Ok (true, Some (L "Last updated: 2024-01-15 12:30:45 UTC")).
Proof. repeat split; vm_compute; reflexivity. Qed.

(** The timestamp written is the UTC one exactly when the machine's zone
    has offset zero. *)
Lemma local_timestamp_is_utc (c : Clock) :
  local_offset_us c = 0 ->
  strftime_utc_label (datetime_now c None) = utc_timestamp c.
Proof.
  intros H. unfold utc_timestamp, datetime_now. rewrite H, Z.add_0_r.
  reflexivity.
Qed.

(** C3, as stated, fails: with the timestamp marker twice in the document,
    both occurrences are replaced, where replacing the first occurrence
    only would leave the second marker in place. *)
Lemma C3_counterexample :
  update_readme (offline clock_utc (Some doc_two_timestamps))
  = Ok (true, Some (L "2024-01-15 12:30:45 UTC / 2024-01-15 12:30:45 UTC"))
  /\ replace_marker doc_two_timestamps LAST_UPDATED (L "2024-01-15 12:30:45 UTC")
     = L "2024-01-15 12:30:45 UTC / 2024-01-15 12:30:45 UTC"
  /\ replace_first doc_two_timestamps LAST_UPDATED (L "2024-01-15 12:30:45 UTC")
     = L "2024-01-15 12:30:45 UTC / <!-- LAST_UPDATED -->"
  /\ replace_marker doc_two_timestamps LAST_UPDATED (L "2024-01-15 12:30:45 UTC")
     <> replace_first doc_two_timestamps LAST_UPDATED (L "2024-01-15 12:30:45 UTC").
Proof.
  repeat split; try (vm_compute; reflexivity).
  vm_compute. discriminate.
Qed.

(** C3, amended.  A marker is matched as a literal run of characters: it is
    found exactly when the content is some text, the marker, and some more
    text, and the index used is the least one where it occurs.  A marker
    that is absent leaves the content unchanged.  For a paired marker the
    first occurrence of the start marker and the first occurrence of the
    end marker delimit what is replaced, and nothing is replaced when the
    end marker is absent.  For the timestamp marker every occurrence, from
    left to right, is replaced.  The six section markers are paired and the
    timestamp marker is not. *)
Theorem C3_marker_matching (content marker replacement : str) :
  (contains content marker = true
   <-> exists pre post, content = pre ++ marker ++ post)
  /\ (forall i, index_of content marker = Some i ->
      find content marker = Z.of_nat i
      /\ occurs_at content marker i
      /\ forall k, (k < i)%nat -> ~ occurs_at content marker k)
  /\ (contains content marker = false ->
      replace_marker content marker replacement = content)
  /\ (endswith marker (L "START -->") = true ->
      (forall i j,
          index_of content marker = Some i ->
          index_of content (end_marker_of marker) = Some j ->
          replace_marker content marker replacement
          = firstn (i + length marker) content ++ nl ++ replacement ++ nl
            ++ skipn j content)
      /\ (index_of content (end_marker_of marker) = None ->
          replace_marker content marker replacement = content))
  /\ (endswith marker (L "START -->") = false -> marker <> [] ->
      replaced_all marker replacement content
                   (replace_marker content marker replacement))
  /\ Forall (fun m => endswith m (L "START -->") = true)
            [RECENT_ACTIVITY; BUILD_STATUS; TEAM_MEMBERS; ACTIVE_REPOS;
             LATEST_RELEASES; ORG_LANGUAGES]
  /\ endswith LAST_UPDATED (L "START -->") = false.
Proof.
  split; [apply contains_iff|].
  split.
  { intros i Hi. split; [apply (find_Some _ _ _ Hi)|].
    apply index_of_occurs. exact Hi. }
  split; [apply replace_marker_absent|].
  split.
  { intros Hp. split.
    - intros i j Hi Hj. now apply replace_marker_paired.
    - intros Hj. now apply replace_marker_no_end. }
  split.
  { intros Hp Hne. destruct (contains content marker) eqn:Hc.
    - rewrite (replace_marker_single _ _ _ Hp Hc). now apply replace_all.
    - rewrite (replace_marker_absent _ _ _ Hc).
      apply replaced_none. now apply contains_false. }
  split; [|reflexivity].
  repeat constructor.
Qed.

(** C8, as stated, fails, in three ways.  (1) When the end marker comes
    before the start marker, the document is written twice around the
    fragment.  (2) A document without any marker but with [\r\n] line
    endings is rewritten with [\n] line endings.  (3) When a fetched
    description holds the text of a start marker that the document lacks,
    the inserted activity fragment makes that marker present, and the next
    step removes text that lies outside every section of the document. *)
Lemma C8_counterexample :
  update_readme (offline clock_utc (Some doc_end_before_start))
  = Ok (true,
        Some (doc_end_before_start ++ nl ++ L "No language data available."
              ++ nl ++ doc_end_before_start))
  /\ (Forall (fun m => contains doc_crlf m = false) all_markers
      /\ update_readme (offline clock_utc (Some doc_crlf))
         = Ok (true, Some (L "line 1" ++ nl ++ L "line 2"))
      /\ doc_crlf <> L "line 1" ++ nl ++ L "line 2")
  /\ (contains doc_activity_and_footer BUILD_STATUS = false
      /\ update_readme
           (online clock_utc [repo_api (JStr BUILD_STATUS) (JStr (L "Python"))]
                   [] (Some doc_activity_and_footer))
         = Ok (true,
               Some (RECENT_ACTIVITY ++ nl ++ [0x1F525%N]
                     ++ L " **[api](https://github.com/Care-Alarm/api)** (Python) - "
                     ++ BUILD_STATUS ++ nl ++ L "No recent builds found." ++ nl
                     ++ L "<!-- BUILD_STATUS:END -->"))).
Proof.
  split; [vm_compute; reflexivity|]. split; [split; [|split]|split].
  - repeat constructor.
  - vm_compute; reflexivity.
  - vm_compute. discriminate.
  - vm_compute; reflexivity.
  - vm_compute; reflexivity.
Qed.

(** C8, amended.  Each replacement step acts on the content left by the
    steps before it.  A step whose marker does not occur there, or whose
    end marker does not occur there, leaves the content unchanged.  A
    paired step whose start marker ends at or before its end marker keeps
    the text up to and including the start marker and the text from the end
    marker on, and puts the fragment, between two newlines, in place of the
    text strictly between them.  The timestamp step changes occurrences of
    its marker only.  The file written is the text read, with the seven
    steps applied in the order of the dictionary.  A document with [\n] line endings that contains none
    of the seven markers, on a system whose line separator is [\n], is
    written back unchanged whenever the update completes, and the update
    does complete when the fetch of the repositories fails. *)
Theorem C8_frame (content marker replacement : str) :
  (contains content marker = false ->
   replace_marker content marker replacement = content)
  /\ (endswith marker (L "START -->") = true ->
      index_of content (end_marker_of marker) = None ->
      replace_marker content marker replacement = content)
  /\ (endswith marker (L "START -->") = true ->
      forall i j,
        index_of content marker = Some i ->
        index_of content (end_marker_of marker) = Some j ->
        (i + length marker <= j)%nat ->
        exists pre old post,
          pre = firstn i content ++ marker
          /\ old = firstn (j - (i + length marker))
                          (skipn (i + length marker) content)
          /\ post = end_marker_of marker
                    ++ skipn (j + length (end_marker_of marker)) content
          /\ content = pre ++ old ++ post
          /\ replace_marker content marker replacement
             = pre ++ (nl ++ replacement ++ nl) ++ post)
  /\ (endswith marker (L "START -->") = false -> marker <> [] ->
      replaced_all marker replacement content
                   (replace_marker content marker replacement))
  /\ (forall (w : World) (r : bool * option str),
        update_readme w = Ok r ->
        (readme w = None /\ r = (false, None))
        \/ exists raw replacements,
             readme w = Some raw
             /\ map fst replacements = all_markers
             /\ r = (true,
                     Some (write_text (linesep w)
                             (fold_left
                                (fun content item =>
                                   replace_marker content (fst item) (snd item))
                                replacements (read_text raw)))))
  /\ (forall (w : World) (raw : str),
        readme w = Some raw ->
        (forall c, In c raw -> c <> 13%N) ->
        linesep w = nl ->
        (forall m, In m all_markers -> contains raw m = false) ->
        (forall r, update_readme w = Ok r -> r = (true, Some raw))
        /\ (status_code (http_org_repos w 10) <> 200 ->
            update_readme w = Ok (true, Some raw))).
Proof.
  split; [apply replace_marker_absent|].
  split; [apply replace_marker_no_end|].
  split.
  { intros Hp i j Hi Hj Hord.
    destruct (splice_parts content marker replacement i j Hp Hi Hj)
      as (Hout & Hin).
    eexists; eexists; eexists.
    split; [reflexivity|]. split; [reflexivity|]. split; [reflexivity|].
    split.
    - rewrite <- !app_assoc. apply Hin. exact Hord.
    - rewrite Hout, <- !app_assoc. reflexivity. }
  split.
  { intros Hp Hne. destruct (contains content marker) eqn:Hc.
    - rewrite (replace_marker_single _ _ _ Hp Hc). now apply replace_all.
    - rewrite (replace_marker_absent _ _ _ Hc).
      apply replaced_none. now apply contains_false. }
  split; [exact update_readme_Ok_inv|].
  intros w raw Hraw Hcr Hsep Habs.
  assert (Hsame : forall replacements,
             map fst replacements = all_markers ->
             apply_replacements replacements (read_text raw) = raw).
  { intros reps Hreps. rewrite (read_text_no_cr _ Hcr).
    apply apply_replacements_absent. intros item Hitem. apply Habs.
    rewrite <- Hreps. now apply in_map. }
  assert (Hfix : forall replacements,
             map fst replacements = all_markers ->
             write_text (linesep w)
                        (apply_replacements replacements (read_text raw)) = raw).
  { intros reps Hreps. rewrite (Hsame _ Hreps), Hsep. apply write_text_nl. }
  split.
  - intros r Hr. destruct (update_readme_Ok_inv _ _ Hr)
      as [[Hnone _]|(raw' & reps & Hraw' & Hreps & ->)]; [congruence|].
    assert (raw' = raw) by congruence. subst raw'.
    rewrite (Hfix _ Hreps). reflexivity.
  - intros Hst.
    rewrite (update_readme_no_repos _ (get_org_repositories_failed _ _ Hst)).
    apply readme_Some in Hraw as [Hdoc Hsur]. rewrite Hdoc, Hsur.
    rewrite (Hsame _ (replacements_markers _ _ _ _ _ _ _)), Hsur.
    rewrite Hsep, write_text_nl. reflexivity.
Qed.

(** ** Claims about the exit status *)

(** C9, as stated, fails: the document exists and the exit status is 1.
    (1) A fetched repository has a [null] description, slicing it raises
    [TypeError], and nothing catches it.  (2) README.md is a directory:
    [open] raises [IsADirectoryError], which is not caught.  (3) README.md
    holds a byte that is not UTF-8: [read] raises [UnicodeDecodeError].
    (4) README.md may be read and not written: the second [open] raises
    [PermissionError]. *)
Lemma C9_counterexample :
  (readme (online clock_utc [repo_api JNull (JStr (L "Python"))] []
                  (Some doc_timestamp))
   = Some doc_timestamp
   /\ update_readme (online clock_utc [repo_api JNull (JStr (L "Python"))] []
                            (Some doc_timestamp))
      = Raise TypeError
   /\ main (online clock_utc [repo_api JNull (JStr (L "Python"))] []
                   (Some doc_timestamp))
      = 1)
  /\ (update_readme (with_document (Unreadable IsADirectoryError)
                                   (offline clock_utc None))
      = Raise IsADirectoryError
      /\ main (with_document (Unreadable IsADirectoryError)
                             (offline clock_utc None)) = 1)
  /\ (update_readme (with_document (Text (L "caf" ++ [0xDCE9%N]))
                                   (offline clock_utc None))
      = Raise UnicodeDecodeError
      /\ main (with_document (Text (L "caf" ++ [0xDCE9%N]))
                             (offline clock_utc None)) = 1)
  /\ (update_readme (with_document (ReadOnly doc_timestamp PermissionError)
                                   (offline clock_utc None))
      = Raise PermissionError
      /\ main (with_document (ReadOnly doc_timestamp PermissionError)
                             (offline clock_utc None)) = 1).
Proof. repeat split; vm_compute; reflexivity. Qed.

Lemma main_cases (w : World) :
  (main w = 0 /\ exists raw file,
      readme w = Some raw /\ update_readme w = Ok (true, Some file))
  \/ (main w = 1 /\ update_readme w = Ok (false, None) /\ document w = Missing)
  \/ (main w = 1 /\ exists e, update_readme w = Raise e).
Proof.
  unfold main. destruct (update_readme w) as [[[|] file]|e] eqn:E.
  - left. split; [reflexivity|].
    destruct (update_readme_Ok_inv _ _ E)
      as [[_ Hr]|(raw & reps & Hraw & _ & Hr)]; [discriminate|].
    exists raw. eexists. split; [exact Hraw|]. rewrite Hr. reflexivity.
  - right. left. split; [reflexivity|].
    destruct (update_readme_Ok_inv _ _ E)
      as [[_ Hr]|(raw & reps & _ & _ & Hr)]; [|discriminate].
    rewrite Hr. split; [reflexivity|].
    destruct (format_repository_activity (clock w) (get_org_repositories w 10))
      as [a|e] eqn:Ha;
      [|unfold update_readme in E; rewrite Ha in E; discriminate].
    destruct (format_build_status w (get_org_repositories w 10)) as [b|e] eqn:Hb;
      [|unfold update_readme in E; rewrite Ha in E; cbn [bind] in E;
        rewrite Hb in E; discriminate].
    destruct (format_latest_releases w (get_org_repositories w 10))
      as [l|e] eqn:Hl;
      [|unfold update_readme in E; rewrite Ha in E; cbn [bind] in E;
        rewrite Hb in E; cbn [bind] in E; rewrite Hl in E; discriminate].
    rewrite (update_readme_formatted w a b l Ha Hb Hl) in E.
    destruct (document w) as [|e|raw e|raw e|raw]; try discriminate;
      [reflexivity| | |].
    + destruct (has_surrogate raw); discriminate.
    + destruct (has_surrogate raw); [discriminate|].
      destruct (has_surrogate (apply_replacements _ _)); discriminate.
    + destruct (has_surrogate raw); [discriminate|].
      destruct (has_surrogate (apply_replacements _ _)); [discriminate|].
      apply Ok_inj in E. discriminate.
  - right. right. split; [reflexivity|]. now exists e.
Qed.

(** C9, amended.  The exit status is 0 or 1.  It is 0 exactly when the
    document has been read and rewritten.  It is 1 when the update returns
    [False], which it does only when README.md does not exist, and when an
    exception escapes the update: from a formatter, or from README.md,
    whose opening, reading or writing raises anything but the
    [FileNotFoundError] of the first [open], which holds bytes that are not
    UTF-8, or which is to be written with a surrogate that a fetched
    string brought.  A fetch that fails with a status other than 200
    raises nothing: when the fetch of the repositories fails, the three
    formatters that can raise return their fallback sentences, every
    exception that escapes comes from README.md, and the status is 1
    exactly when README.md does not exist or cannot be read or written. *)
Theorem C9_exit_status (w : World) :
  (main w = 0 \/ main w = 1)
  /\ (main w = 1
      <-> update_readme w = Ok (false, None) \/ exists e, update_readme w = Raise e)
  /\ (main w = 1 <-> readme w = None \/ exists e, update_readme w = Raise e)
  /\ (main w = 0 <->
      exists raw file, readme w = Some raw
                       /\ update_readme w = Ok (true, Some file))
  /\ (update_readme w = Ok (false, None) -> document w = Missing)
  /\ (document w = Missing -> main w = 1)
  /\ (forall a b l,
        format_repository_activity (clock w) (get_org_repositories w 10) = Ok a ->
        format_build_status w (get_org_repositories w 10) = Ok b ->
        format_latest_releases w (get_org_repositories w 10) = Ok l ->
        (document w = Missing -> update_readme w = Ok (false, None))
        /\ (forall e, document w = Unreadable e -> update_readme w = Raise e)
        /\ (forall raw e,
              document w = ReadOnly raw e ->
              update_readme w
              = Raise (if has_surrogate raw then UnicodeDecodeError else e))
        /\ (forall raw e,
              document w = Unwritable raw e ->
              update_readme w = Raise UnicodeDecodeError
              \/ update_readme w = Raise UnicodeEncodeError
              \/ update_readme w = Raise e)
        /\ (forall raw, document w = Text raw -> has_surrogate raw = true ->
                        update_readme w = Raise UnicodeDecodeError)
        /\ (forall raw, document w = Text raw -> has_surrogate raw = false ->
                        update_readme w = Raise UnicodeEncodeError
                        \/ exists file, update_readme w = Ok (true, Some file)))
  /\ (status_code (http_org_repos w 10) <> 200 ->
      format_repository_activity (clock w) (get_org_repositories w 10)
      = Ok (L "No recent activity found.")
      /\ format_build_status w (get_org_repositories w 10)
         = Ok (L "No recent builds found.")
      /\ format_latest_releases w (get_org_repositories w 10)
         = Ok (L "No recent releases found.")
      /\ (forall e, update_readme w = Raise e ->
                    e = UnicodeDecodeError \/ e = UnicodeEncodeError
                    \/ document w = Unreadable e
                    \/ (exists raw, document w = ReadOnly raw e)
                    \/ (exists raw, document w = Unwritable raw e))
      /\ (main w = 1
          <-> readme w = None \/ update_readme w = Raise UnicodeEncodeError)).
Proof.
  pose proof (main_cases w) as Hcases.
  assert (Hnone : readme w = None -> main w = 1).
  { intros Hnone. unfold main.
    destruct (update_readme_missing _ Hnone) as [->|[e ->]]; reflexivity. }
  split.
  { destruct Hcases as [[-> _]|[[-> _]|[-> _]]]; [now left|now right|now right]. }
  split.
  { split.
    - destruct Hcases as [[H0 _]|[(_ & H & _)|[_ H]]];
        [rewrite H0; discriminate|now left|now right].
    - intros [H|[e H]]; unfold main; rewrite H; reflexivity. }
  split.
  { split.
    - destruct Hcases as [[H0 _]|[(_ & _ & H)|[_ H]]];
        [rewrite H0; discriminate| |now right].
      intros _. left. unfold readme. now rewrite H.
    - intros [H|[e H]]; [now apply Hnone|]. unfold main. rewrite H. reflexivity. }
  split.
  { split.
    - destruct Hcases as [[_ H]|[[H1 _]|[H1 _]]];
        [now intros _|rewrite H1; discriminate|rewrite H1; discriminate].
    - intros (raw & file & _ & E). unfold main. rewrite E. reflexivity. }
  split.
  { intros E. destruct Hcases as [(_ & raw & file & _ & E')|[(_ & _ & H)|[_ [e E']]]];
      [rewrite E in E'; apply Ok_inj in E'; discriminate|exact H|
       rewrite E in E'; discriminate]. }
  split.
  { intros H. apply Hnone. unfold readme. now rewrite H. }
  split.
  { intros a b l Ha Hb Hl.
    rewrite (update_readme_formatted w a b l Ha Hb Hl).
    split; [now intros ->|]. split; [now intros e ->|].
    split; [intros raw e ->; now destruct (has_surrogate raw)|].
    split.
    { intros raw e ->. destruct (has_surrogate raw); [now left|].
      destruct (has_surrogate (apply_replacements _ _));
        [right; now left|right; now right]. }
    split.
    - intros raw -> Hs. now rewrite Hs.
    - intros raw -> Hs. rewrite Hs.
      destruct (has_surrogate (apply_replacements _ _));
        [now left|right; eexists; reflexivity]. }
  intros Hst.
  pose proof (get_org_repositories_failed _ _ Hst) as Hrepos.
  pose proof (update_readme_no_repos _ Hrepos) as E.
  rewrite Hrepos.
  split; [reflexivity|]. split; [reflexivity|]. split; [reflexivity|].
  split.
  { intros e He. rewrite E in He.
    destruct (document w) as [|e'|raw e'|raw e'|raw]; [discriminate| | | |].
    - right; right; left. congruence.
    - destruct (has_surrogate raw); [left; congruence|].
      right; right; right; left. exists raw. congruence.
    - destruct (has_surrogate raw); [left; congruence|].
      destruct (has_surrogate (apply_replacements _ _));
        [right; left; congruence|].
      right; right; right; right. exists raw. congruence.
    - destruct (has_surrogate raw); [left; congruence|].
      destruct (has_surrogate (apply_replacements _ _));
        [right; left; congruence|discriminate]. }
  unfold main, readme. rewrite E.
  destruct (document w) as [|e'|raw e'|raw e'|raw].
  - split; [now left|reflexivity].
  - split; [now left|reflexivity].
  - destruct (has_surrogate raw); split; (now left) || reflexivity.
  - destruct (has_surrogate raw); [split; (now left) || reflexivity|].
    destruct (has_surrogate (apply_replacements _ _));
      split; (now left) || reflexivity.
  - destruct (has_surrogate raw); [split; [now left|reflexivity]|].
    destruct (has_surrogate (apply_replacements _ _)).
    + split; [now right|reflexivity].
    + split; [discriminate|]. intros [H|H]; discriminate.
Qed.

(** ** Claims about the formatters *)

(** The day difference is computed for every timestamp: the whole days,
    rounded down, between the instant of the timestamp and now. *)
Lemma days_since_total (c : Clock) (d : datetime) :
  days_since c d
  = Ok ((now_us c
         - (wall d - match tzinfo d with
                     | Some off => off
                     | None => local_offset_us c
                     end)) / us_per_day).
Proof.
  unfold days_since, datetime_sub, datetime_now, timedelta_days.
  destruct d as [wd [off|]]; cbn [tzinfo wall bind]; f_equal; f_equal; lia.
Qed.

(** X2.  For every timestamp, aware or naive, the day difference is
    computed without raising, and it is the number of whole days in the
    time elapsed from the instant of the timestamp to now, rounded down. *)
Theorem day_difference_floor (c : Clock) (d : datetime) :
  exists days,
    days_since c d = Ok days
    /\ days * us_per_day
       <= now_us c - (wall d - match tzinfo d with
                                | Some off => off
                                | None => local_offset_us c
                                end)
       < (days + 1) * us_per_day.
Proof.
  eexists. split; [apply days_since_total|].
  unfold us_per_day, us_per_second. zdiv.
Qed.

Lemma rendered_description_long (description : str) :
  80 < len description ->
  rendered_description description = firstn 80 description ++ L "..."
  /\ length (firstn 80 description) = 80%nat.
Proof.
  intros H. unfold rendered_description, slice_to.
  apply Z.ltb_lt in H as Hb. rewrite Hb.
  change 80 with (Z.of_nat 80) at 1. rewrite clip_of_nat. split; [reflexivity|].
  apply firstn_length_le. unfold len in H. lia.
Qed.

Lemma rendered_description_short (description : str) :
  len description <= 80 ->
  rendered_description description = description.
Proof.
  intros H. unfold rendered_description, slice_to.
  assert (Hb : (80 <? len description) = false) by (apply Z.ltb_ge; exact H).
  rewrite Hb, app_nil_r.
  change 80 with (Z.of_nat 80) at 1. rewrite clip_of_nat.
  apply firstn_all2. unfold len in H. lia.
Qed.

(** C5.  For a repository whose description is a string and whose
    timestamp is read, the activity formatter returns an entry in which the
    description field is the first 80 characters followed by [...] when the
    description has more than 80 characters, and the description itself
    when it has 80 or fewer; the rest of the entry does not depend on the
    description.  The same entry is the formatter's whole output for the
    list holding that repository alone. *)
Theorem C5_description_truncation
        (c : Clock) (repo : Repo) (description : str) (d : datetime) :
  repo_description repo = JStr description ->
  fromisoformat (replace (repo_updated_at repo) (L "Z") (L "+00:00")) = Ok d ->
  exists days shown,
    days_since c d = Ok days
    /\ activity_entry c repo
       = Ok (activity_emoji days ++ L " **[" ++ repo_name repo ++ L "]("
             ++ repo_html_url repo ++ L ")** "
             ++ L "(" ++ format_value (get_default (repo_language repo) (L "Unknown"))
             ++ L ") - "
             ++ shown
             ++ nl
             ++ L "   " ++ [0x2B50%N] ++ L " "
             ++ str_of_int (repo_stargazers_count repo) ++ L " stars "
             ++ [0x2022%N] ++ L " Updated " ++ activity_time_str days)
    /\ format_repository_activity c [repo] = activity_entry c repo
    /\ (80 < len description ->
        shown = firstn 80 description ++ L "..."
        /\ length (firstn 80 description) = 80%nat)
    /\ (len description <= 80 -> shown = description).
Proof.
  intros Hdesc Hd.
  exists ((now_us c
           - (wall d - match tzinfo d with
                       | Some off => off
                       | None => local_offset_us c
                       end)) / us_per_day).
  exists (rendered_description description).
  split; [apply days_since_total|].
  assert (Hentry : activity_entry c repo
       = Ok (activity_emoji ((now_us c
           - (wall d - match tzinfo d with
                       | Some off => off
                       | None => local_offset_us c
                       end)) / us_per_day) ++ L " **[" ++ repo_name repo ++ L "]("
             ++ repo_html_url repo ++ L ")** "
             ++ L "(" ++ format_value (get_default (repo_language repo) (L "Unknown"))
             ++ L ") - "
             ++ rendered_description description
             ++ nl
             ++ L "   " ++ [0x2B50%N] ++ L " "
             ++ str_of_int (repo_stargazers_count repo) ++ L " stars "
             ++ [0x2022%N] ++ L " Updated " ++ activity_time_str ((now_us c
           - (wall d - match tzinfo d with
                       | Some off => off
                       | None => local_offset_us c
                       end)) / us_per_day))).
  { unfold activity_entry. rewrite Hd. cbn [bind].
    rewrite days_since_total. cbn [bind].
    rewrite Hdesc. cbn [get_default]. reflexivity. }
  split; [exact Hentry|]. split.
  - unfold format_repository_activity. cbn [firstn for_each].
    rewrite Hentry. cbn [bind join]. reflexivity.
  - split; [apply rendered_description_long|apply rendered_description_short].
Qed.

(** C7.  On the empty list of repositories each of the five formatters
    returns, without raising, its own fixed sentence, and none of the
    sentences is the empty string. *)
Theorem C7_empty_fallbacks (w : World) :
  format_repository_activity (clock w) [] = Ok (L "No recent activity found.")
  /\ format_build_status w [] = Ok (L "No recent builds found.")
  /\ format_active_repos [] = L "No repositories found."
  /\ format_latest_releases w [] = Ok (L "No recent releases found.")
  /\ format_org_languages [] = L "No language data available."
  /\ Forall (fun sentence : str => sentence <> [])
            [L "No recent activity found."; L "No recent builds found.";
             L "No repositories found."; L "No recent releases found.";
             L "No language data available."].
Proof.
  repeat split; try reflexivity.
  repeat constructor; discriminate.
Qed.

(** ** Sorting in descending order *)

Section SortingFacts.

Variable A : Type.
Variable ltb : A -> A -> bool.
Hypothesis ltb_asym : forall x y, ltb x y = true -> ltb y x = false.
Hypothesis ltb_ntrans :
  forall x y z, ltb x y = false -> ltb y z = false -> ltb x z = false.

Lemma insert_desc_perm (x : A) (l : list A) :
  Permutation (x :: l) (insert_desc ltb x l).
Proof.
  induction l as [|y l IH]; simpl; [reflexivity|].
  destruct (ltb x y); [|reflexivity].
  rewrite perm_swap. now apply perm_skip.
Qed.

Lemma sort_desc_perm (l : list A) : Permutation l (sort_desc ltb l).
Proof.
  induction l as [|x l IH]; simpl; [reflexivity|].
  rewrite <- insert_desc_perm. now apply perm_skip.
Qed.

Lemma insert_desc_sorted (x : A) (l : list A) :
  StronglySorted (not_below ltb) l -> StronglySorted (not_below ltb) (insert_desc ltb x l).
Proof.
  induction 1 as [|y l Hs IH Hy]; simpl.
  - repeat constructor.
  - destruct (ltb x y) eqn:E.
    + constructor; [exact IH|].
      apply (Permutation_Forall (insert_desc_perm x l)).
      constructor; [|exact Hy]. now apply ltb_asym.
    + constructor; [now constructor|].
      constructor; [exact E|].
      apply (Forall_impl (P := not_below ltb y)); [|exact Hy].
      intros z Hz. now apply (ltb_ntrans x y z).
Qed.

Lemma sort_desc_sorted (l : list A) : StronglySorted (not_below ltb) (sort_desc ltb l).
Proof.
  induction l as [|x l IH]; simpl; [constructor|].
  now apply insert_desc_sorted.
Qed.

Lemma firstn_sorted (n : nat) (l : list A) :
  StronglySorted (not_below ltb) l -> StronglySorted (not_below ltb) (firstn n l).
Proof.
  intros H. revert n. induction H as [|y l Hs IH Hy]; intros [|n]; simpl;
    try constructor.
  - apply IH.
  - apply (incl_Forall (l1 := l)); [|exact Hy].
    intros z Hz. apply (In_nth_error) in Hz as [k Hk].
    rewrite nth_error_firstn in Hk. destruct (k <? n)%nat; [|discriminate].
    now apply nth_error_In in Hk.
Qed.

(** Elements of equal keys stay in their input order. *)
Lemma insert_desc_stable (z x : A) (l : list A) :
  filter (same_key ltb z) (insert_desc ltb x l) = filter (same_key ltb z) (x :: l).
Proof.
  induction l as [|y l IH]; [reflexivity|].
  cbn [insert_desc]. destruct (ltb x y) eqn:E; [|reflexivity].
  cbn [filter] in *. rewrite IH.
  destruct (same_key ltb z x) eqn:Ezx; [|reflexivity].
  destruct (same_key ltb z y) eqn:Ezy; [|reflexivity].
  exfalso. unfold same_key in *.
  apply andb_true_iff in Ezx as [Hzx Hxz]. apply andb_true_iff in Ezy as [Hzy Hyz].
  apply negb_true_iff in Hzx, Hxz, Hzy, Hyz.
  rewrite (ltb_ntrans x z y Hxz Hzy) in E. discriminate.
Qed.

Lemma sort_desc_stable (z : A) (l : list A) :
  filter (same_key ltb z) (sort_desc ltb l) = filter (same_key ltb z) l.
Proof.
  induction l as [|x l IH]; [reflexivity|].
  cbn [sort_desc fold_right]. fold (sort_desc ltb l).
  rewrite insert_desc_stable. cbn [filter]. now rewrite IH.
Qed.

End SortingFacts.

(** ** The order of strings *)

Lemma str_compare_antisym (a b : str) :
  str_compare b a = CompOpp (str_compare a b).
Proof.
  revert b; induction a as [|x a IH]; intros [|y b]; simpl; try reflexivity.
  rewrite (N.compare_antisym x y).
  destruct (N.compare x y); simpl; [apply IH|reflexivity|reflexivity].
Qed.

Lemma str_compare_not_lt_trans (a b c : str) :
  str_compare a b <> Lt -> str_compare b c <> Lt -> str_compare a c <> Lt.
Proof.
  revert b c; induction a as [|x a IH]; intros [|y b] [|z c]; simpl;
    try congruence.
  destruct (N.compare x y) eqn:Exy; destruct (N.compare y z) eqn:Eyz;
    try congruence.
  - apply N.compare_eq in Exy, Eyz. subst. rewrite N.compare_refl. apply IH.
  - apply N.compare_eq in Exy. subst. rewrite Eyz. congruence.
  - apply N.compare_eq in Eyz. subst. rewrite Exy. congruence.
  - assert (E : N.compare x z = Gt).
    { rewrite N.compare_gt_iff in *. lia. }
    rewrite E. congruence.
Qed.

Lemma str_ltb_asym (a b : str) : str_ltb a b = true -> str_ltb b a = false.
Proof.
  unfold str_ltb. rewrite (str_compare_antisym a b).
  destruct (str_compare a b); simpl; congruence.
Qed.

Lemma str_ltb_ntrans (a b c : str) :
  str_ltb a b = false -> str_ltb b c = false -> str_ltb a c = false.
Proof.
  unfold str_ltb. intros Hab Hbc.
  assert (H : str_compare a c <> Lt).
  { apply (str_compare_not_lt_trans a b c).
    - destruct (str_compare a b); congruence.
    - destruct (str_compare b c); congruence. }
  destruct (str_compare a c); congruence.
Qed.

Lemma str_compare_eq (a b : str) : str_compare a b = Eq <-> a = b.
Proof.
  revert b; induction a as [|x a IH]; intros [|y b]; simpl;
    try (split; congruence).
  destruct (N.compare_spec x y) as [->|H|H].
  - rewrite IH. split; congruence.
  - split; [discriminate|]. intros E. injection E as -> _. lia.
  - split; [discriminate|]. intros E. injection E as -> _. lia.
Qed.

Lemma str_eqb_eq (a b : str) : str_eqb a b = true <-> a = b.
Proof.
  unfold str_eqb. rewrite <- str_compare_eq.
  destruct (str_compare a b); split; congruence.
Qed.

(** ** Timestamps of the API

    [published_at] is sorted as text and read as an instant; for the
    format of the API the two orders agree. *)

Lemma digit_digit_char (k : Z) : 0 <= k <= 9 -> digit (digit_char k) = Some k.
Proof.
  intros H. unfold digit, digit_char.
  assert (E1 : (48 <=? Z.to_N (48 + k))%N = true).
  { apply N.leb_le. apply N2Z.inj_le. rewrite Z2N.id by lia.
    change (Z.of_N 48) with 48. lia. }
  assert (E2 : (Z.to_N (48 + k) <=? 57)%N = true).
  { apply N.leb_le. apply N2Z.inj_le. rewrite Z2N.id by lia.
    change (Z.of_N 57) with 57. lia. }
  rewrite E1, E2. cbn [andb]. f_equal. rewrite Z2N.id; lia.
Qed.

Lemma digits_two (n : Z) (rest : str) :
  0 <= n <= 99 -> digits 2 0 (two_digits n ++ rest) = Some (n, rest).
Proof.
  intros H. unfold two_digits. cbn [digits app].
  rewrite !digit_digit_char by zdiv. f_equal. f_equal. zdiv.
Qed.

Lemma digits_four (n : Z) (rest : str) :
  0 <= n <= 9999 -> digits 4 0 (four_digits n ++ rest) = Some (n, rest).
Proof.
  intros H. unfold four_digits. cbn [digits app].
  rewrite !digit_digit_char by zdiv. f_equal. f_equal. zdiv.
Qed.

Lemma index_of_last (body : str) (c : N) :
  (forall x, In x body -> x <> c) ->
  index_of (body ++ [c]) [c] = Some (length body).
Proof.
  induction body as [|b body IH]; intros H.
  - simpl. now rewrite N.eqb_refl.
  - rewrite index_of_unfold. cbn [app startswith].
    assert (E : N.eqb c b = false).
    { apply N.eqb_neq. intros ->. apply (H b); [now left|reflexivity]. }
    rewrite E. cbn [andb]. rewrite IH; [reflexivity|].
    intros x Hx. apply H. now right.
Qed.

Lemma replace_last (body new : str) (c : N) :
  (forall x, In x body -> x <> c) ->
  replace (body ++ [c]) [c] new = body ++ new.
Proof.
  intros H. unfold replace. cbn [replace_rounds].
  rewrite (index_of_last body c H).
  rewrite firstn_app_left by lia. rewrite firstn_all.
  replace (length body + length [c])%nat with (length (body ++ [c]))
    by (rewrite length_app; reflexivity).
  rewrite skipn_all. destruct (length (body ++ [c])); simpl;
    now rewrite app_nil_r.
Qed.

Lemma digit_char_range (k : Z) :
  0 <= k <= 9 -> (48 <= digit_char k <= 57)%N.
Proof.
  intros H. unfold digit_char. split; apply N2Z.inj_le; rewrite Z2N.id by lia.
  - change (Z.of_N 48) with 48. lia.
  - change (Z.of_N 57) with 57. lia.
Qed.

Lemma digit_char_neq (k : Z) (c : N) :
  0 <= k <= 9 -> (c < 48 \/ 57 < c)%N -> N.eqb (digit_char k) c = false.
Proof.
  intros Hk Hc. apply N.eqb_neq. intros E.
  pose proof (digit_char_range k Hk) as R. rewrite E in R. lia.
Qed.

Lemma digit_char_ascii (k : Z) : 0 <= k <= 9 -> (digit_char k < 128)%N.
Proof. intros Hk. pose proof (digit_char_range k Hk). lia. Qed.

Lemma is_surrogate_ascii (c : N) : (c < 128)%N -> is_surrogate c = false.
Proof.
  intros H. unfold is_surrogate. apply andb_false_intro1. apply N.leb_gt. lia.
Qed.

Lemma existsb_surrogate_ascii (s : str) :
  Forall (fun c => (c < 128)%N) s -> existsb is_surrogate s = false.
Proof.
  induction 1 as [|c s Hc _ IH]; [reflexivity|].
  cbn [existsb]. now rewrite (is_surrogate_ascii c Hc), IH.
Qed.

Lemma nth_ascii (s : str) (i : nat) :
  Forall (fun c => (c < 128)%N) s -> (nth i s 0 < 128)%N.
Proof.
  intros H. revert i. induction H as [|c s Hc _ IH]; intros [|i]; cbn [nth];
    try lia; apply IH.
Qed.

(** A string of ASCII characters is read as it is. *)
Lemma sanitize_ascii (s : str) :
  Forall (fun c => (c < 128)%N) s -> sanitize_isoformat_str s = Some s.
Proof.
  intros H. unfold sanitize_isoformat_str.
  rewrite !(is_surrogate_ascii _ (nth_ascii s _ H)).
  now rewrite (existsb_surrogate_ascii s H).
Qed.

Lemma utf8_ascii (s : str) :
  Forall (fun c => (c < 128)%N) s -> utf8 s = s.
Proof.
  induction 1 as [|c s Hc _ IH]; [reflexivity|].
  unfold utf8 in *. cbn [flat_map]. rewrite IH. unfold utf8_char.
  apply N.ltb_lt in Hc. now rewrite Hc.
Qed.

Lemma digits_two_cons (n : Z) (rest : str) :
  0 <= n <= 99 ->
  digits 2 0 (digit_char (n / 10) :: digit_char (n mod 10) :: rest)
  = Some (n, rest).
Proof. intros H. exact (digits_two n rest H). Qed.

Lemma digits_four_cons (n : Z) (rest : str) :
  0 <= n <= 9999 ->
  digits 4 0 (digit_char (n / 1000) :: digit_char (n / 100 mod 10)
              :: digit_char (n / 10 mod 10) :: digit_char (n mod 10) :: rest)
  = Some (n, rest).
Proof. intros H. exact (digits_four n rest H). Qed.

Lemma parse_api_timestamp (t : civil) :
  valid_civil t ->
  fromisoformat (replace (api_timestamp t) (L "Z") (L "+00:00"))
  = Ok (mkDatetime (instant_of t) (Some 0)).
Proof.
  intros (Hy & Hm & Hd & Hh & Hmi & Hs).
  assert (Hdim : days_in_month (year t) (month t) <= 31).
  { unfold days_in_month. destruct (month t =? 2); [destruct (is_leap _); lia|].
    destruct (_ || _); lia. }
  unfold api_timestamp.
  change (L "-") with [45%N]. change (L "T") with [84%N].
  change (L ":") with [58%N]. change (L "Z") with [90%N].
  change (L "+00:00") with [43%N; 48%N; 48%N; 58%N; 48%N; 48%N].
  replace (four_digits (year t) ++ [45%N] ++ two_digits (month t) ++ [45%N]
          ++ two_digits (day t) ++ [84%N] ++ two_digits (hour t) ++ [58%N]
          ++ two_digits (minute t) ++ [58%N] ++ two_digits (second t) ++ [90%N])
    with ((four_digits (year t) ++ [45%N] ++ two_digits (month t) ++ [45%N]
          ++ two_digits (day t) ++ [84%N] ++ two_digits (hour t) ++ [58%N]
          ++ two_digits (minute t) ++ [58%N] ++ two_digits (second t)) ++ [90%N])
    by (rewrite <- !app_assoc; reflexivity).
  rewrite replace_last.
  2:{ intros x Hx. unfold four_digits, two_digits in Hx. cbn [app In] in Hx.
      intros ->.
      repeat match goal with
      | H : _ \/ _ |- _ => destruct H as [H|H]
      | H : False |- _ => destruct H
      | H : digit_char ?k = _ |- _ =>
          let R := fresh in
          assert (R : (48 <= digit_char k <= 57)%N) by (apply digit_char_range; zdiv);
          rewrite H in R; lia
      | H : _ = 90%N |- _ => discriminate H
      end. }
  unfold four_digits, two_digits. cbn [app].
  set (y3 := year t / 1000). set (y2 := year t / 100 mod 10).
  set (y1 := year t / 10 mod 10). set (y0 := year t mod 10).
  set (m1 := month t / 10). set (m0 := month t mod 10).
  set (d1 := day t / 10). set (d0 := day t mod 10).
  set (h1 := hour t / 10). set (h0 := hour t mod 10).
  set (i1 := minute t / 10). set (i0 := minute t mod 10).
  set (s1 := second t / 10). set (s0 := second t mod 10).
  assert (R : 0 <= y3 <= 9 /\ 0 <= y2 <= 9 /\ 0 <= y1 <= 9 /\ 0 <= y0 <= 9
              /\ 0 <= m1 <= 9 /\ 0 <= m0 <= 9 /\ 0 <= d1 <= 9 /\ 0 <= d0 <= 9
              /\ 0 <= h1 <= 9 /\ 0 <= h0 <= 9 /\ 0 <= i1 <= 9 /\ 0 <= i0 <= 9
              /\ 0 <= s1 <= 9 /\ 0 <= s0 <= 9).
  { subst y3 y2 y1 y0 m1 m0 d1 d0 h1 h0 i1 i0 s1 s0. repeat split; zdiv. }
  destruct R as (Ry3 & Ry2 & Ry1 & Ry0 & Rm1 & Rm0 & Rd1 & Rd0 & Rh1 & Rh0
                 & Ri1 & Ri0 & Rs1 & Rs0).
  set (s := [digit_char y3; digit_char y2; digit_char y1; digit_char y0; 45%N;
             digit_char m1; digit_char m0; 45%N; digit_char d1; digit_char d0;
             84%N; digit_char h1; digit_char h0; 58%N; digit_char i1;
             digit_char i0; 58%N; digit_char s1; digit_char s0; 43%N; 48%N;
             48%N; 58%N; 48%N; 48%N]).
  assert (Hascii : Forall (fun c => (c < 128)%N) s).
  { subst s. repeat constructor; try (now apply digit_char_ascii). }
  unfold fromisoformat, parse_iso.
  change (length s <? 7)%nat with false. cbv iota.
  rewrite (sanitize_ascii s Hascii). cbn [obind].
  rewrite (utf8_ascii s Hascii).
  assert (Hsep : find_isoformat_datetime_separator s = Some 10%nat).
  { unfold find_isoformat_datetime_separator.
    change (length s =? 7)%nat with false.
    change (byte_at s 4) with 45%N. change (byte_at s 5) with (digit_char m1).
    rewrite (digit_char_neq m1 87) by (try assumption; lia). reflexivity. }
  rewrite Hsep. cbn [obind].
  assert (Hdate : parse_isoformat_date s 10 = Some (year t, month t, day t)).
  { unfold parse_isoformat_date. subst s y3 y2 y1 y0.
    rewrite digits_four_cons by lia. cbn [obind head_byte tl].
    change (N.eqb 45 45) with true. cbv iota. cbn [head_byte tl].
    rewrite (digit_char_neq m1 87) by (try assumption; lia). cbv iota.
    subst m1 m0. rewrite digits_two_cons by lia. cbn [obind expect].
    change (N.eqb 45 45) with true. cbv iota. cbn [obind].
    subst d1 d0. rewrite digits_two_cons by lia. reflexivity. }
  rewrite Hdate. cbn [obind].
  change (10 <? length s)%nat with true. cbv iota.
  change (byte_at s 10) with 84%N.
  change (utf8_width 84) with 1%nat.
  change (skipn (10 + 1) s)
    with [digit_char h1; digit_char h0; 58%N; digit_char i1;
          digit_char i0; 58%N; digit_char s1; digit_char s0; 43%N; 48%N;
          48%N; 58%N; 48%N; 48%N].
  assert (Htime :
            parse_isoformat_time
              [digit_char h1; digit_char h0; 58%N; digit_char i1;
               digit_char i0; 58%N; digit_char s1; digit_char s0; 43%N; 48%N;
               48%N; 58%N; 48%N; 48%N]
            = Some ((hour t, minute t, second t, 0), Some 0)).
  { unfold parse_isoformat_time.
    assert (Hpos : tz_position
              [digit_char h1; digit_char h0; 58%N; digit_char i1;
               digit_char i0; 58%N; digit_char s1; digit_char s0; 43%N; 48%N;
               48%N; 58%N; 48%N; 48%N] = 8%nat).
    { cbn [tz_position].
      rewrite !digit_char_neq by (try assumption; lia). reflexivity. }
    rewrite Hpos.
    unfold parse_hh_mm_ss_ff. cbn [parse_fields].
    subst h1 h0. rewrite digits_two_cons by lia. cbn [obind head_byte tl app].
    change (8 <=? 3)%nat with false. change (N.eqb 58 58) with true.
    cbn [andb]. cbv iota.
    change (8 - 3)%nat with 5%nat.
    subst i1 i0. rewrite digits_two_cons by lia. cbn [obind head_byte tl app].
    change (5 <=? 3)%nat with false. change (N.eqb 58 58) with true.
    cbn [andb]. cbv iota.
    change (5 - 3)%nat with 2%nat.
    subst s1 s0. rewrite digits_two_cons by lia. cbn [obind head_byte tl app].
    change (2 <=? 3)%nat with true. cbv iota.
    cbn [nth skipn]. reflexivity. }
  rewrite Htime. cbn [obind].
  assert (Hcond : check_date_args (year t) (month t) (day t)
                  && check_time_args (hour t) (minute t) (second t) = true).
  { unfold check_date_args, check_time_args.
    repeat (apply andb_true_intro; split);
      first [apply Z.leb_le; lia | apply Z.ltb_lt; lia]. }
  rewrite Hcond.
  f_equal. f_equal.
  unfold instant_of, us_per_day. ring.
Qed.

Lemma str_compare_app (p q a b : str) :
  length p = length q ->
  str_compare (p ++ a) (q ++ b)
  = match str_compare p q with Eq => str_compare a b | c => c end.
Proof.
  revert q; induction p as [|x p IH]; intros [|y q] H; simpl in *;
    try discriminate; [reflexivity|].
  destruct (N.compare x y); [apply IH; lia|reflexivity|reflexivity].
Qed.

Lemma digit_char_compare (a b : Z) :
  0 <= a -> 0 <= b -> N.compare (digit_char a) (digit_char b) = Z.compare a b.
Proof.
  intros Ha Hb. unfold digit_char. rewrite Z2N.inj_compare by lia.
  apply Z.add_compare_mono_l.
Qed.

Lemma compare_eq_of (a b : Z) (c : comparison) :
  (c = Eq -> a = b) -> (c = Lt -> a < b) -> (c = Gt -> b < a) ->
  c = Z.compare a b.
Proof.
  intros HE HL HG. symmetry. destruct c.
  - apply Z.compare_eq_iff. auto.
  - apply Z.compare_lt_iff. auto.
  - apply Z.compare_gt_iff. auto.
Qed.

Lemma two_digits_compare (n n' : Z) :
  0 <= n <= 99 -> 0 <= n' <= 99 ->
  str_compare (two_digits n) (two_digits n') = Z.compare n n'.
Proof.
  intros H H'. unfold two_digits. cbn [str_compare].
  rewrite !digit_char_compare by zdiv.
  apply compare_eq_of;
    destruct (Z.compare_spec (n / 10) (n' / 10));
    destruct (Z.compare_spec (n mod 10) (n' mod 10));
    intros; try discriminate; zdiv.
Qed.

Lemma four_digits_compare (n n' : Z) :
  0 <= n <= 9999 -> 0 <= n' <= 9999 ->
  str_compare (four_digits n) (four_digits n') = Z.compare n n'.
Proof.
  intros H H'. unfold four_digits. cbn [str_compare].
  rewrite !digit_char_compare by zdiv.
  apply compare_eq_of;
    destruct (Z.compare_spec (n / 1000) (n' / 1000));
    destruct (Z.compare_spec (n / 100 mod 10) (n' / 100 mod 10));
    destruct (Z.compare_spec (n / 10 mod 10) (n' / 10 mod 10));
    destruct (Z.compare_spec (n mod 10) (n' mod 10));
    intros; try discriminate; zdiv.
Qed.

Lemma api_timestamp_compare (a b : civil) :
  valid_civil a -> valid_civil b ->
  str_compare (api_timestamp a) (api_timestamp b) = civil_compare a b.
Proof.
  intros (Hy & Hm & Hd & Hh & Hmi & Hs) (Hy' & Hm' & Hd' & Hh' & Hmi' & Hs').
  assert (Hdim : days_in_month (year a) (month a) <= 31).
  { unfold days_in_month. destruct (month a =? 2); [destruct (is_leap _); lia|].
    destruct (_ || _); lia. }
  assert (Hdim' : days_in_month (year b) (month b) <= 31).
  { unfold days_in_month. destruct (month b =? 2); [destruct (is_leap _); lia|].
    destruct (_ || _); lia. }
  unfold api_timestamp, civil_compare.
  change (L "-") with [45%N]. change (L "T") with [84%N].
  change (L ":") with [58%N]. change (L "Z") with [90%N].
  rewrite str_compare_app by reflexivity.
  rewrite four_digits_compare by lia.
  destruct (year a ?= year b); try reflexivity.
  cbn [app str_compare N.compare Pos.compare Pos.compare_cont].
  rewrite str_compare_app by reflexivity.
  rewrite two_digits_compare by lia.
  destruct (month a ?= month b); try reflexivity.
  cbn [app str_compare N.compare Pos.compare Pos.compare_cont].
  rewrite str_compare_app by reflexivity.
  rewrite two_digits_compare by lia.
  destruct (day a ?= day b); try reflexivity.
  cbn [app str_compare N.compare Pos.compare Pos.compare_cont].
  rewrite str_compare_app by reflexivity.
  rewrite two_digits_compare by lia.
  destruct (hour a ?= hour b); try reflexivity.
  cbn [app str_compare N.compare Pos.compare Pos.compare_cont].
  rewrite str_compare_app by reflexivity.
  rewrite two_digits_compare by lia.
  destruct (minute a ?= minute b); try reflexivity.
  cbn [app str_compare N.compare Pos.compare Pos.compare_cont].
  rewrite str_compare_app by reflexivity.
  rewrite two_digits_compare by lia.
  destruct (second a ?= second b); reflexivity.
Qed.

Lemma days_from_civil_day (y m d d' : Z) :
  d <= d' -> days_from_civil y m d <= days_from_civil y m d'.
Proof. unfold days_from_civil. intros. lia. Qed.

Lemma days_from_civil_month (y m m' d d' : Z) :
  1 <= m -> m < m' -> m' <= 12 -> 1 <= d <= days_in_month y m -> 1 <= d' ->
  days_from_civil y m d < days_from_civil y m' d'.
Proof.
  intros H1 H2 H3 Hd Hd'.
  assert (Hm : m = 1 \/ m = 2 \/ m = 3 \/ m = 4 \/ m = 5 \/ m = 6 \/ m = 7
               \/ m = 8 \/ m = 9 \/ m = 10 \/ m = 11) by lia.
  assert (Hm' : m' = 2 \/ m' = 3 \/ m' = 4 \/ m' = 5 \/ m' = 6 \/ m' = 7
                \/ m' = 8 \/ m' = 9 \/ m' = 10 \/ m' = 11 \/ m' = 12) by lia.
  unfold days_in_month, is_leap in Hd.
  destruct Hm as [->|[->|[->|[->|[->|[->|[->|[->|[->|[->| ->]]]]]]]]]];
  destruct Hm' as [->|[->|[->|[->|[->|[->|[->|[->|[->|[->| ->]]]]]]]]]]; try lia;
  unfold days_from_civil; cbn -[Z.div Z.mul Z.add Z.sub Z.modulo] in *;
  repeat match goal with
  | H : context [?a =? ?b] |- _ => destruct (Z.eqb_spec a b)
  end; cbn -[Z.div Z.mul Z.add Z.sub Z.modulo] in *; zdiv.
Qed.

Lemma days_from_civil_year_start (y y' : Z) :
  y <= y' -> days_from_civil y 1 1 <= days_from_civil y' 1 1.
Proof.
  unfold days_from_civil. cbn -[Z.div Z.mul Z.add Z.sub Z.modulo]. intros. zdiv.
Qed.

Lemma days_from_civil_year_end (y : Z) :
  days_from_civil y 12 31 < days_from_civil (y + 1) 1 1.
Proof. unfold days_from_civil. cbn -[Z.div Z.mul Z.add Z.sub Z.modulo]. zdiv. Qed.

Lemma days_in_month_le (y m : Z) : days_in_month y m <= 31.
Proof.
  unfold days_in_month. destruct (m =? 2); [destruct (is_leap _); lia|].
  destruct (_ || _); lia.
Qed.

Lemma days_from_civil_year (y y' m m' d d' : Z) :
  y < y' ->
  1 <= m <= 12 -> 1 <= d <= days_in_month y m ->
  1 <= m' <= 12 -> 1 <= d' ->
  days_from_civil y m d < days_from_civil y' m' d'.
Proof.
  intros Hy Hm Hd Hm' Hd'.
  assert (H1 : days_from_civil y m d <= days_from_civil y 12 31).
  { destruct (Z.eq_dec m 12) as [->|Hne].
    - apply days_from_civil_day. pose proof (days_in_month_le y 12). lia.
    - apply Z.lt_le_incl. apply days_from_civil_month; lia. }
  assert (H2 : days_from_civil y' 1 1 <= days_from_civil y' m' d').
  { destruct (Z.eq_dec m' 1) as [->|Hne].
    - apply days_from_civil_day. lia.
    - apply Z.lt_le_incl. apply days_from_civil_month; try lia.
      unfold days_in_month. simpl. lia. }
  pose proof (days_from_civil_year_end y).
  pose proof (days_from_civil_year_start (y + 1) y').
  lia.
Qed.

Lemma civil_compare_instant (a b : civil) :
  valid_civil a -> valid_civil b ->
  civil_compare a b = (instant_of a ?= instant_of b).
Proof.
  intros (Hy & Hm & Hd & Hh & Hmi & Hs) (Hy' & Hm' & Hd' & Hh' & Hmi' & Hs').
  unfold civil_compare, instant_of, us_per_second.
  destruct (Z.compare_spec (year a) (year b)) as [Ey|Ly|Ly].
  2:{ symmetry. apply Z.compare_lt_iff.
      pose proof (days_from_civil_year (year a) (year b) (month a) (month b)
                    (day a) (day b) Ly Hm Hd Hm' (proj1 Hd')). lia. }
  2:{ symmetry. apply Z.compare_gt_iff.
      pose proof (days_from_civil_year (year b) (year a) (month b) (month a)
                    (day b) (day a) Ly Hm' Hd' Hm (proj1 Hd)). lia. }
  destruct (Z.compare_spec (month a) (month b)) as [Em|Lm|Lm].
  2:{ symmetry. apply Z.compare_lt_iff. rewrite <- Ey.
      pose proof (days_from_civil_month (year a) (month a) (month b)
                    (day a) (day b) (proj1 Hm) Lm (proj2 Hm') Hd (proj1 Hd')). lia. }
  2:{ symmetry. apply Z.compare_gt_iff. rewrite Ey in *.
      pose proof (days_from_civil_month (year b) (month b) (month a)
                    (day b) (day a) (proj1 Hm') Lm (proj2 Hm) Hd' (proj1 Hd)). lia. }
  rewrite Ey, Em.
  assert (Hday : forall d d', days_from_civil (year b) (month b) d
                              - days_from_civil (year b) (month b) d' = d - d').
  { intros. unfold days_from_civil. lia. }
  pose proof (Hday (day a) (day b)) as Hdd.
  destruct (Z.compare_spec (day a) (day b)) as [Ed|Ld|Ld].
  2:{ symmetry. apply Z.compare_lt_iff. lia. }
  2:{ symmetry. apply Z.compare_gt_iff. lia. }
  rewrite Ed.
  destruct (Z.compare_spec (hour a) (hour b)) as [Eh|Lh|Lh].
  2:{ symmetry. apply Z.compare_lt_iff. lia. }
  2:{ symmetry. apply Z.compare_gt_iff. lia. }
  destruct (Z.compare_spec (minute a) (minute b)) as [Emi|Lmi|Lmi].
  2:{ symmetry. apply Z.compare_lt_iff. lia. }
  2:{ symmetry. apply Z.compare_gt_iff. lia. }
  destruct (Z.compare_spec (second a) (second b)) as [Es|Ls|Ls]; symmetry.
  - apply Z.compare_eq_iff. rewrite Eh, Emi, Es. reflexivity.
  - apply Z.compare_lt_iff. lia.
  - apply Z.compare_gt_iff. lia.
Qed.

(** The text order of two timestamps of the API is the order of their
    instants. *)
Lemma api_timestamp_order (a b : civil) :
  valid_civil a -> valid_civil b ->
  str_compare (api_timestamp a) (api_timestamp b)
  = (instant_of a ?= instant_of b).
Proof.
  intros Ha Hb. rewrite api_timestamp_compare by assumption.
  now apply civil_compare_instant.
Qed.

Example api_timestamp_ex :
  api_timestamp (mkCivil 2024 1 15 12 30 45) = L "2024-01-15T12:30:45Z".
Proof. reflexivity. Qed.

(** ** Claims about the releases *)

Lemma for_each_length {A B : Type} (body : A -> result B) (l : list A)
      (bs : list B) :
  for_each body l = Ok bs -> length bs = length l.
Proof.
  revert bs; induction l as [|a l IH]; intros bs H; simpl in H.
  - apply Ok_inj in H. now subst bs.
  - destruct (body a) as [b|e]; [|discriminate]. cbn [bind] in H.
    destruct (for_each body l) as [bs'|e]; [|discriminate]. cbn [bind] in H.
    apply Ok_inj in H. subst bs. simpl. f_equal. now apply IH.
Qed.

Lemma for_each_total {A B : Type} (body : A -> result B) (l : list A) :
  (forall a, In a l -> exists b, body a = Ok b) ->
  exists bs, for_each body l = Ok bs.
Proof.
  induction l as [|a l IH]; intros H; simpl.
  - now exists [].
  - destruct (H a (or_introl eq_refl)) as [b Hb].
    destruct IH as [bs Hbs]; [intros a' Ha'; apply H; now right|].
    exists (b :: bs). rewrite Hb. cbn [bind]. rewrite Hbs. reflexivity.
Qed.

Lemma release_entry_total (c : Clock) (release : release_data) (d : datetime) :
  fromisoformat (replace (rd_published_at release) (L "Z") (L "+00:00")) = Ok d ->
  exists entry, release_entry c release = Ok entry.
Proof.
  intros Hd. unfold release_entry. rewrite Hd. cbn [bind].
  rewrite days_since_total. cbn [bind]. eexists. reflexivity.
Qed.

Lemma published_before_asym (a b : release_data) :
  published_before a b = true -> published_before b a = false.
Proof. apply str_ltb_asym. Qed.

Lemma published_before_ntrans (a b c : release_data) :
  published_before a b = false -> published_before b c = false ->
  published_before a c = false.
Proof. apply str_ltb_ntrans. Qed.

Lemma str_ltb_total (a b : str) :
  str_ltb a b = false -> a <> b -> str_ltb b a = true.
Proof.
  unfold str_ltb. rewrite (str_compare_antisym a b).
  destruct (str_compare a b) eqn:E; simpl; try congruence.
  apply str_compare_eq in E. congruence.
Qed.

(** Descending with pairwise different keys is strictly descending. *)
Lemma sorted_distinct_strict (l : list release_data) :
  StronglySorted (not_below published_before) l ->
  NoDup (map rd_published_at l) ->
  strictly_descending l.
Proof.
  unfold strictly_descending.
  induction 1 as [|a l Hs IH Ha]; intros Hnd; simpl in Hnd; constructor.
  - apply IH. now inversion Hnd.
  - inversion Hnd as [|k ks Hnotin Hnd' E]; subst.
    rewrite Forall_forall in *. intros b Hb.
    apply str_ltb_total; [exact (Ha b Hb)|].
    intros Heq. apply Hnotin. rewrite Heq. now apply in_map.
Qed.

Lemma NoDup_firstn {A : Type} (n : nat) (l : list A) :
  NoDup l -> NoDup (firstn n l).
Proof.
  intros H. rewrite <- (firstn_skipn n l) in H.
  exact (NoDup_app_remove_r _ _ H).
Qed.

Lemma In_firstn {A : Type} (n : nat) (l : list A) (x : A) :
  In x (firstn n l) -> In x l.
Proof.
  intros H. rewrite <- (firstn_skipn n l). apply in_or_app. now left.
Qed.

Lemma StronglySorted_impl_in {A : Type} (R R' : A -> A -> Prop) (l : list A) :
  (forall a b, In a l -> In b l -> R a b -> R' a b) ->
  StronglySorted R l -> StronglySorted R' l.
Proof.
  intros Himpl H. induction H as [|a l Hs IH Ha]; constructor.
  - apply IH. intros x y Hx Hy. apply Himpl; now right.
  - rewrite Forall_forall in *. intros b Hb.
    apply Himpl; [now left|now right|now apply Ha].
Qed.

(** C4, as stated, fails: two repositories each have a release of
    2024-01-10 and one of 2024-01-14, fetched oldest first.  The four are
    rendered newest first, but the two of equal time follow one another,
    so the rendered entries are not strictly descending. *)
Lemma C4_counterexample :
  map (fun r => (rd_repo r, rd_tag r, rd_published_at r))
      (collect_releases world_releases repos_two)
  = [(L "api", L "v1.0", L "2024-01-10T10:00:00Z");
     (L "api", L "v1.1", L "2024-01-14T10:00:00Z");
     (L "web", L "v1.0", L "2024-01-10T10:00:00Z");
     (L "web", L "v1.1", L "2024-01-14T10:00:00Z")]
  /\ map (fun r => (rd_repo r, rd_tag r, rd_published_at r))
         (shown_releases world_releases repos_two)
     = [(L "api", L "v1.1", L "2024-01-14T10:00:00Z");
        (L "web", L "v1.1", L "2024-01-14T10:00:00Z");
        (L "api", L "v1.0", L "2024-01-10T10:00:00Z");
        (L "web", L "v1.0", L "2024-01-10T10:00:00Z")]
  /\ ~ strictly_descending (shown_releases world_releases repos_two)
  /\ format_latest_releases world_releases repos_two
     = Ok ([0x1F680%N] ++ L " **[api v1.1](https://example.org/v1.1)** - yesterday"
           ++ nl ++ [0x1F680%N]
           ++ L " **[web v1.1](https://example.org/v1.1)** - yesterday"
           ++ nl ++ [0x1F680%N]
           ++ L " **[api v1.0](https://example.org/v1.0)** - 5d ago"
           ++ nl ++ [0x1F680%N]
           ++ L " **[web v1.0](https://example.org/v1.0)** - 5d ago").
Proof.
  split; [vm_compute; reflexivity|]. split; [vm_compute; reflexivity|].
  split; [|vm_compute; reflexivity].
  intros H. inversion H as [|a l _ Hall E]; subst.
  inversion Hall as [|b l' Hb _ E']; subst.
  vm_compute in Hb. discriminate.
Qed.

(** C4, amended.  The rendered releases are the first five of the
    collected releases sorted by their [published_at] text in descending
    order: no rendered release has a text below the text of a release
    rendered after it, releases of equal text keep their fetch order, at
    most five are rendered, and sorting only permutes what was collected.
    The order is strict when the collected timestamps are pairwise
    different.  When the timestamps have the format of the API, the order
    of their text is the order of the instants they denote, which are the
    instants the day differences are computed from.  When every timestamp
    to render is read, the formatter returns one entry per rendered
    release, in that order, joined by newlines. *)
Theorem C4_releases_descending (w : World) (repos : list Repo) :
  StronglySorted (not_below published_before) (shown_releases w repos)
  /\ (length (shown_releases w repos) <= 5)%nat
  /\ shown_releases w repos = firstn 5 (sorted_releases w repos)
  /\ Permutation (collect_releases w repos) (sorted_releases w repos)
  /\ (forall r,
        filter (same_key published_before r) (sorted_releases w repos)
        = filter (same_key published_before r) (collect_releases w repos))
  /\ (NoDup (map rd_published_at (collect_releases w repos)) ->
      strictly_descending (shown_releases w repos))
  /\ (forall time_of : release_data -> civil,
        (forall r, In r (collect_releases w repos) ->
                   valid_civil (time_of r)
                   /\ rd_published_at r = api_timestamp (time_of r)) ->
        StronglySorted
          (fun a b => instant_of (time_of b) <= instant_of (time_of a))
          (shown_releases w repos)
        /\ forall r, In r (shown_releases w repos) ->
             fromisoformat (replace (rd_published_at r) (L "Z") (L "+00:00"))
             = Ok (mkDatetime (instant_of (time_of r)) (Some 0)))
  /\ (collect_releases w repos <> [] ->
      forall entries,
        for_each (release_entry (clock w)) (shown_releases w repos) = Ok entries ->
        format_latest_releases w repos = Ok (join nl entries)
        /\ length entries = length (shown_releases w repos))
  /\ ((forall r, In r (shown_releases w repos) ->
                 exists d, fromisoformat (replace (rd_published_at r) (L "Z")
                                                  (L "+00:00")) = Ok d) ->
      exists entries,
        for_each (release_entry (clock w)) (shown_releases w repos) = Ok entries).
Proof.
  assert (Hsorted : StronglySorted (not_below published_before)
                                   (shown_releases w repos)).
  { apply firstn_sorted.
    apply sort_desc_sorted;
      [exact published_before_asym|exact published_before_ntrans]. }
  split; [exact Hsorted|].
  split; [apply firstn_le_length|].
  split; [reflexivity|].
  split; [apply sort_desc_perm|].
  split.
  { intros r. apply sort_desc_stable. exact published_before_ntrans. }
  split.
  { intros Hnd. apply sorted_distinct_strict; [exact Hsorted|].
    unfold shown_releases. rewrite <- firstn_map. apply NoDup_firstn.
    apply (Permutation_NoDup
             (Permutation_map rd_published_at
                (sort_desc_perm _ published_before (collect_releases w repos)))).
    exact Hnd. }
  split.
  { intros time_of Hshape.
    assert (Hin : forall r, In r (shown_releases w repos) ->
                            In r (collect_releases w repos)).
    { intros r Hr. apply In_firstn in Hr.
      apply (Permutation_in r
               (Permutation_sym
                  (sort_desc_perm _ published_before (collect_releases w repos)))).
      exact Hr. }
    split.
    - apply (StronglySorted_impl_in (not_below published_before)); [|exact Hsorted].
      intros a b Ha Hb Hab.
      destruct (Hshape a (Hin a Ha)) as [Va Ea].
      destruct (Hshape b (Hin b Hb)) as [Vb Eb].
      unfold not_below, published_before, str_ltb in Hab.
      rewrite Ea, Eb, (api_timestamp_order _ _ Va Vb) in Hab.
      destruct (Z.compare_spec (instant_of (time_of a)) (instant_of (time_of b)));
        [lia|discriminate|lia].
    - intros r Hr. destruct (Hshape r (Hin r Hr)) as [Vr Er].
      rewrite Er. now apply parse_api_timestamp. }
  split.
  { intros Hne entries He. split; [|exact (for_each_length _ _ _ He)].
    unfold format_latest_releases.
    destruct (sorted_releases w repos) as [|r rs] eqn:Es.
    - exfalso. apply Hne. apply Permutation_nil.
      rewrite <- Es. symmetry. apply sort_desc_perm.
    - rewrite He. reflexivity. }
  intros Hparse. apply for_each_total.
  intros r Hr. destruct (Hparse r Hr) as [d Hd].
  exact (release_entry_total (clock w) r d Hd).
Qed.

(** ** The text of a day difference *)

(** The entries that a loop appends, one for each element. *)
Lemma for_each_Forall2 {A B : Type} (body : A -> result B) (l : list A)
      (bs : list B) :
  for_each body l = Ok bs -> Forall2 (fun a b => body a = Ok b) l bs.
Proof.
  revert bs; induction l as [|a l IH]; intros bs H; cbn [for_each] in H.
  - apply Ok_inj in H. subst bs. constructor.
  - destruct (body a) as [b|e] eqn:Eb; cbn [bind] in H; [|discriminate].
    destruct (for_each body l) as [bs'|e]; cbn [bind] in H; [|discriminate].
    apply Ok_inj in H. subst bs. constructor; [exact Eb|now apply IH].
Qed.

(** Every entry ends with the text for its own day difference. *)
Lemma activity_entry_time (c : Clock) (repo : Repo) (entry : str) :
  activity_entry c repo = Ok entry ->
  exists d days body,
    fromisoformat (replace (repo_updated_at repo) (L "Z") (L "+00:00")) = Ok d
    /\ days_since c d = Ok days
    /\ entry = body ++ L " Updated " ++ activity_time_str days.
Proof.
  unfold activity_entry.
  destruct (fromisoformat _) as [d|e] eqn:Ep; cbn [bind]; [|discriminate].
  destruct (days_since c d) as [days|e] eqn:Ed; cbn [bind]; [|discriminate].
  destruct (get_default _ _) as [description|]; [|discriminate].
  intros H. apply Ok_inj in H. exists d, days. eexists.
  split; [reflexivity|]. split; [exact Ed|].
  rewrite <- H. rewrite !app_assoc. reflexivity.
Qed.

Lemma build_entry_time (c : Clock) (run : WorkflowRun) (entry : str) :
  build_entry c run = Ok entry ->
  exists d days body,
    fromisoformat (replace (run_created_at run) (L "Z") (L "+00:00")) = Ok d
    /\ days_since c d = Ok days
    /\ entry = body ++ L " " ++ build_time_str days.
Proof.
  unfold build_entry.
  destruct (fromisoformat _) as [d|e] eqn:Ep; cbn [bind]; [|discriminate].
  destruct (days_since c d) as [days|e] eqn:Ed; cbn [bind]; [|discriminate].
  intros H. apply Ok_inj in H. exists d, days. eexists.
  split; [reflexivity|]. split; [exact Ed|].
  rewrite <- H. rewrite !app_assoc. reflexivity.
Qed.

Lemma release_entry_time (c : Clock) (release : release_data) (entry : str) :
  release_entry c release = Ok entry ->
  exists d days body,
    fromisoformat (replace (rd_published_at release) (L "Z") (L "+00:00")) = Ok d
    /\ days_since c d = Ok days
    /\ entry = body ++ L ")** - " ++ release_time_str days.
Proof.
  unfold release_entry.
  destruct (fromisoformat _) as [d|e] eqn:Ep; cbn [bind]; [|discriminate].
  destruct (days_since c d) as [days|e] eqn:Ed; cbn [bind]; [|discriminate].
  intros H. apply Ok_inj in H. exists d, days. eexists.
  split; [reflexivity|]. split; [exact Ed|].
  rewrite <- H. rewrite !app_assoc. reflexivity.
Qed.

(** The blocks that the loop of the build formatter appends: one for each
    repository that has runs, with one entry for each run. *)
Lemma build_loop_blocks (w : World) (repos : list Repo) (acc info : list str) :
  build_loop w repos acc = Ok info ->
  exists blocks,
    info = acc ++ blocks
    /\ Forall2
         (fun repo block =>
            exists entries,
              block = L "**" ++ repo_name repo ++ L "**" ++ nl ++ join nl entries
              /\ Forall2 (fun run entry => build_entry (clock w) run = Ok entry)
                         (get_workflow_runs w (repo_full_name repo) 2) entries)
         (filter (has_runs w) repos) blocks.
Proof.
  revert acc; induction repos as [|repo repos IH]; intros acc H.
  - cbn [build_loop] in H. apply Ok_inj in H. exists []. split.
    + now rewrite app_nil_r.
    + constructor.
  - cbn [build_loop] in H. cbn [filter]. unfold has_runs at 1.
    destruct (get_workflow_runs w (repo_full_name repo) 2) as [|run runs] eqn:E.
    + now apply IH.
    + destruct (for_each (build_entry (clock w)) (run :: runs)) as [builds|e] eqn:Ef;
        cbn [bind] in H; [|discriminate].
      pose proof (for_each_Forall2 _ _ _ Ef) as Hall.
      destruct builds as [|b bs]; [inversion Hall|].
      destruct (IH _ H) as (blocks & Hinfo & Hblocks).
      exists ((L "**" ++ repo_name repo ++ L "**" ++ nl ++ join nl (b :: bs))
              :: blocks).
      split.
      * rewrite Hinfo, <- app_assoc. reflexivity.
      * constructor; [|exact Hblocks]. exists (b :: bs). split; [reflexivity|].
        rewrite E. exact Hall.
Qed.

(** A loop whose body returns on every element returns the entries. *)
Lemma Forall2_for_each {A B : Type} (body : A -> result B) (l : list A)
      (bs : list B) :
  Forall2 (fun a b => body a = Ok b) l bs -> for_each body l = Ok bs.
Proof.
  induction 1 as [|a b l bs Hab _ IH]; cbn [for_each]; [reflexivity|].
  rewrite Hab. cbn [bind]. rewrite IH. reflexivity.
Qed.

(** Conversely the loop returns those blocks when every entry is produced. *)
Lemma build_loop_of_blocks (w : World) (repos : list Repo) (acc blocks : list str) :
  Forall2
    (fun repo block =>
       exists entries,
         block = L "**" ++ repo_name repo ++ L "**" ++ nl ++ join nl entries
         /\ Forall2 (fun run entry => build_entry (clock w) run = Ok entry)
                    (get_workflow_runs w (repo_full_name repo) 2) entries)
    (filter (has_runs w) repos) blocks ->
  build_loop w repos acc = Ok (acc ++ blocks).
Proof.
  revert acc blocks; induction repos as [|repo repos IH]; intros acc blocks H.
  - cbn [filter] in H. inversion H. cbn [build_loop]. now rewrite app_nil_r.
  - cbn [build_loop]. cbn [filter] in H. unfold has_runs at 1 in H.
    destruct (get_workflow_runs w (repo_full_name repo) 2) as [|run runs] eqn:E.
    + now apply IH.
    + inversion H as [|? block ? blocks' (entries & Hb & Hall) Hrest]; subst.
      rewrite E in Hall. rewrite (Forall2_for_each _ _ _ Hall). cbn [bind].
      destruct entries as [|b bs]; [inversion Hall|].
      rewrite (IH _ _ Hrest), <- app_assoc. reflexivity.
Qed.

(** C6.  In the three formatters the text for a day difference is [today]
    for 0 and [yesterday] for 1; for 2 or more it is the number followed by
    [ days ago] in the activity formatter and by [d ago] in the build and
    release formatters, 2 being the first such number.  An entry is produced
    whenever its timestamp is read, and every entry that is produced ends
    with that text for the day difference computed from its own timestamp.
    The formatters render exactly these entries: the activity formatter
    returns, for a list that is not empty, the entries of the first six
    repositories joined by a blank line; the build formatter returns one
    block for each of the first four repositories that has runs, headed by
    the name of the repository and holding one entry for each of its runs,
    or its fallback sentence when there is no such block; the release
    formatter returns, when a release was collected, the entries of the
    releases that are shown, one on each line. *)
Theorem C6_day_difference_text (time_ago : Z) :
  (time_ago = 0 ->
   activity_time_str time_ago = L "today"
   /\ build_time_str time_ago = L "today"
   /\ release_time_str time_ago = L "today")
  /\ (time_ago = 1 ->
      activity_time_str time_ago = L "yesterday"
      /\ build_time_str time_ago = L "yesterday"
      /\ release_time_str time_ago = L "yesterday")
  /\ (2 <= time_ago ->
      activity_time_str time_ago = str_of_int time_ago ++ L " days ago"
      /\ build_time_str time_ago = str_of_int time_ago ++ L "d ago"
      /\ release_time_str time_ago = str_of_int time_ago ++ L "d ago")
  /\ (activity_time_str 2 = L "2 days ago"
      /\ build_time_str 2 = L "2d ago"
      /\ release_time_str 2 = L "2d ago")
  /\ (forall c repo d,
        fromisoformat (replace (repo_updated_at repo) (L "Z") (L "+00:00")) = Ok d ->
        days_since c d = Ok time_ago ->
        get_default (repo_description repo) (L "No description") <> None ->
        exists body,
          activity_entry c repo
          = Ok (body ++ L " Updated " ++ activity_time_str time_ago))
  /\ (forall c run d,
        fromisoformat (replace (run_created_at run) (L "Z") (L "+00:00")) = Ok d ->
        days_since c d = Ok time_ago ->
        exists body,
          build_entry c run = Ok (body ++ L " " ++ build_time_str time_ago))
  /\ (forall c release d,
        fromisoformat (replace (rd_published_at release) (L "Z") (L "+00:00"))
        = Ok d ->
        days_since c d = Ok time_ago ->
        exists body,
          release_entry c release
          = Ok (body ++ L ")** - " ++ release_time_str time_ago))
  /\ (forall c repo entry,
        activity_entry c repo = Ok entry ->
        exists d days body,
          fromisoformat (replace (repo_updated_at repo) (L "Z") (L "+00:00"))
          = Ok d
          /\ days_since c d = Ok days
          /\ entry = body ++ L " Updated " ++ activity_time_str days)
  /\ (forall c run entry,
        build_entry c run = Ok entry ->
        exists d days body,
          fromisoformat (replace (run_created_at run) (L "Z") (L "+00:00"))
          = Ok d
          /\ days_since c d = Ok days
          /\ entry = body ++ L " " ++ build_time_str days)
  /\ (forall c release entry,
        release_entry c release = Ok entry ->
        exists d days body,
          fromisoformat (replace (rd_published_at release) (L "Z") (L "+00:00"))
          = Ok d
          /\ days_since c d = Ok days
          /\ entry = body ++ L ")** - " ++ release_time_str days)
  /\ (forall c repos out,
        repos <> [] ->
        (format_repository_activity c repos = Ok out
         <-> exists entries,
               out = join (nl ++ nl) entries
               /\ Forall2 (fun repo entry => activity_entry c repo = Ok entry)
                          (firstn 6 repos) entries))
  /\ (forall w repos out,
        format_build_status w repos = Ok out
        <-> exists blocks,
              out = match blocks with
                    | [] => L "No recent builds found."
                    | _ :: _ => join (nl ++ nl) blocks
                    end
              /\ Forall2
                   (fun repo block =>
                      exists entries,
                        block = L "**" ++ repo_name repo ++ L "**" ++ nl
                                ++ join nl entries
                        /\ Forall2
                             (fun run entry =>
                                build_entry (clock w) run = Ok entry)
                             (get_workflow_runs w (repo_full_name repo) 2)
                             entries)
                   (filter (has_runs w) (firstn 4 repos)) blocks)
  /\ (forall w repos out,
        collect_releases w repos <> [] ->
        (format_latest_releases w repos = Ok out
         <-> exists entries,
               out = join nl entries
               /\ Forall2
                    (fun release entry =>
                       release_entry (clock w) release = Ok entry)
                    (shown_releases w repos) entries)).
Proof.
  split; [intros ->; repeat split; reflexivity|].
  split; [intros ->; repeat split; reflexivity|].
  split.
  { intros H. unfold activity_time_str, build_time_str, release_time_str.
    assert (E0 : (time_ago =? 0) = false) by (apply Z.eqb_neq; lia).
    assert (E1 : (time_ago =? 1) = false) by (apply Z.eqb_neq; lia).
    rewrite E0, E1. repeat split; reflexivity. }
  split; [repeat split; reflexivity|].
  split.
  { intros c repo d Hd Hdays Hdesc. unfold activity_entry.
    rewrite Hd. cbn [bind]. rewrite Hdays. cbn [bind].
    destruct (get_default (repo_description repo) (L "No description"))
      as [description|]; [|congruence].
    eexists. rewrite !app_assoc. reflexivity. }
  split.
  { intros c run d Hd Hdays. unfold build_entry.
    rewrite Hd. cbn [bind]. rewrite Hdays. cbn [bind].
    eexists. rewrite !app_assoc. reflexivity. }
  split.
  { intros c release d Hd Hdays. unfold release_entry.
    rewrite Hd. cbn [bind]. rewrite Hdays. cbn [bind].
    eexists. rewrite !app_assoc. reflexivity. }
  split; [intros c repo entry; apply activity_entry_time|].
  split; [intros c run entry; apply build_entry_time|].
  split; [intros c release entry; apply release_entry_time|].
  split.
  { intros c repos out Hne. unfold format_repository_activity.
    destruct repos as [|repo rest]; [congruence|]. split.
    - destruct (for_each (activity_entry c) (firstn 6 (repo :: rest)))
        as [md|e] eqn:E; cbn [bind]; [|discriminate].
      intros H. apply Ok_inj in H. exists md. split; [now symmetry|].
      now apply for_each_Forall2.
    - intros (entries & -> & Hall).
      rewrite (Forall2_for_each _ _ _ Hall). reflexivity. }
  split.
  { intros w repos out. unfold format_build_status. split.
    - destruct (build_loop w (firstn 4 repos) []) as [info|e] eqn:E; cbn [bind];
        [|discriminate].
      destruct (build_loop_blocks _ _ _ _ E) as (blocks & Hinfo & Hblocks).
      cbn [app] in Hinfo. subst info. intros H. exists blocks.
      split; [|exact Hblocks].
      destruct blocks; apply Ok_inj in H; now symmetry.
    - intros (blocks & -> & Hblocks).
      rewrite (build_loop_of_blocks _ _ [] _ Hblocks). cbn [app bind].
      destruct blocks; reflexivity. }
  intros w repos out Hne. unfold format_latest_releases.
  destruct (sorted_releases w repos) as [|r rs] eqn:Es.
  { exfalso. apply Hne.
    pose proof (sort_desc_perm _ published_before (collect_releases w repos)) as P.
    fold (sorted_releases w repos) in P. rewrite Es in P.
    now apply Permutation.Permutation_sym, Permutation.Permutation_nil in P. }
  split.
  - destruct (for_each (release_entry (clock w)) (shown_releases w repos))
      as [info|e] eqn:E; cbn [bind]; [|discriminate].
    intros H. apply Ok_inj in H. exists info. split; [now symmetry|].
    now apply for_each_Forall2.
  - intros (entries & -> & Hall).
    rewrite (Forall2_for_each _ _ _ Hall). reflexivity.
Qed.

(** ** Claims about the language histogram *)

Lemma increment_total (language : str) (stats : list (str * Z)) :
  total_count (increment language stats) = total_count stats + 1.
Proof.
  induction stats as [|[k n] rest IH]; simpl; [reflexivity|].
  destruct (str_eqb k language); simpl; lia.
Qed.

Lemma count_language_total (stats : list (str * Z)) (repo : Repo) :
  total_count (count_language stats repo)
  = total_count stats + (if declares_language repo then 1 else 0).
Proof.
  unfold count_language, declares_language.
  destruct (get (repo_language repo)) as [language|]; [|simpl; lia].
  destruct (truthy (Some language)); [apply increment_total|lia].
Qed.

Lemma fold_count_language_total (repos : list Repo) (stats : list (str * Z)) :
  total_count (fold_left count_language repos stats)
  = total_count stats + declared_count repos.
Proof.
  unfold declared_count.
  revert stats; induction repos as [|repo repos IH]; intros stats; simpl;
    [lia|].
  rewrite IH, count_language_total.
  destruct (declares_language repo); simpl length; lia.
Qed.

Lemma declared_count_bounds (repos : list Repo) :
  0 <= declared_count repos <= Z.of_nat (length repos).
Proof.
  unfold declared_count. pose proof (filter_length_le declares_language repos).
  lia.
Qed.

Lemma sum_exact_total (repos : list Repo) (stats : list (str * Z)) :
  (fold_right (fun item acc => percentage_exact (snd item) repos + acc)
              (inject_Z 0) stats
   == inject_Z (total_count stats) / inject_Z (Z.of_nat (length repos))
      * inject_Z 100)%Q.
Proof.
  induction stats as [|item stats IH]; simpl.
  - unfold Qdiv. ring.
  - rewrite IH. unfold percentage_exact. rewrite inject_Z_plus.
    unfold Qdiv. ring.
Qed.

(** C1, as stated, fails.  With one repository that declares a language and
    one that does not, the only percentage is 50.0, not 100: the divisor is
    the number of all the repositories.  With three repositories and three
    languages the exact quotients sum to 100 but the binary64 values that
    the code computes sum to 99.99999999999999 (7036874417766399 * 2^-46),
    and each is rendered as 33.3. *)
Lemma C1_counterexample :
  (language_stats repos_half = [(L "Python", 1)]
   /\ declared_count repos_half = 1
   /\ sum_percentages repos_half = 50%float
   /\ (sum_percentages_exact repos_half == inject_Z 50)%Q
   /\ ~ (sum_percentages_exact repos_half == inject_Z 100)%Q
   /\ format_org_languages repos_half = L "**Python** (1 repos, 50.0%)")
  /\ (declared_count repos_thirds = Z.of_nat (length repos_thirds)
      /\ (sum_percentages_exact repos_thirds == inject_Z 100)%Q
      /\ Prim2SF (sum_percentages repos_thirds)
         = S754_finite false 7036874417766399 (-46)
      /\ sum_percentages repos_thirds <> 100%float
      /\ format_org_languages repos_thirds
         = L "**Python** (1 repos, 33.3%) " ++ [0x2022%N]
           ++ L " **TypeScript** (1 repos, 33.3%) " ++ [0x2022%N]
           ++ L " **Go** (1 repos, 33.3%)").
Proof.
  split.
  - repeat split; try (vm_compute; reflexivity).
    vm_compute. discriminate.
  - repeat split; try (vm_compute; reflexivity).
    intros H. apply (f_equal Prim2SF) in H. vm_compute in H. discriminate.
Qed.

(** C1, amended.  Every repository that declares a language is counted
    once, under its language: the counts of all the languages sum to the
    number of such repositories, whatever the order and the cut to eight
    entries.  Each percentage divides its count by the number of all the
    fetched repositories, so the exact quotients, times 100, sum to 100
    times the declaring share of the fetched repositories: to 100 when
    every fetched repository declares a language, and to less otherwise. *)
Theorem C1_percentages_sum (repos : list Repo) :
  total_count (language_stats repos) = declared_count repos
  /\ Permutation (language_stats repos) (sorted_languages repos)
  /\ 0 <= declared_count repos <= Z.of_nat (length repos)
  /\ (sum_percentages_exact repos
      == inject_Z (declared_count repos) / inject_Z (Z.of_nat (length repos))
         * inject_Z 100)%Q
  /\ (repos <> [] -> declared_count repos = Z.of_nat (length repos) ->
      (sum_percentages_exact repos == inject_Z 100)%Q)
  /\ (declared_count repos < Z.of_nat (length repos) ->
      (sum_percentages_exact repos < inject_Z 100)%Q).
Proof.
  assert (Htotal : total_count (language_stats repos) = declared_count repos).
  { unfold language_stats. rewrite fold_count_language_total. simpl. lia. }
  assert (Hsum : (sum_percentages_exact repos
                  == inject_Z (declared_count repos)
                     / inject_Z (Z.of_nat (length repos)) * inject_Z 100)%Q).
  { unfold sum_percentages_exact. rewrite sum_exact_total, Htotal. reflexivity. }
  split; [exact Htotal|].
  split; [apply sort_desc_perm|].
  split; [apply declared_count_bounds|].
  split; [exact Hsum|].
  split.
  - intros Hne Hall. rewrite Hsum, Hall.
    assert (Hn : ~ (inject_Z (Z.of_nat (length repos)) == 0)%Q).
    { unfold Qeq. simpl. destruct repos; [congruence|]. simpl length. lia. }
    field. exact Hn.
  - intros Hlt. rewrite Hsum.
    pose proof (declared_count_bounds repos) as Hb.
    destruct (Z.of_nat (length repos)) as [|n|n] eqn:En; [lia| |lia].
    destruct (declared_count repos) as [|d|d]; unfold Qlt; simpl; lia.
Qed.

(** ** The theorems at concrete inputs *)

(** C5 at a description of 100 characters: 80 are rendered, then [...]. *)
Lemma C5_witness :
  80 < len long_description
  /\ activity_entry clock_utc repo_long
     = Ok ([0x1F525%N]
           ++ L " **[api](https://github.com/Care-Alarm/api)** (Python) - "
           ++ repeat 97%N 80 ++ L "..." ++ nl
           ++ L "   " ++ [0x2B50%N] ++ L " 3 stars " ++ [0x2022%N]
           ++ L " Updated today").
Proof.
  split; [reflexivity|].
  destruct (C5_description_truncation clock_utc repo_long long_description
                                      updated_api eq_refl eq_refl)
    as (days & shown & Hdays & Hentry & _ & Hlong & _).
  destruct (Hlong eq_refl) as [Hshown _].
  assert (Hzero : days = 0).
  { rewrite days_since_total in Hdays. apply Ok_inj in Hdays.
    rewrite <- Hdays. reflexivity. }
  rewrite Hentry, Hshown, Hzero. reflexivity.
Defined.

(** The day difference at its boundaries, through the activity formatter:
    one second short of a day is [today], a day is [yesterday], one second
    short of two days is [yesterday], two days is [2 days ago]. *)
Example day_boundaries :
  map (fun updated_at =>
         format_repository_activity clock_utc [repo_updated (L updated_at)])
      ["2024-01-14T12:30:46Z"; "2024-01-14T12:30:45Z"; "2024-01-13T12:30:46Z";
       "2024-01-13T12:30:45Z"]%string
  = map (fun time_str =>
           Ok ([0x1F525%N]
               ++ L " **[api](https://github.com/Care-Alarm/api)** (Python) - The API"
               ++ nl ++ L "   " ++ [0x2B50%N] ++ L " 3 stars " ++ [0x2022%N]
               ++ L " Updated " ++ L time_str))
        ["today"; "yesterday"; "yesterday"]%string
    ++ [Ok ([0x1F4DD%N]
            ++ L " **[api](https://github.com/Care-Alarm/api)** (Python) - The API"
            ++ nl ++ L "   " ++ [0x2B50%N] ++ L " 3 stars " ++ [0x2022%N]
            ++ L " Updated 2 days ago")].
Proof. vm_compute. reflexivity. Qed.

(** ** The order of the language histogram *)

Lemma count_below_asym (a b : str * Z) :
  count_below a b = true -> count_below b a = false.
Proof. unfold count_below. rewrite Z.ltb_lt, Z.ltb_ge. lia. Qed.

Lemma count_below_ntrans (a b c : str * Z) :
  count_below a b = false -> count_below b c = false -> count_below a c = false.
Proof. unfold count_below. rewrite !Z.ltb_ge. lia. Qed.

(** Four languages, two of them with two repositories: the ties keep the
    order of first mention. *)
Example languages_ties :
  format_org_languages
    [repo_api Absent (JStr (L "Go")); repo_web Absent (JStr (L "Python"));
     repo_cli Absent (JStr (L "Rust")); repo_api Absent (JStr (L "Python"));
     repo_web Absent (JStr (L "Rust")); repo_cli Absent (JStr (L "C"))]
  = L "**Python** (2 repos, 33.3%) " ++ [0x2022%N]
    ++ L " **Rust** (2 repos, 33.3%) " ++ [0x2022%N]
    ++ L " **Go** (1 repos, 16.7%) " ++ [0x2022%N]
    ++ L " **C** (1 repos, 16.7%)".
Proof. vm_compute. reflexivity. Qed.

(** ** A whole run *)

(** Every section of a document with the seven markers is replaced once. *)
Example update_readme_full :
  update_readme world_full
  = Ok (true,
        Some
          (L "# Care-Alarm" ++ nl
           ++ RECENT_ACTIVITY ++ nl
           ++ [0x1F525%N]
           ++ L " **[api](https://github.com/Care-Alarm/api)** (Python) - "
           ++ repeat 97%N 80 ++ L "..." ++ nl
           ++ L "   " ++ [0x2B50%N] ++ L " 3 stars " ++ [0x2022%N]
           ++ L " Updated today" ++ nl ++ nl
           ++ [0x1F4DD%N]
           ++ L " **[web](https://github.com/Care-Alarm/web)** (None) - No description"
           ++ nl
           ++ L "   " ++ [0x2B50%N] ++ L " 1 stars " ++ [0x2022%N]
           ++ L " Updated 5 days ago" ++ nl
           ++ L "<!-- RECENT_ACTIVITY:END -->" ++ nl
           ++ BUILD_STATUS ++ nl
           ++ L "**api**" ++ nl
           ++ L "   " ++ [0x2705%N] ++ L " CI on `main` " ++ [0x2022%N] ++ L " today"
           ++ nl
           ++ L "   " ++ [0x1F7E1%N] ++ L " Deploy on `main` " ++ [0x2022%N]
           ++ L " 3d ago" ++ nl
           ++ L "<!-- BUILD_STATUS:END -->" ++ nl
           ++ TEAM_MEMBERS ++ nl
           ++ L "[<img src='https://avatars.example.org/ana' width='30' height='30' alt='ana'>](https://github.com/ana)"
           ++ nl
           ++ L "<!-- TEAM_MEMBERS:END -->" ++ nl
           ++ ACTIVE_REPOS ++ nl
           ++ [0x1F310%N]
           ++ L " **[api](https://github.com/Care-Alarm/api)** (Python) - "
           ++ [0x2B50%N] ++ L " 3" ++ nl
           ++ [0x1F512%N]
           ++ L " **[web](https://github.com/Care-Alarm/web)** (None) - "
           ++ [0x2B50%N] ++ L " 1" ++ nl
           ++ L "<!-- ACTIVE_REPOS:END -->" ++ nl
           ++ LATEST_RELEASES ++ nl
           ++ [0x1F680%N] ++ L " **[api v1.1](https://example.org/v1.1)** - yesterday"
           ++ nl
           ++ [0x1F680%N] ++ L " **[api v1.0](https://example.org/v1.0)** - 5d ago"
           ++ nl
           ++ L "<!-- LATEST_RELEASES:END -->" ++ nl
           ++ ORG_LANGUAGES ++ nl
           ++ L "**Python** (1 repos, 50.0%)" ++ nl
           ++ L "<!-- ORG_LANGUAGES:END -->" ++ nl
           ++ L "Updated: 2024-01-15 12:30:45 UTC" ++ nl)).
Proof. vm_compute. reflexivity. Qed.

(** Matching is by code point: a marker in another case is not found. *)
Example marker_case :
  contains (L "Updated: <!-- last_updated -->") LAST_UPDATED = false
  /\ replace_marker (L "Updated: <!-- last_updated -->") LAST_UPDATED (L "now")
     = L "Updated: <!-- last_updated -->".
Proof. split; reflexivity. Qed.

(** * Further properties *)

(** ** What the formatters return *)

Lemma join_cons_nonempty (sep x : str) (rest : list str) :
  x <> [] -> join sep (x :: rest) <> [].
Proof.
  intros Hx. destruct x as [|c x]; [congruence|].
  destruct rest; simpl; discriminate.
Qed.

Lemma for_each_cons_inv {A B : Type} (body : A -> result B) (a : A) (l : list A)
      (bs : list B) :
  for_each body (a :: l) = Ok bs ->
  exists b bs', body a = Ok b /\ for_each body l = Ok bs' /\ bs = b :: bs'.
Proof.
  cbn [for_each]. destruct (body a) as [b|e]; cbn [bind]; [|discriminate].
  destruct (for_each body l) as [bs'|e]; cbn [bind]; [|discriminate].
  intros H. apply Ok_inj in H. exists b, bs'. now subst.
Qed.

Lemma activity_entry_nonempty (c : Clock) (repo : Repo) (entry : str) :
  activity_entry c repo = Ok entry -> entry <> [].
Proof.
  unfold activity_entry.
  destruct (fromisoformat _) as [d|e]; cbn [bind]; [|discriminate].
  destruct (days_since c d) as [days|e]; cbn [bind]; [|discriminate].
  destruct (get_default _ _); [|discriminate].
  intros H. apply Ok_inj in H. subst entry. unfold activity_emoji.
  destruct (days <=? 1); [discriminate|]. destruct (days <=? 7); discriminate.
Qed.

Lemma release_entry_nonempty (c : Clock) (release : release_data) (entry : str) :
  release_entry c release = Ok entry -> entry <> [].
Proof.
  unfold release_entry.
  destruct (fromisoformat _) as [d|e]; cbn [bind]; [|discriminate].
  destruct (days_since c d) as [days|e]; cbn [bind]; [|discriminate].
  intros H. apply Ok_inj in H. subst entry.
  destruct (negb _); discriminate.
Qed.

Lemma build_loop_nonempty (w : World) (repos : list Repo) (acc info : list str) :
  build_loop w repos acc = Ok info ->
  Forall (fun block => block <> []) acc ->
  Forall (fun block => block <> []) info.
Proof.
  revert acc; induction repos as [|repo repos IH]; intros acc H Hacc.
  - cbn [build_loop] in H. apply Ok_inj in H. now subst.
  - cbn [build_loop] in H.
    destruct (get_workflow_runs w (repo_full_name repo) 2) as [|run runs].
    + now apply (IH acc).
    + destruct (for_each (build_entry (clock w)) (run :: runs)) as [[|b bs]|e];
        cbn [bind] in H; [now apply (IH acc)| |discriminate].
      apply (IH _ H). apply Forall_app. split; [exact Hacc|].
      constructor; [discriminate|constructor].
Qed.

(** X3.  No formatter returns the empty string: whatever was fetched, the
    text that each of the six formatters returns, when it returns, has at
    least one character. *)
Theorem formatters_never_empty (w : World) (repos : list Repo)
        (members : list Member) :
  (forall out, format_repository_activity (clock w) repos = Ok out -> out <> [])
  /\ (forall out, format_build_status w repos = Ok out -> out <> [])
  /\ format_team_members members <> []
  /\ format_active_repos repos <> []
  /\ (forall out, format_latest_releases w repos = Ok out -> out <> [])
  /\ format_org_languages repos <> [].
Proof.
  split.
  { intros out. unfold format_repository_activity.
    destruct repos as [|repo repos]; [intros H; apply Ok_inj in H; now subst|].
    cbn [firstn].
    destruct (for_each _ _) as [md|e] eqn:E; cbn [bind]; [|discriminate].
    intros H. apply Ok_inj in H. subst out.
    apply for_each_cons_inv in E as (b & bs & Hb & _ & ->).
    apply join_cons_nonempty. exact (activity_entry_nonempty _ _ _ Hb). }
  split.
  { intros out. unfold format_build_status.
    destruct (build_loop w (firstn 4 repos) []) as [info|e] eqn:E; cbn [bind];
      [|discriminate].
    pose proof (build_loop_nonempty _ _ _ _ E (Forall_nil _)) as Hinfo.
    destruct info as [|block info]; intros H; apply Ok_inj in H; subst out;
      [discriminate|].
    apply join_cons_nonempty. now inversion Hinfo. }
  split.
  { unfold format_team_members. destruct members as [|m ms]; [discriminate|].
    cbn [firstn map]. apply join_cons_nonempty. discriminate. }
  split.
  { unfold format_active_repos. destruct repos as [|r rs]; [discriminate|].
    cbn [map]. apply join_cons_nonempty. unfold active_repo_entry.
    destruct (repo_private r); discriminate. }
  split.
  { intros out. unfold format_latest_releases, shown_releases.
    destruct (sorted_releases w repos) as [|r rs]; 
      [intros H; apply Ok_inj in H; now subst|].
    cbn [firstn].
    destruct (for_each _ _) as [info|e] eqn:E; cbn [bind]; [|discriminate].
    intros H. apply Ok_inj in H. subst out.
    apply for_each_cons_inv in E as (b & bs & Hb & _ & ->).
    apply join_cons_nonempty. exact (release_entry_nonempty _ _ _ Hb). }
  unfold format_org_languages.
  destruct (language_stats repos) as [|item stats] eqn:E; [discriminate|].
  assert (Hs : sorted_languages repos <> []).
  { intros Hnil. pose proof (sort_desc_perm _ count_below (language_stats repos)) as P.
    fold (sorted_languages repos) in P. rewrite Hnil, E in P.
    apply Permutation_sym, Permutation_nil in P. discriminate. }
  destruct (sorted_languages repos) as [|[l n] rest]; [congruence|].
  cbn [firstn map]. apply join_cons_nonempty. discriminate.
Qed.

(** ** The lists are cut *)

Lemma firstn_idem {A : Type} (n : nat) (l : list A) : firstn n (firstn n l) = firstn n l.
Proof. rewrite firstn_firstn. f_equal. lia. Qed.

Lemma firstn_app_prefix {A : Type} (n : nat) (a b : list A) :
  (n <= length a)%nat -> firstn n (a ++ b) = firstn n a.
Proof.
  intros H. rewrite firstn_app. replace (n - length a)%nat with O by lia.
  simpl. apply app_nil_r.
Qed.

(** X4.  The activity, build, team and release formatters read a prefix
    of their list only: the first 6 repositories, the first 4, the first 8
    members and the first 5 repositories.  Whatever follows a list that is
    already that long changes nothing in the output. *)
Theorem formatters_read_a_prefix (w : World) (repos : list Repo)
        (members : list Member) :
  format_repository_activity (clock w) repos
  = format_repository_activity (clock w) (firstn 6 repos)
  /\ format_build_status w repos = format_build_status w (firstn 4 repos)
  /\ format_team_members members = format_team_members (firstn 8 members)
  /\ format_latest_releases w repos = format_latest_releases w (firstn 5 repos)
  /\ (forall more,
        (6 <= length repos)%nat ->
        format_repository_activity (clock w) (repos ++ more)
        = format_repository_activity (clock w) repos)
  /\ (forall more,
        (4 <= length repos)%nat ->
        format_build_status w (repos ++ more) = format_build_status w repos)
  /\ (forall more,
        (5 <= length repos)%nat ->
        format_latest_releases w (repos ++ more) = format_latest_releases w repos)
  /\ (forall more,
        (8 <= length members)%nat ->
        format_team_members (members ++ more) = format_team_members members).
Proof.
  assert (A : forall l, format_repository_activity (clock w) l
                        = format_repository_activity (clock w) (firstn 6 l)).
  { intros l. unfold format_repository_activity. rewrite firstn_idem.
    destruct l; reflexivity. }
  assert (B : forall l, format_build_status w l = format_build_status w (firstn 4 l)).
  { intros l. unfold format_build_status. now rewrite firstn_idem. }
  assert (T : forall l, format_team_members l = format_team_members (firstn 8 l)).
  { intros l. unfold format_team_members. rewrite firstn_idem.
    destruct l; reflexivity. }
  assert (R : forall l, format_latest_releases w l
                        = format_latest_releases w (firstn 5 l)).
  { intros l. unfold format_latest_releases, shown_releases, sorted_releases,
      collect_releases. now rewrite firstn_idem. }
  split; [apply A|]. split; [apply B|]. split; [apply T|]. split; [apply R|].
  split; [|split; [|split]]; intros more Hlen.
  - rewrite (A (repos ++ more)), (A repos). now rewrite firstn_app_prefix.
  - rewrite (B (repos ++ more)), (B repos). now rewrite firstn_app_prefix.
  - rewrite (R (repos ++ more)), (R repos). now rewrite firstn_app_prefix.
  - rewrite (T (members ++ more)), (T members). now rewrite firstn_app_prefix.
Qed.

(** ** When the activity formatter returns *)

Lemma for_each_Ok_iff {A B : Type} (body : A -> result B) (l : list A) :
  (exists bs, for_each body l = Ok bs)
  <-> forall a, In a l -> exists b, body a = Ok b.
Proof.
  split; [|apply for_each_total].
  induction l as [|a l IH]; intros [bs H] x Hx; [destruct Hx|].
  apply for_each_cons_inv in H as (b & bs' & Hb & Hbs & _).
  destruct Hx as [<-|Hx]; [now exists b|]. apply IH; [now exists bs'|exact Hx].
Qed.

Lemma activity_entry_Ok_iff (c : Clock) (repo : Repo) :
  (exists entry, activity_entry c repo = Ok entry)
  <-> (exists d, fromisoformat (replace (repo_updated_at repo) (L "Z") (L "+00:00"))
                 = Ok d)
      /\ repo_description repo <> JNull.
Proof.
  unfold activity_entry. split.
  - intros [entry H].
    destruct (fromisoformat _) as [d|e]; cbn [bind] in H; [|discriminate].
    split; [now exists d|]. intros Hnull. rewrite Hnull in H.
    rewrite days_since_total in H. cbn [bind get_default] in H. discriminate.
  - intros [[d Hd] Hdesc]. rewrite Hd. cbn [bind]. rewrite days_since_total.
    cbn [bind]. destruct (repo_description repo); cbn [get_default];
      [eexists; reflexivity|congruence|eexists; reflexivity].
Qed.

(** X5.  The activity formatter returns exactly when each of the first
    six repositories has a timestamp that [fromisoformat] reads and a
    description that is not [null].  A first repository with a [null]
    description raises [TypeError], one with an unreadable timestamp
    [ValueError].  A date alone, a fraction of a second and an offset are
    read; a month of one digit, the 30th of February and a word are not. *)
Theorem activity_returns_iff (c : Clock) (repos : list Repo) :
  ((exists out, format_repository_activity c repos = Ok out)
   <-> forall repo, In repo (firstn 6 repos) ->
         (exists d, fromisoformat (replace (repo_updated_at repo) (L "Z")
                                           (L "+00:00")) = Ok d)
         /\ repo_description repo <> JNull)
  /\ (forall repo rest d,
        repos = repo :: rest ->
        fromisoformat (replace (repo_updated_at repo) (L "Z") (L "+00:00")) = Ok d ->
        repo_description repo = JNull ->
        format_repository_activity c repos = Raise TypeError)
  /\ (forall repo rest,
        repos = repo :: rest ->
        fromisoformat (replace (repo_updated_at repo) (L "Z") (L "+00:00"))
        = Raise ValueError ->
        format_repository_activity c repos = Raise ValueError)
  /\ (forall repo,
        repos = [repo] ->
        In (repo_updated_at repo)
           [L "2024-01-15"; L "2024-01-15T08:00:00.250Z"; L "2024-01-15T08:00:00Z";
            L "2024-01-15 08:00:00+05:30"] ->
        repo_description repo <> JNull ->
        exists out, format_repository_activity c repos = Ok out)
  /\ (forall repo,
        repos = [repo] ->
        In (repo_updated_at repo) [L "2024-1-15"; L "2024-02-30"; L "yesterday"; []] ->
        format_repository_activity c repos = Raise ValueError).
Proof.
  split.
  { unfold format_repository_activity. destruct repos as [|repo rest].
    - split; [intros _ r []|intros _; eexists; reflexivity].
    - set (l := firstn 6 (repo :: rest)). split.
      + intros [out H].
        destruct (for_each (activity_entry c) l) as [md|e] eqn:E; cbn [bind] in H;
          [|discriminate].
        intros r Hr. apply (proj1 (activity_entry_Ok_iff c r)).
        apply (proj1 (for_each_Ok_iff (activity_entry c) l)); [now exists md|exact Hr].
      + intros Hall.
        destruct (proj2 (for_each_Ok_iff (activity_entry c) l)) as [md Hmd].
        { intros r Hr. apply (proj2 (activity_entry_Ok_iff c r)). now apply Hall. }
        rewrite Hmd. cbn [bind]. eexists; reflexivity. }
  split.
  { intros repo rest d -> Hd Hnull. unfold format_repository_activity.
    cbn [firstn for_each]. unfold activity_entry at 1. rewrite Hd. cbn [bind].
    rewrite days_since_total. cbn [bind]. rewrite Hnull. reflexivity. }
  split.
  { intros repo rest -> Hd. unfold format_repository_activity.
    cbn [firstn for_each]. unfold activity_entry at 1. rewrite Hd. reflexivity. }
  split.
  - intros repo -> Hin Hdesc. unfold format_repository_activity.
    cbn [firstn for_each].
    destruct (proj2 (activity_entry_Ok_iff c repo)) as [entry He].
    { split; [|exact Hdesc]. cbn [In] in Hin.
      repeat (destruct Hin as [<-|Hin]; [eexists; vm_compute; reflexivity|]).
      destruct Hin. }
    rewrite He. cbn [bind]. eexists; reflexivity.
  - intros repo -> Hin. unfold format_repository_activity.
    cbn [firstn for_each]. unfold activity_entry at 1. cbn [In] in Hin.
    repeat (destruct Hin as [<-|Hin]; [reflexivity|]). destruct Hin.
Qed.

(** ** Repositories without runs or releases *)

Lemma build_loop_filter (w : World) (repos : list Repo) (acc : list str) :
  build_loop w repos acc = build_loop w (filter (has_runs w) repos) acc.
Proof.
  revert acc; induction repos as [|repo repos IH]; intros acc; [reflexivity|].
  cbn [filter]. unfold has_runs at 1. cbn [build_loop].
  destruct (get_workflow_runs w (repo_full_name repo) 2) as [|run runs] eqn:E.
  - apply IH.
  - cbn [build_loop]. rewrite E.
    destruct (for_each _ _) as [[|b bs]|e]; cbn [bind]; [apply IH|apply IH|reflexivity].
Qed.

Lemma filter_length_firstn {A : Type} (f : A -> bool) (n : nat) (l : list A) :
  firstn n (filter f (firstn n l)) = filter f (firstn n l).
Proof.
  apply firstn_all2.
  pose proof (filter_length_le f (firstn n l)). pose proof (firstn_le_length n l).
  lia.
Qed.

Lemma filter_none {A : Type} (f : A -> bool) (l : list A) :
  (forall x, In x l -> f x = false) -> filter f l = [].
Proof.
  induction l as [|a l IH]; intros H; [reflexivity|].
  cbn [filter]. rewrite (H a (or_introl eq_refl)).
  apply IH. intros x Hx. apply H. now right.
Qed.

(** X6.  The build formatter skips the repositories without runs: its
    output is the one for the repositories, among the first four, that have
    a run.  A repository has no run when the fetch fails, when the body has
    no [workflow_runs] key or when the list is empty; when none of the four
    has one, the output is the fallback sentence. *)
Theorem build_status_skips_repos_without_runs (w : World) (repos : list Repo) :
  format_build_status w repos
  = format_build_status w (filter (has_runs w) (firstn 4 repos))
  /\ ((forall repo, In repo (firstn 4 repos) -> has_runs w repo = false) ->
      format_build_status w repos = Ok (L "No recent builds found."))
  /\ (forall repo,
        has_runs w repo = false
        <-> status_code (http_workflow_runs w (repo_full_name repo) 2) <> 200
            \/ json (http_workflow_runs w (repo_full_name repo) 2) = None
            \/ json (http_workflow_runs w (repo_full_name repo) 2) = Some []).
Proof.
  assert (Hfilter : format_build_status w repos
                    = format_build_status w (filter (has_runs w) (firstn 4 repos))).
  { unfold format_build_status.
    rewrite filter_length_firstn, <- build_loop_filter. reflexivity. }
  split; [exact Hfilter|]. split.
  - intros Hnone. rewrite Hfilter.
    rewrite (filter_none _ _ Hnone). reflexivity.
  - intros repo. unfold has_runs, get_workflow_runs.
    destruct (http_workflow_runs w (repo_full_name repo) 2) as [code body].
    cbn [status_code json].
    destruct (Z.eqb_spec code 200) as [->|Hne]; cbn [negb].
    + destruct body as [[|run runs]|]; split; intros H; try reflexivity;
        try discriminate; try (now right; left); try (now right; right).
      destruct H as [H|[H|H]]; [congruence|discriminate|discriminate].
    + split; [now left|reflexivity].
Qed.

(** X7.  A repository whose releases cannot be fetched, or that has none,
    adds nothing to the releases: the collected list and the output are
    those for the repositories, among the first five, that have a release,
    and the fallback sentence when there is none. *)
Theorem releases_skip_failed_fetches (w : World) (repos : list Repo) :
  ((forall repo, In repo (firstn 5 repos) -> has_releases w repo = false) ->
   format_latest_releases w repos = Ok (L "No recent releases found."))
  /\ (forall repo,
        status_code (http_releases w (repo_full_name repo) 2) <> 200 ->
        has_releases w repo = false)
  /\ collect_releases w repos
     = collect_releases w (filter (has_releases w) (firstn 5 repos))
  /\ format_latest_releases w repos
     = format_latest_releases w (filter (has_releases w) (firstn 5 repos)).
Proof.
  assert (Hc : forall l,
             flat_map
               (fun repo =>
                  map (fun release =>
                         mkReleaseData (repo_name repo) (release_tag_name release)
                           (get_default (release_name release)
                                        (release_tag_name release))
                           (release_html_url release)
                           (release_published_at release)
                           (release_prerelease release))
                      (get_repo_releases w (repo_full_name repo) 2)) l
             = flat_map
               (fun repo =>
                  map (fun release =>
                         mkReleaseData (repo_name repo) (release_tag_name release)
                           (get_default (release_name release)
                                        (release_tag_name release))
                           (release_html_url release)
                           (release_published_at release)
                           (release_prerelease release))
                      (get_repo_releases w (repo_full_name repo) 2))
               (filter (has_releases w) l)).
  { induction l as [|repo l IH]; [reflexivity|].
    cbn [flat_map filter]. unfold has_releases at 1.
    destruct (get_repo_releases w (repo_full_name repo) 2) as [|r rs] eqn:E.
    - cbn [map app]. exact IH.
    - cbn [flat_map]. rewrite E, IH. reflexivity. }
  assert (Hcollect : collect_releases w repos
                     = collect_releases w (filter (has_releases w) (firstn 5 repos))).
  { unfold collect_releases. rewrite filter_length_firstn. apply Hc. }
  split.
  - intros Hnone.
    assert (E : collect_releases w repos = []).
    { rewrite Hcollect.
      rewrite (filter_none _ _ Hnone). reflexivity. }
    unfold format_latest_releases, sorted_releases. rewrite E. reflexivity.
  - split.
    + intros repo Hst. unfold has_releases, get_repo_releases.
      apply Z.eqb_neq in Hst. rewrite Hst. reflexivity.
    + split; [exact Hcollect|].
      unfold format_latest_releases, shown_releases, sorted_releases.
      rewrite Hcollect. reflexivity.
Qed.

(** ** The emoji of a run *)

(** X8.  The emoji of a run is looked up under its conclusion when that
    is a non-empty string, and under its status otherwise (conclusion
    missing, [null] or empty).  The table has four keys; any other key, and
    [None], give the question mark.  The entry of a run is the emoji, the
    name, the branch and the text for the age. *)
Theorem status_emoji_precedence (run : WorkflowRun) :
  (forall c s, run_conclusion run = JStr (c :: s) ->
               status_emoji_of run
               = dict_get status_emoji_table (Some (c :: s)) [0x2753%N])
  /\ (run_conclusion run = Absent \/ run_conclusion run = JNull
      \/ run_conclusion run = JStr [] ->
      status_emoji_of run
      = dict_get status_emoji_table (get (run_status run)) [0x2753%N])
  /\ dict_get status_emoji_table None [0x2753%N] = [0x2753%N]
  /\ (forall key,
        dict_get status_emoji_table (Some key) [0x2753%N]
        = if str_eqb (L "success") key then [0x2705%N]
          else if str_eqb (L "failure") key then [0x274C%N]
          else if str_eqb (L "cancelled") key then [0x26A0%N; 0xFE0F%N]
          else if str_eqb (L "in_progress") key then [0x1F7E1%N]
          else [0x2753%N])
  /\ In (status_emoji_of run)
        [[0x2705%N]; [0x274C%N]; [0x26A0%N; 0xFE0F%N]; [0x1F7E1%N]; [0x2753%N]]
  /\ (forall c d,
        fromisoformat (replace (run_created_at run) (L "Z") (L "+00:00")) = Ok d ->
        exists days,
          days_since c d = Ok days
          /\ build_entry c run
             = Ok (L "   " ++ status_emoji_of run ++ L " " ++ run_name run
                   ++ L " on `" ++ run_head_branch run ++ L "` " ++ [0x2022%N]
                   ++ L " " ++ build_time_str days)).
Proof.
  assert (Htable : forall key,
        dict_get status_emoji_table (Some key) [0x2753%N]
        = if str_eqb (L "success") key then [0x2705%N]
          else if str_eqb (L "failure") key then [0x274C%N]
          else if str_eqb (L "cancelled") key then [0x26A0%N; 0xFE0F%N]
          else if str_eqb (L "in_progress") key then [0x1F7E1%N]
          else [0x2753%N]).
  { intros key. reflexivity. }
  split.
  { intros c s H. unfold status_emoji_of. rewrite H. reflexivity. }
  split.
  { intros H. unfold status_emoji_of.
    destruct H as [H|[H|H]]; rewrite H; reflexivity. }
  split; [reflexivity|]. split; [exact Htable|]. split.
  { unfold status_emoji_of.
    destruct (py_or (get (run_conclusion run)) (get (run_status run))) as [key|].
    - rewrite Htable.
      destruct (str_eqb _ key); [now left|].
      destruct (str_eqb _ key); [now right; left|].
      destruct (str_eqb _ key); [now right; right; left|].
      destruct (str_eqb _ key); [now right; right; right; left|].
      now right; right; right; right; left.
    - now right; right; right; right; left. }
  intros c d Hd. eexists. split; [apply days_since_total|].
  unfold build_entry. rewrite Hd. cbn [bind]. rewrite days_since_total.
  cbn [bind]. reflexivity.
Qed.

(** ** The name of a release *)

Lemma insert_desc_map {A B : Type} (f : A -> B) (ltb : A -> A -> bool)
      (ltb' : B -> B -> bool) (x : A) (l : list A) :
  (forall a b, ltb' (f a) (f b) = ltb a b) ->
  map f (insert_desc ltb x l) = insert_desc ltb' (f x) (map f l).
Proof.
  intros H. induction l as [|y l IH]; [reflexivity|].
  cbn [insert_desc map]. rewrite H. destruct (ltb x y); cbn [map]; [|reflexivity].
  now rewrite IH.
Qed.

Lemma sort_desc_map {A B : Type} (f : A -> B) (ltb : A -> A -> bool)
      (ltb' : B -> B -> bool) (l : list A) :
  (forall a b, ltb' (f a) (f b) = ltb a b) ->
  map f (sort_desc ltb l) = sort_desc ltb' (map f l).
Proof.
  intros H. induction l as [|x l IH]; [reflexivity|].
  cbn [sort_desc fold_right map]. fold (sort_desc ltb l).
  fold (sort_desc ltb' (map f l)).
  rewrite (insert_desc_map f ltb ltb' x _ H), IH. reflexivity.
Qed.

Lemma for_each_map {A B C : Type} (g : A -> B) (body : B -> result C) (l : list A) :
  for_each body (map g l) = for_each (fun a => body (g a)) l.
Proof.
  induction l as [|a l IH]; [reflexivity|].
  cbn [map for_each]. now rewrite IH.
Qed.

Lemma release_entry_without_name (c : Clock) (r : release_data) :
  release_entry c (without_name r) = release_entry c r.
Proof. reflexivity. Qed.

Lemma render_without_names (c : Clock) (l : list release_data) :
  for_each (release_entry c) (firstn 5 (map without_name l))
  = for_each (release_entry c) (firstn 5 l).
Proof. rewrite firstn_map, for_each_map. reflexivity. Qed.

Lemma collect_without_names (name_of : Release -> jfield) (w : World)
      (repos : list Repo) :
  map without_name (collect_releases (with_release_names name_of w) repos)
  = map without_name (collect_releases w repos).
Proof.
  unfold collect_releases.
  induction (firstn 5 repos) as [|repo l IH]; [reflexivity|].
  cbn [flat_map]. rewrite !map_app, IH. f_equal.
  unfold get_repo_releases, with_release_names.
  cbn [http_releases status_code json].
  destruct (negb _); [reflexivity|].
  rewrite !map_map. reflexivity.
Qed.

(** X9.  The display name of a release is stored and never rendered: the
    output of the releases formatter is the same whatever the names of the
    fetched releases are. *)
Theorem release_name_is_not_rendered (name_of : Release -> jfield) (w : World)
        (repos : list Repo) :
  format_latest_releases (with_release_names name_of w) repos
  = format_latest_releases w repos.
Proof.
  assert (Hsorted :
            map without_name (sorted_releases (with_release_names name_of w) repos)
            = map without_name (sorted_releases w repos)).
  { unfold sorted_releases.
    rewrite !(sort_desc_map without_name published_before published_before)
      by reflexivity.
    now rewrite collect_without_names. }
  unfold format_latest_releases, shown_releases.
  cbn [clock with_release_names].
  rewrite <- (render_without_names (clock w)
                (sorted_releases (with_release_names name_of w) repos)).
  rewrite <- (render_without_names (clock w) (sorted_releases w repos)).
  rewrite Hsorted.
  destruct (sorted_releases (with_release_names name_of w) repos) as [|r rs];
    destruct (sorted_releases w repos) as [|r' rs']; try discriminate; reflexivity.
Qed.

(** ** The table of the languages *)

Lemma str_eqb_refl (a : str) : str_eqb a a = true.
Proof. now apply str_eqb_eq. Qed.

Lemma str_eqb_neq (a b : str) : str_eqb a b = false <-> a <> b.
Proof.
  split.
  - intros H E. apply str_eqb_eq in E. congruence.
  - intros H. destruct (str_eqb a b) eqn:E; [|reflexivity].
    apply str_eqb_eq in E. contradiction.
Qed.

Lemma stats_get_increment (language k : str) (stats : list (str * Z)) :
  stats_get language (increment k stats)
  = if str_eqb k language
    then Some (match stats_get language stats with Some n => n + 1 | None => 1 end)
    else stats_get language stats.
Proof.
  induction stats as [|[k' n] rest IH]; cbn [increment stats_get].
  - destruct (str_eqb k language); reflexivity.
  - destruct (str_eqb k' k) eqn:Ek; cbn [stats_get].
    + apply str_eqb_eq in Ek. subst k'.
      destruct (str_eqb k language); reflexivity.
    + destruct (str_eqb k' language) eqn:El.
      * apply str_eqb_eq in El. subst k'.
        apply str_eqb_neq in Ek.
        assert (E : str_eqb k language = false) by (apply str_eqb_neq; congruence).
        now rewrite E.
      * exact IH.
Qed.

Lemma stats_get_None (language : str) (stats : list (str * Z)) :
  stats_get language stats = None <-> ~ In language (map fst stats).
Proof.
  induction stats as [|[k n] rest IH]; cbn [stats_get map fst In].
  - tauto.
  - destruct (str_eqb k language) eqn:E.
    + apply str_eqb_eq in E. split; [discriminate|]. intros H. exfalso. tauto.
    + apply str_eqb_neq in E. rewrite IH. tauto.
Qed.

Lemma stats_get_In (language : str) (n : Z) (stats : list (str * Z)) :
  NoDup (map fst stats) ->
  In (language, n) stats -> stats_get language stats = Some n.
Proof.
  induction stats as [|[k m] rest IH]; cbn [stats_get map fst In]; [tauto|].
  intros Hnd [H|H].
  - inversion H; subst. now rewrite str_eqb_refl.
  - inversion Hnd as [|? ? Hnot Hrest]; subst.
    destruct (str_eqb k language) eqn:E.
    + apply str_eqb_eq in E. subst k. exfalso. apply Hnot.
      change language with (fst (language, n)). now apply in_map.
    + now apply IH.
Qed.

Lemma stats_get_Some_In (language : str) (n : Z) (stats : list (str * Z)) :
  stats_get language stats = Some n -> In (language, n) stats.
Proof.
  induction stats as [|[k m] rest IH]; cbn [stats_get In]; [discriminate|].
  destruct (str_eqb k language) eqn:E.
  - apply str_eqb_eq in E. intros H. left. congruence.
  - intros H. right. now apply IH.
Qed.

Lemma increment_keys (k : str) (stats : list (str * Z)) :
  map fst (increment k stats)
  = if existsb (fun key => str_eqb key k) (map fst stats)
    then map fst stats else map fst stats ++ [k].
Proof.
  induction stats as [|[k' n] rest IH]; cbn [increment map fst existsb app];
    [reflexivity|].
  destruct (str_eqb k' k); cbn [orb map fst]; [reflexivity|].
  rewrite IH. now destruct (existsb _ _).
Qed.

Lemma increment_NoDup (k : str) (stats : list (str * Z)) :
  NoDup (map fst stats) -> NoDup (map fst (increment k stats)).
Proof.
  intros H. rewrite increment_keys.
  destruct (existsb _ _) eqn:E; [exact H|].
  apply NoDup_app; [exact H|repeat constructor; intros []|].
  intros key Hin [Hk|[]]. subst key.
  assert (existsb (fun key => str_eqb key k) (map fst stats) = true).
  { apply existsb_exists. exists k. split; [exact Hin|apply str_eqb_refl]. }
  congruence.
Qed.

Lemma increment_keys_nonempty (k : str) (stats : list (str * Z)) :
  k <> [] -> Forall (fun key => key <> []) (map fst stats) ->
  Forall (fun key => key <> []) (map fst (increment k stats)).
Proof.
  intros Hk H. rewrite increment_keys. destruct (existsb _ _); [exact H|].
  apply Forall_app. split; [exact H|]. now repeat constructor.
Qed.

Lemma count_language_get (language : str) (stats : list (str * Z)) (repo : Repo) :
  stats_get language (count_language stats repo)
  = if has_language language repo
    then Some (match stats_get language stats with Some n => n + 1 | None => 1 end)
    else stats_get language stats.
Proof.
  unfold count_language, has_language.
  destruct (get (repo_language repo)) as [s|]; [|reflexivity].
  destruct (truthy (Some s)); cbn [andb]; [|reflexivity].
  apply stats_get_increment.
Qed.

Lemma count_language_keys (stats : list (str * Z)) (repo : Repo) :
  NoDup (map fst stats) /\ Forall (fun key => key <> []) (map fst stats) ->
  NoDup (map fst (count_language stats repo))
  /\ Forall (fun key => key <> []) (map fst (count_language stats repo)).
Proof.
  intros [Hnd Hne]. unfold count_language.
  destruct (get (repo_language repo)) as [s|]; [|now split].
  destruct s as [|c s]; cbn [truthy]; [now split|].
  split; [now apply increment_NoDup|].
  apply increment_keys_nonempty; [discriminate|exact Hne].
Qed.

Lemma fold_count_language_get (language : str) (repos : list Repo)
      (stats : list (str * Z)) :
  stats_get language (fold_left count_language repos stats)
  = match stats_get language stats with
    | Some n => Some (n + repos_in language repos)
    | None => if repos_in language repos =? 0 then None
              else Some (repos_in language repos)
    end.
Proof.
  unfold repos_in.
  revert stats; induction repos as [|repo repos IH]; intros stats;
    cbn [fold_left filter].
  - cbn [length]. destruct (stats_get language stats); [f_equal; lia|reflexivity].
  - rewrite IH, count_language_get.
    destruct (has_language language repo); [|reflexivity].
    cbn [length].
    destruct (stats_get language stats) as [n|].
    + f_equal. lia.
    + destruct (_ =? 0) eqn:E.
      * apply Z.eqb_eq in E.
        destruct (Z.of_nat (S _) =? 0) eqn:E'; [apply Z.eqb_eq in E'; lia|].
        f_equal. lia.
      * destruct (Z.of_nat (S _) =? 0) eqn:E'; [apply Z.eqb_eq in E'; lia|].
        f_equal. lia.
Qed.

Lemma fold_count_language_keys (repos : list Repo) (stats : list (str * Z)) :
  NoDup (map fst stats) /\ Forall (fun key => key <> []) (map fst stats) ->
  NoDup (map fst (fold_left count_language repos stats))
  /\ Forall (fun key => key <> []) (map fst (fold_left count_language repos stats)).
Proof.
  revert stats; induction repos as [|repo repos IH]; intros stats H;
    cbn [fold_left]; [exact H|].
  apply IH. now apply count_language_keys.
Qed.

Lemma has_language_declares (language : str) (repo : Repo) :
  has_language language repo = true -> declares_language repo = true.
Proof.
  unfold has_language, declares_language.
  destruct (get (repo_language repo)) as [s|]; [|discriminate].
  intros H. now apply andb_prop in H.
Qed.

(** X10.  The table of the languages holds, for each language, the
    number of repositories whose language is that non-empty string: a
    language is a key exactly when some repository has it, no key occurs
    twice, no count is below 1, and the table is empty exactly when no
    repository declares a language. *)
Theorem language_table_counts (repos : list Repo) :
  (forall language,
     stats_get language (language_stats repos)
     = if repos_in language repos =? 0 then None
       else Some (repos_in language repos))
  /\ NoDup (map fst (language_stats repos))
  /\ (forall language n,
        In (language, n) (language_stats repos) ->
        language <> [] /\ 1 <= n /\ n = repos_in language repos)
  /\ (forall repo language,
        In repo repos -> repo_language repo = JStr language -> language <> [] ->
        In (language, repos_in language repos) (language_stats repos))
  /\ (language_stats repos = []
      <-> forall repo, In repo repos -> declares_language repo = false).
Proof.
  assert (Hget : forall language,
     stats_get language (language_stats repos)
     = if repos_in language repos =? 0 then None
       else Some (repos_in language repos)).
  { intros language. unfold language_stats.
    now rewrite fold_count_language_get. }
  destruct (fold_count_language_keys repos []) as [Hnd Hne];
    [split; constructor|].
  fold (language_stats repos) in Hnd, Hne.
  split; [exact Hget|]. split; [exact Hnd|]. split; [|split].
  - intros language n Hin.
    pose proof (stats_get_In language n _ Hnd Hin) as E.
    rewrite Hget in E.
    destruct (_ =? 0) eqn:E0; [discriminate|]. apply Z.eqb_neq in E0.
    assert (n = repos_in language repos) by congruence.
    split; [|unfold repos_in in *; lia].
    rewrite Forall_forall in Hne. apply Hne.
    change language with (fst (language, n)). now apply in_map.
  - intros repo language Hin Hlang Hne'.
    apply stats_get_Some_In. rewrite Hget.
    assert (Hpos : 0 < repos_in language repos).
    { unfold repos_in.
      assert (Hf : In repo (filter (has_language language) repos)).
      { apply filter_In. split; [exact Hin|].
        unfold has_language. rewrite Hlang. cbn [get].
        destruct language; [congruence|]. cbn [truthy andb].
        apply str_eqb_refl. }
      destruct (filter (has_language language) repos); [destruct Hf|].
      cbn [length]. lia. }
    destruct (_ =? 0) eqn:E0; [apply Z.eqb_eq in E0; lia|reflexivity].
  - pose proof (fold_count_language_total repos []) as Ht.
    fold (language_stats repos) in Ht. cbn in Ht.
    split.
    + intros E repo Hin. rewrite E in Ht. cbn in Ht.
      unfold declared_count in Ht.
      destruct (declares_language repo) eqn:Ed; [|reflexivity].
      assert (Hf : In repo (filter declares_language repos))
        by (apply filter_In; now split).
      destruct (filter declares_language repos); [destruct Hf|].
      cbn [length] in Ht. lia.
    + intros Hall.
      destruct (language_stats repos) as [|[k n] rest] eqn:E; [reflexivity|].
      exfalso.
      assert (Hin : In (k, n) ((k, n) :: rest)) by now left.
      pose proof (stats_get_In k n _ Hnd Hin) as Eg. rewrite Hget in Eg.
      destruct (_ =? 0) eqn:E0; [discriminate|]. apply Z.eqb_neq in E0.
      unfold repos_in in E0.
      destruct (filter (has_language k) repos) as [|repo rs] eqn:Ef;
        [cbn in E0; lia|].
      assert (Hf : In repo (filter (has_language k) repos))
        by (rewrite Ef; now left).
      apply filter_In in Hf. destruct Hf as [Hin' Hl].
      apply has_language_declares in Hl. rewrite (Hall repo Hin') in Hl.
      discriminate.
Qed.

(** ** The order of the languages *)

Lemma increment_keys_order (language : str) (stats : list (str * Z)) :
  map fst (increment language stats)
  = if has_key stats language then map fst stats
    else map fst stats ++ [language].
Proof.
  induction stats as [|[k n] rest IH]; [reflexivity|].
  cbn [increment has_key existsb fst].
  destruct (str_eqb k language) eqn:E; cbn [orb map fst]; [reflexivity|].
  rewrite IH. fold (has_key rest language).
  destruct (has_key rest language); reflexivity.
Qed.

Lemma has_key_app (stats : list (str * Z)) (k : str) (n : Z) (key : str) :
  has_key (stats ++ [(k, n)]) key = has_key stats key || str_eqb k key.
Proof.
  unfold has_key. rewrite existsb_app. cbn [existsb fst]. now rewrite orb_false_r.
Qed.

Lemma has_key_map (stats stats' : list (str * Z)) (key : str) :
  map fst stats = map fst stats' -> has_key stats key = has_key stats' key.
Proof.
  revert stats'; induction stats as [|[k n] rest IH]; intros [|[k' n'] rest'] H;
    try discriminate; [reflexivity|].
  cbn [map fst] in H. injection H as -> H. cbn [has_key existsb fst].
  f_equal. now apply IH.
Qed.

Lemma filter_twice {A : Type} (f g : A -> bool) (l : list A) :
  filter f (filter g l) = filter (fun a => g a && f a) l.
Proof.
  induction l as [|a l IH]; [reflexivity|]. cbn [filter].
  destruct (g a); cbn [filter andb]; [destruct (f a)|]; now rewrite IH.
Qed.

(** The keys of the table after the loop: the keys it had, then the
    languages that are new, each where the list first mentions it. *)
Lemma count_keys_order (repos : list Repo) (stats : list (str * Z)) :
  map fst (fold_left count_language repos stats)
  = map fst stats
    ++ filter (fun language => negb (has_key stats language))
              (first_mentions (declared_languages repos)).
Proof.
  revert stats; induction repos as [|repo repos IH]; intros stats.
  - cbn. now rewrite app_nil_r.
  - cbn [fold_left]. rewrite IH. unfold declared_languages. cbn [flat_map].
    fold (declared_languages repos).
    unfold count_language, declared_language.
    destruct (get (repo_language repo)) as [language|]; [|reflexivity].
    destruct (truthy (Some language)); [|reflexivity].
    cbn [app first_mentions filter]. rewrite increment_keys_order.
    rewrite filter_twice.
    destruct (has_key stats language) eqn:Hk; cbn [negb].
    + f_equal. apply filter_ext. intros t.
      rewrite (has_key_map (increment language stats) stats).
      2:{ rewrite increment_keys_order, Hk. reflexivity. }
      destruct (has_key stats t) eqn:Ht; cbn [negb]; [now rewrite andb_false_r|].
      rewrite andb_true_r. destruct (str_eqb t language) eqn:E; [|reflexivity].
      apply str_eqb_eq in E. congruence.
    + rewrite <- app_assoc. cbn [app]. f_equal. f_equal. apply filter_ext.
      intros t.
      rewrite (has_key_map (increment language stats) (stats ++ [(language, 1)])).
      2:{ rewrite increment_keys_order, Hk, map_app. reflexivity. }
      rewrite has_key_app, negb_orb.
      assert (E : str_eqb language t = str_eqb t language).
      { destruct (str_eqb t language) eqn:E1.
        - apply str_eqb_eq in E1. subst. now apply str_eqb_eq.
        - destruct (str_eqb language t) eqn:E2; [|reflexivity].
          apply str_eqb_eq in E2. subst.
          assert (str_eqb t t = true) by now apply str_eqb_eq. congruence. }
      rewrite E. apply andb_comm.
Qed.

Lemma language_stats_order (repos : list Repo) :
  map fst (language_stats repos) = first_mentions (declared_languages repos).
Proof.
  unfold language_stats. rewrite count_keys_order. cbn [map app has_key existsb negb].
  induction (first_mentions (declared_languages repos)) as [|a l IH]; [reflexivity|].
  cbn [filter]. now rewrite IH.
Qed.

Lemma same_count (item entry : str * Z) :
  same_key count_below item entry = (snd entry =? snd item).
Proof.
  unfold same_key, count_below.
  destruct (snd item <? snd entry) eqn:E1; destruct (snd entry <? snd item) eqn:E2;
    destruct (snd entry =? snd item) eqn:E3; cbn [negb andb]; try reflexivity;
    rewrite ?Z.ltb_lt, ?Z.ltb_ge, ?Z.eqb_eq, ?Z.eqb_neq in *; lia.
Qed.

(** In a table without repeated keys the keys of the entries with a given
    count are the keys whose count it is. *)
Lemma keys_with_count (count : Z) (stats : list (str * Z)) :
  NoDup (map fst stats) ->
  map fst (filter (fun entry => snd entry =? count) stats)
  = filter (fun language => match stats_get language stats with
                            | Some n => n =? count
                            | None => false
                            end)
           (map fst stats).
Proof.
  induction stats as [|[k n] rest IH]; intros Hnd; [reflexivity|].
  inversion Hnd as [|? ? Hnot Hrest]; subst.
  cbn [filter map fst snd stats_get]. rewrite str_eqb_refl.
  assert (E : filter (fun language =>
                        match (if str_eqb k language then Some n
                               else stats_get language rest) with
                        | Some n0 => n0 =? count
                        | None => false
                        end) (map fst rest)
              = filter (fun language => match stats_get language rest with
                                        | Some n0 => n0 =? count
                                        | None => false
                                        end) (map fst rest)).
  { apply filter_ext_in. intros language Hin.
    destruct (str_eqb k language) eqn:Ek; [|reflexivity].
    apply str_eqb_eq in Ek. subst. contradiction. }
  rewrite E, <- (IH Hrest).
  destruct (n =? count); reflexivity.
Qed.

(** X1.  The languages rendered are the first eight of the table sorted by
    count in descending order.  The table lists the languages in the order
    in which the repository list first mentions them, and sorting keeps
    that order among languages of equal count: the languages with a given
    count are rendered in the order of their first mention. *)
Theorem languages_top8_order (repos : list Repo) :
  StronglySorted (not_below count_below) (firstn 8 (sorted_languages repos))
  /\ (length (firstn 8 (sorted_languages repos)) <= 8)%nat
  /\ Permutation (language_stats repos) (sorted_languages repos)
  /\ (forall item,
        filter (same_key count_below item) (sorted_languages repos)
        = filter (same_key count_below item) (language_stats repos))
  /\ (language_stats repos <> [] ->
      format_org_languages repos
      = join (L " " ++ [0x2022%N] ++ L " ")
             (map (language_entry repos) (firstn 8 (sorted_languages repos))))
  /\ map fst (language_stats repos) = first_mentions (declared_languages repos)
  /\ (forall item,
        map fst (filter (same_key count_below item) (sorted_languages repos))
        = filter (fun language => repos_in language repos =? snd item)
                 (first_mentions (declared_languages repos))).
Proof.
  assert (Hstable : forall item,
            filter (same_key count_below item) (sorted_languages repos)
            = filter (same_key count_below item) (language_stats repos)).
  { intros item. apply sort_desc_stable. exact count_below_ntrans. }
  split.
  { apply firstn_sorted. apply sort_desc_sorted;
      [exact count_below_asym|exact count_below_ntrans]. }
  split; [apply firstn_le_length|].
  split; [apply sort_desc_perm|].
  split; [exact Hstable|].
  split.
  { intros Hne. unfold format_org_languages.
    destruct (language_stats repos); [congruence|reflexivity]. }
  split; [apply language_stats_order|].
  intros item. rewrite Hstable.
  rewrite (filter_ext _ _ (same_count item)).
  destruct (fold_count_language_keys repos []) as [Hnd _]; [split; constructor|].
  fold (language_stats repos) in Hnd.
  rewrite (keys_with_count _ _ Hnd), language_stats_order.
  apply filter_ext_in. intros language Hin.
  rewrite <- language_stats_order in Hin.
  unfold language_stats at 1. rewrite fold_count_language_get. cbn [stats_get].
  destruct (repos_in language repos =? 0) eqn:E0; [|reflexivity].
  exfalso. revert Hin. apply stats_get_None.
  unfold language_stats. rewrite fold_count_language_get. cbn [stats_get].
  now rewrite E0.
Qed.

(** ** The timestamp marker after a run *)

Lemma index_of_absent (s sub : str) :
  (forall j, startswith (skipn j s) sub = false) -> index_of s sub = None.
Proof.
  intros H. destruct (index_of s sub) as [i|] eqn:E; [|reflexivity].
  destruct (index_of_Some _ _ _ E) as (H1 & _). rewrite H in H1. discriminate.
Qed.

(** The characters of an occurrence. *)
Lemma startswith_nth (s p : str) (j k : nat) :
  startswith (skipn j s) p = true -> (k < length p)%nat ->
  nth_error s (j + k) = nth_error p k.
Proof.
  intros H Hk. apply startswith_true in H.
  rewrite <- (firstn_skipn j s) at 1.
  assert (Hj : (j <= length s)%nat).
  { destruct (Nat.le_gt_cases j (length s)) as [Hle|Hgt]; [exact Hle|].
    rewrite skipn_all2 in H by lia. destruct p; [cbn in Hk; lia|discriminate]. }
  rewrite nth_error_app2 by (rewrite length_firstn; lia).
  rewrite length_firstn.
  replace (j + k - Nat.min j (length s))%nat with k by lia.
  rewrite H. now rewrite nth_error_app1.
Qed.

(** [str.replace] leaves no occurrence of [old] when [new] does not hold
    the first character of [old] and [old] does not hold the first
    character of [new]. *)
Lemma replaced_all_consumes (c d : N) (old' new' s s' : str) :
  ~ In c (d :: new') -> ~ In d (c :: old') ->
  replaced_all (c :: old') (d :: new') s s' ->
  index_of s' (c :: old') = None.
Proof.
  intros Hc Hd H. apply index_of_absent.
  induction H as [s E|s i rest' E H IH]; intros j.
  - now apply index_of_None.
  - destruct (startswith (skipn j _) (c :: old')) eqn:Es; [exfalso|reflexivity].
    destruct (index_of_Some _ _ _ E) as (H1 & H2 & H3).
    assert (Hl : length (firstn i s) = i) by (apply firstn_length_le; lia).
    set (out := firstn i s ++ (d :: new') ++ rest') in *.
    destruct (Nat.le_gt_cases (j + length (c :: old')) i) as [Ha|Ha].
    { assert (Hpre : firstn i out = firstn i s).
      { unfold out. rewrite firstn_app_left by lia.
        now rewrite firstn_firstn, Nat.min_id. }
      rewrite (startswith_shared_prefix out s (c :: old') j i Hpre Ha) in Es.
      rewrite H3 in Es; [discriminate|]. cbn [length] in Ha. lia. }
    destruct (Nat.le_gt_cases i j) as [Hb|Hb].
    + destruct (Nat.le_gt_cases (i + length (d :: new')) j) as [Hb'|Hb'].
      * assert (Hsk : skipn j out = skipn (j - i - length (d :: new')) rest').
        { unfold out. rewrite app_assoc.
          replace j with ((j - i - length (d :: new'))
                          + length (firstn i s ++ d :: new'))%nat at 1
            by (rewrite length_app, Hl; lia).
          rewrite <- skipn_skipn.
          rewrite skipn_app, skipn_all, Nat.sub_diag. reflexivity. }
        rewrite Hsk, IH in Es. discriminate.
      * pose proof (startswith_nth out (c :: old') j 0 Es) as Hn.
        rewrite Nat.add_0_r in Hn. cbn [length nth_error] in Hn.
        specialize (Hn ltac:(lia)).
        unfold out in Hn. rewrite nth_error_app2 in Hn by lia.
        rewrite Hl in Hn. rewrite nth_error_app1 in Hn by lia.
        apply nth_error_In in Hn. contradiction.
    + pose proof (startswith_nth out (c :: old') j (i - j) Es) as Hn.
      specialize (Hn ltac:(lia)).
      replace (j + (i - j))%nat with i in Hn by lia.
      unfold out in Hn. rewrite nth_error_app2 in Hn by lia.
      rewrite Hl, Nat.sub_diag in Hn. cbn [app nth_error] in Hn.
      symmetry in Hn. apply nth_error_In in Hn. contradiction.
Qed.

Lemma uint_digits (u : Decimal.uint) :
  Forall (fun c => is_digit c = true)
         (lit (DecimalString.NilEmpty.string_of_uint u)).
Proof.
  induction u; cbn [DecimalString.NilEmpty.string_of_uint lit];
    constructor; try reflexivity; assumption.
Qed.

Lemma uint_digits_nonempty (u : Decimal.uint) :
  exists c rest,
    lit (DecimalString.NilZero.string_of_uint u) = c :: rest
    /\ Forall (fun c => is_digit c = true) (c :: rest).
Proof.
  pose proof (uint_digits u) as H.
  destruct u; cbn [DecimalString.NilZero.string_of_uint];
    cbn [DecimalString.NilEmpty.string_of_uint lit] in *;
    eexists; eexists; (split; [reflexivity|]);
    try exact H.
  repeat constructor.
Qed.

Lemma str_of_int_digits (n : Z) :
  0 <= n ->
  exists c rest, str_of_int n = c :: rest
                 /\ Forall (fun c => is_digit c = true) (c :: rest).
Proof.
  intros Hn. unfold str_of_int.
  destruct n as [|p|p]; [| |lia]; cbn [Z.to_int DecimalString.NilZero.string_of_int];
    apply uint_digits_nonempty.
Qed.

Lemma digit_in_alphabet (c : N) :
  is_digit c = true -> in_alphabet timestamp_alphabet c = true.
Proof.
  unfold is_digit, digit.
  destruct ((48 <=? c)%N && (c <=? 57)%N) eqn:E; [|discriminate].
  intros _. apply andb_prop in E. destruct E as [E1 E2].
  apply N.leb_le in E1, E2.
  assert (H : (c = 48 \/ c = 49 \/ c = 50 \/ c = 51 \/ c = 52 \/ c = 53
               \/ c = 54 \/ c = 55 \/ c = 56 \/ c = 57)%N) by lia.
  repeat (destruct H as [H|H]; [subst c; reflexivity|]).
  subst c; reflexivity.
Qed.

Lemma str_of_int_alphabet (n : Z) :
  Forall (fun c => in_alphabet timestamp_alphabet c = true) (str_of_int n).
Proof.
  assert (Hu : forall u, Forall (fun c => in_alphabet timestamp_alphabet c = true)
                           (lit (DecimalString.NilZero.string_of_uint u))).
  { intros u. destruct (uint_digits_nonempty u) as (c & rest & E & H).
    rewrite E. eapply Forall_impl; [|exact H]. apply digit_in_alphabet. }
  unfold str_of_int.
  destruct n as [|p|p]; cbn [Z.to_int DecimalString.NilZero.string_of_int lit].
  - apply (Hu (Decimal.D0 Decimal.Nil)).
  - apply Hu.
  - constructor; [reflexivity|apply Hu].
Qed.

Lemma zfill_alphabet (width : nat) (s : str) :
  Forall (fun c => in_alphabet timestamp_alphabet c = true) s ->
  Forall (fun c => in_alphabet timestamp_alphabet c = true) (zfill width s).
Proof.
  intros H. unfold zfill. apply Forall_app. split; [|exact H].
  apply Forall_forall. intros c Hc. apply repeat_spec in Hc. now subst c.
Qed.

Lemma zfill_head_digit (width : nat) (s : str) (c : N) (rest : str) :
  s = c :: rest -> is_digit c = true ->
  exists c' rest', zfill width s = c' :: rest' /\ is_digit c' = true.
Proof.
  intros -> Hc. unfold zfill.
  destruct (width - length (c :: rest))%nat as [|k]; cbn [repeat app].
  - now exists c, rest.
  - eexists; eexists. split; [reflexivity|reflexivity].
Qed.

Lemma civil_from_days_year (z : Z) :
  0 <= z -> 0 <= fst (fst (civil_from_days z)).
Proof.
  intros Hz. unfold civil_from_days. cbn [fst].
  destruct (_ <=? 2); zdiv.
Qed.

(** Every character of a timestamp is a digit, a dash, a colon, a space or
    one of the letters of [UTC]. *)
Lemma strftime_alphabet (d : datetime) :
  Forall (fun c => in_alphabet timestamp_alphabet c = true) (strftime_utc_label d).
Proof.
  unfold strftime_utc_label.
  destruct (civil_from_days _) as [[y m] dd].
  repeat first [ apply zfill_alphabet, str_of_int_alphabet
               | apply Forall_app; split ];
    repeat constructor.
Qed.

(** From 1970 on a timestamp starts with a digit. *)
Lemma strftime_head (d : datetime) :
  0 <= wall d ->
  exists c rest, strftime_utc_label d = c :: rest /\ is_digit c = true.
Proof.
  intros Hw. unfold strftime_utc_label.
  pose proof (civil_from_days_year (wall d / us_per_day)) as Hy.
  destruct (civil_from_days _) as [[y m] dd]. cbn [fst] in Hy.
  assert (0 <= wall d / us_per_day) by (unfold us_per_day, us_per_second; zdiv).
  destruct (str_of_int_digits y (Hy H)) as (c & rest & E & Hd).
  inversion Hd as [|? ? Hc _]; subst.
  destruct (zfill_head_digit 4 _ c rest E Hc) as (c' & rest' & E' & Hc').
  rewrite E'. cbn [app]. now exists c', (rest' ++ L "-" ++ zfill 2 (str_of_int m) ++ L "-"
  ++ zfill 2 (str_of_int dd) ++ L " "
  ++ zfill 2 (str_of_int ((wall d mod us_per_day) / us_per_second / 3600)) ++ L ":"
  ++ zfill 2 (str_of_int (((wall d mod us_per_day) / us_per_second mod 3600) / 60)) ++ L ":"
  ++ zfill 2 (str_of_int ((wall d mod us_per_day) / us_per_second mod 60)) ++ L " UTC").
Qed.

Lemma apply_replacements_last (six : list (str * str)) (marker replacement content : str) :
  apply_replacements (six ++ [(marker, replacement)]) content
  = replace_marker (apply_replacements six content) marker replacement.
Proof. unfold apply_replacements. now rewrite fold_left_app. Qed.

Lemma in_alphabet_In (alphabet : str) (c : N) :
  in_alphabet alphabet c = true <-> In c alphabet.
Proof.
  unfold in_alphabet. rewrite existsb_exists. split.
  - intros (x & Hx & E). apply N.eqb_eq in E. now subst.
  - intros H. exists c. split; [exact H|apply N.eqb_refl].
Qed.

(** The timestamp step leaves no timestamp marker behind. *)
Lemma timestamp_step_consumes (c : Clock) (content : str) :
  0 <= now_us c + local_offset_us c ->
  contains (replace_marker content LAST_UPDATED
                           (strftime_utc_label (datetime_now c None)))
           LAST_UPDATED = false.
Proof.
  intros Hc.
  destruct (contains content LAST_UPDATED) eqn:E.
  - rewrite replace_marker_single by (exact E || reflexivity).
    apply contains_false.
    destruct (strftime_head (datetime_now c None) Hc) as (d & rest & Ets & Hd).
    pose proof (strftime_alphabet (datetime_now c None)) as Ha.
    pose proof (replace_all content LAST_UPDATED
                  (strftime_utc_label (datetime_now c None))) as Hr.
    rewrite Ets in *.
    change LAST_UPDATED with (60%N :: L "!-- LAST_UPDATED -->") in *.
    apply (replaced_all_consumes 60%N d _ rest content).
    + intros Hin. rewrite Forall_forall in Ha. specialize (Ha _ Hin).
      discriminate.
    + intros Hin. cbn in Hin.
      repeat (destruct Hin as [Hin|Hin]; [subst d; discriminate|]).
      destruct Hin.
    + apply Hr. discriminate.
  - now rewrite replace_marker_absent.
Qed.

Lemma Some_inj {A : Type} (a b : A) : Some a = Some b -> a = b.
Proof. intros H. now injection H. Qed.

Lemma update_readme_Ok_content (w : World) (out : str) :
  update_readme w = Ok (true, Some out) ->
  exists raw six,
    readme w = Some raw
    /\ out = write_text (linesep w)
               (replace_marker (apply_replacements six (read_text raw))
                               LAST_UPDATED
                               (strftime_utc_label (datetime_now (clock w) None))).
Proof.
  destruct (format_repository_activity (clock w) (get_org_repositories w 10))
    as [a|e] eqn:Ha;
    [|unfold update_readme; rewrite Ha; discriminate].
  destruct (format_build_status w (get_org_repositories w 10)) as [b|e] eqn:Hb;
    [|unfold update_readme; rewrite Ha; cbn [bind]; rewrite Hb; discriminate].
  destruct (format_latest_releases w (get_org_repositories w 10)) as [l|e] eqn:Hl;
    [|unfold update_readme; rewrite Ha; cbn [bind]; rewrite Hb; cbn [bind];
      rewrite Hl; discriminate].
  rewrite (update_readme_formatted w a b l Ha Hb Hl). unfold readme.
  destruct (document w) as [|e|raw e|raw e|raw]; intros H; try discriminate;
    (destruct (has_surrogate raw); [discriminate|]);
    try discriminate;
    (destruct (has_surrogate (apply_replacements _ _)); [discriminate|]);
    try discriminate.
  exists raw.
  exists [ (RECENT_ACTIVITY, a); (BUILD_STATUS, b);
           (TEAM_MEMBERS, format_team_members (get_org_members w));
           (ACTIVE_REPOS, format_active_repos (get_org_repositories w 10));
           (LATEST_RELEASES, l);
           (ORG_LANGUAGES, format_org_languages (get_org_repositories w 10)) ].
  split; [reflexivity|].
  rewrite <- apply_replacements_last.
  pose proof (Ok_inj _ _ H) as H'.
  pose proof (f_equal snd H') as H''. cbn [snd] in H''.
  symmetry. exact (Some_inj _ _ H'').
Qed.

(** X11.  After a run that rewrites the document (the clock at or after
    1970), the content written holds no timestamp marker: every occurrence
    has been turned into the timestamp, and the timestamp step of a later
    run on that content changes nothing. *)
Theorem timestamp_marker_is_consumed (w : World) (out : str) :
  0 <= now_us (clock w) + local_offset_us (clock w) ->
  update_readme w = Ok (true, Some out) ->
  exists content,
    out = write_text (linesep w) content
    /\ contains content LAST_UPDATED = false
    /\ (forall timestamp, replace_marker content LAST_UPDATED timestamp = content)
    /\ (linesep w = nl -> contains out LAST_UPDATED = false).
Proof.
  intros Hc H.
  destruct (update_readme_Ok_content w out H) as (raw & six & Hraw & Hout).
  eexists. split; [exact Hout|].
  pose proof (timestamp_step_consumes (clock w)
                (apply_replacements six (read_text raw)) Hc) as Hno.
  split; [exact Hno|]. split.
  - intros timestamp. now apply replace_marker_absent.
  - intros Hnl. rewrite Hout, Hnl, write_text_nl. exact Hno.
Qed.

(** The run on the one-line document at 13:30:45 local time. *)
Lemma timestamp_marker_is_consumed_witness :
  exists content,
    L "Last updated: 2024-01-15 13:30:45 UTC"
    = write_text (linesep (offline clock_cet (Some doc_timestamp))) content
    /\ contains content LAST_UPDATED = false
    /\ (forall timestamp, replace_marker content LAST_UPDATED timestamp = content)
    /\ (linesep (offline clock_cet (Some doc_timestamp)) = nl ->
        contains (L "Last updated: 2024-01-15 13:30:45 UTC") LAST_UPDATED = false).
Proof.
  apply (timestamp_marker_is_consumed (offline clock_cet (Some doc_timestamp))).
  - vm_compute. discriminate.
  - vm_compute. reflexivity.
Defined.

(** ** Updating a section twice *)

(** The first occurrence of [sub] in [pre ++ sub ++ post] is the one
    written out, when none starts inside [pre]. *)
Lemma index_of_app_first (pre sub post : str) :
  sub <> [] ->
  contains (pre ++ removelast sub) sub = false ->
  index_of (pre ++ sub ++ post) sub = Some (length pre).
Proof.
  intros Hne Hno. apply contains_false in Hno.
  pose proof (index_of_None _ _ Hno) as Hnone.
  destruct (exists_last Hne) as (body & x & Esub).
  assert (Hbody : removelast sub = body) by (rewrite Esub; apply removelast_last).
  rewrite Hbody in *.
  apply index_of_least.
  - rewrite skipn_app, skipn_all, Nat.sub_diag. cbn [app skipn].
    apply startswith_app.
  - rewrite length_app. lia.
  - intros j Hj.
    rewrite <- (Hnone j).
    apply (startswith_shared_prefix _ _ sub j (length pre + length body)).
    + rewrite Esub at 1. rewrite <- !app_assoc.
      rewrite firstn_app_exact.
      rewrite <- (app_nil_r (pre ++ body)) at 2.
      rewrite <- (app_assoc pre body []).
      rewrite firstn_app_exact. reflexivity.
    + rewrite Esub at 1. rewrite length_app. cbn [length]. lia.
Qed.

Lemma skipn_app_exact (a b : str) (n : nat) :
  n = length a -> skipn n (a ++ b) = b.
Proof. intros ->. rewrite skipn_app, skipn_all, Nat.sub_diag. reflexivity. Qed.

Lemma rerun_paired (content marker replacement replacement' : str) (i j : nat) :
  endswith marker (L "START -->") = true ->
  index_of content marker = Some i ->
  index_of content (end_marker_of marker) = Some j ->
  index_of (replace_marker content marker replacement) (end_marker_of marker)
  = Some (i + length marker + 1 + length replacement + 1)%nat ->
  replace_marker (replace_marker content marker replacement) marker replacement'
  = replace_marker content marker replacement'.
Proof.
  intros Hp Hi Hj Hk.
  pose proof (index_of_bound _ _ _ Hi) as Hbi.
  assert (Hl : length (firstn i content) = i) by (apply firstn_length_le; lia).
  destruct (splice_parts content marker replacement i j Hp Hi Hj) as [Hout _].
  destruct (splice_parts content marker replacement' i j Hp Hi Hj) as [Hout' _].
  assert (Hidx : index_of (replace_marker content marker replacement) marker
                 = Some i).
  { apply (index_of_shared_prefix content _ marker i Hi).
    rewrite Hout, (firstn_through _ _ _ Hi).
    rewrite <- Hl at 1. apply firstn_app_exact. }
  destruct (splice_parts _ marker replacement' i _ Hp Hidx Hk) as [Hre _].
  rewrite Hre, Hout'. f_equal.
  - rewrite Hout. rewrite firstn_app_left by lia.
    now rewrite firstn_firstn, Nat.min_id.
  - do 5 f_equal. rewrite Hout.
    rewrite !app_assoc. apply skipn_app_exact.
    rewrite !length_app, Hl. cbn [nl length]. lia.
Qed.

(** X12.  Updating a section twice is updating it with the second
    fragment, and updating it twice with the same fragment is updating it
    once, when the end marker does not occur in the text up to the end of
    the first fragment (nor across its end): the first end marker of the
    updated content is then the one right after the fragment. *)
Theorem section_update_last_write_wins
        (content marker replacement replacement' : str) (i j : nat) :
  endswith marker (L "START -->") = true ->
  index_of content marker = Some i ->
  index_of content (end_marker_of marker) = Some j ->
  contains (firstn i content ++ marker ++ nl ++ replacement ++ nl
            ++ removelast (end_marker_of marker))
           (end_marker_of marker) = false ->
  index_of (replace_marker content marker replacement) (end_marker_of marker)
  = Some (i + length marker + 1 + length replacement + 1)%nat
  /\ replace_marker (replace_marker content marker replacement) marker replacement'
     = replace_marker content marker replacement'
  /\ replace_marker (replace_marker content marker replacement) marker replacement
     = replace_marker content marker replacement.
Proof.
  intros Hp Hi Hj Hno.
  pose proof (index_of_bound _ _ _ Hi) as Hbi.
  pose proof (index_of_bound _ _ _ Hj) as Hbj.
  assert (Hl : length (firstn i content) = i) by (apply firstn_length_le; lia).
  assert (Hne : end_marker_of marker <> []).
  { intros E. rewrite E in Hno. cbn [removelast] in Hno.
    unfold contains in Hno. rewrite index_of_unfold in Hno.
    cbn [startswith] in Hno. discriminate. }
  assert (Hk : index_of (replace_marker content marker replacement)
                        (end_marker_of marker)
               = Some (i + length marker + 1 + length replacement + 1)%nat).
  { destruct (splice_parts content marker replacement i j Hp Hi Hj) as [Hout _].
    rewrite Hout.
    replace (i + length marker + 1 + length replacement + 1)%nat
      with (length (firstn i content ++ marker ++ nl ++ replacement ++ nl))
      by (rewrite !length_app, Hl; cbn [nl length]; lia).
    replace (firstn i content ++ marker ++ nl ++ replacement ++ nl
             ++ end_marker_of marker
             ++ skipn (j + length (end_marker_of marker)) content)
      with ((firstn i content ++ marker ++ nl ++ replacement ++ nl)
            ++ end_marker_of marker
            ++ skipn (j + length (end_marker_of marker)) content)
      by (rewrite <- !app_assoc; reflexivity).
    apply index_of_app_first; [exact Hne|].
    rewrite <- !app_assoc. exact Hno. }
  split; [exact Hk|].
  split; now apply (rerun_paired content marker _ _ i j).
Qed.

(** Two runs on the document with one section. *)
Lemma section_update_last_write_wins_witness :
  index_of (replace_marker doc_section RECENT_ACTIVITY (L "first run"))
           (end_marker_of RECENT_ACTIVITY)
  = Some (12 + length RECENT_ACTIVITY + 1 + length (L "first run") + 1)%nat
  /\ replace_marker (replace_marker doc_section RECENT_ACTIVITY (L "first run"))
                    RECENT_ACTIVITY (L "second run")
     = replace_marker doc_section RECENT_ACTIVITY (L "second run")
  /\ replace_marker (replace_marker doc_section RECENT_ACTIVITY (L "first run"))
                    RECENT_ACTIVITY (L "first run")
     = replace_marker doc_section RECENT_ACTIVITY (L "first run").
Proof.
  apply (section_update_last_write_wins doc_section RECENT_ACTIVITY
           (L "first run") (L "second run") 12 50); vm_compute; reflexivity.
Defined.

(** ** Freshness *)

(** X13.  The emoji and the text of an entry by the time elapsed since
    its timestamp: the fire up to two days, the memo from two to eight
    days, the books from eight days on; [today] within the first day and
    [yesterday] within the second.  A timestamp in the future, even by a
    microsecond, gives a negative day count: the fire, and a text such as
    [-1 days ago]. *)
Theorem freshness_tiers (c : Clock) (d : datetime) :
  exists days,
    days_since c d = Ok days
    /\ (elapsed_us c d < 2 * us_per_day -> activity_emoji days = [0x1F525%N])
    /\ (2 * us_per_day <= elapsed_us c d < 8 * us_per_day ->
        activity_emoji days = [0x1F4DD%N])
    /\ (8 * us_per_day <= elapsed_us c d -> activity_emoji days = [0x1F4DA%N])
    /\ (0 <= elapsed_us c d < us_per_day ->
        activity_time_str days = L "today" /\ build_time_str days = L "today"
        /\ release_time_str days = L "today")
    /\ (us_per_day <= elapsed_us c d < 2 * us_per_day ->
        activity_time_str days = L "yesterday"
        /\ build_time_str days = L "yesterday"
        /\ release_time_str days = L "yesterday")
    /\ (elapsed_us c d < 0 ->
        days <= -1
        /\ activity_time_str days = str_of_int days ++ L " days ago"
        /\ build_time_str days = str_of_int days ++ L "d ago"
        /\ release_time_str days = str_of_int days ++ L "d ago").
Proof.
  exists (elapsed_us c d / us_per_day).
  split; [apply days_since_total|].
  unfold activity_emoji, activity_time_str, build_time_str, release_time_str.
  set (e := elapsed_us c d). clearbody e.
  unfold us_per_day, us_per_second.
  split; [|split; [|split; [|split; [|split]]]]; intros H.
  - assert (E : (e / (86400 * 1000000) <=? 1) = true) by (apply Z.leb_le; zdiv).
    now rewrite E.
  - assert (E : (e / (86400 * 1000000) <=? 1) = false) by (apply Z.leb_gt; zdiv).
    assert (E' : (e / (86400 * 1000000) <=? 7) = true) by (apply Z.leb_le; zdiv).
    now rewrite E, E'.
  - assert (E : (e / (86400 * 1000000) <=? 1) = false) by (apply Z.leb_gt; zdiv).
    assert (E' : (e / (86400 * 1000000) <=? 7) = false) by (apply Z.leb_gt; zdiv).
    now rewrite E, E'.
  - assert (E : e / (86400 * 1000000) = 0) by zdiv.
    rewrite E. repeat split; reflexivity.
  - assert (E : e / (86400 * 1000000) = 1) by zdiv.
    rewrite E. repeat split; reflexivity.
  - assert (E : e / (86400 * 1000000) <= -1) by zdiv.
    assert (E0 : (e / (86400 * 1000000) =? 0) = false) by (apply Z.eqb_neq; lia).
    assert (E1 : (e / (86400 * 1000000) =? 1) = false) by (apply Z.eqb_neq; lia).
    rewrite E0, E1. repeat split; try reflexivity. exact E.
Qed.

(** ** The list of active repositories *)

Lemma join_app (sep : str) (xs ys : list str) :
  xs <> [] -> ys <> [] ->
  join sep (xs ++ ys) = join sep xs ++ sep ++ join sep ys.
Proof.
  intros Hx Hy. induction xs as [|x xs IH]; [congruence|].
  destruct xs as [|x' xs].
  - cbn [app join]. destruct ys; [congruence|reflexivity].
  - change ((x :: x' :: xs) ++ ys) with (x :: (x' :: xs) ++ ys).
    change (join sep (x :: (x' :: xs) ++ ys))
      with (x ++ sep ++ join sep ((x' :: xs) ++ ys)).
    rewrite IH by discriminate.
    change (join sep (x :: x' :: xs)) with (x ++ sep ++ join sep (x' :: xs)).
    now rewrite <- !app_assoc.
Qed.

(** X14.  The list of active repositories has one entry for every
    repository, without a cut: the output for two lists one after the other
    is the two outputs on consecutive lines.  In an entry the language is
    [Unknown] only when the key is missing; a [null] language is rendered
    as [None]. *)
Theorem active_repos_lists_every_repository (repos more : list Repo) (repo : Repo) :
  (repos <> [] -> more <> [] ->
   format_active_repos (repos ++ more)
   = format_active_repos repos ++ nl ++ format_active_repos more)
  /\ format_active_repos [repo] = active_repo_entry repo
  /\ active_repo_entry repo
     = (if repo_private repo then [0x1F512%N] else [0x1F310%N])
       ++ L " **[" ++ repo_name repo ++ L "](" ++ repo_html_url repo ++ L ")** ("
       ++ match repo_language repo with
          | Absent => L "Unknown"
          | JNull => L "None"
          | JStr language => language
          end
       ++ L ") - " ++ [0x2B50%N] ++ L " " ++ str_of_int (repo_stargazers_count repo).
Proof.
  split; [|split].
  - intros Hr Hm. unfold format_active_repos.
    destruct repos as [|r rs]; [congruence|]. destruct more as [|m ms]; [congruence|].
    change ((r :: rs) ++ m :: ms) with (r :: rs ++ m :: ms).
    cbv iota. change (r :: rs ++ m :: ms) with ((r :: rs) ++ m :: ms).
    rewrite map_app. apply join_app; discriminate.
  - reflexivity.
  - unfold active_repo_entry. destruct (repo_language repo); reflexivity.
Qed.

(** ** The order of formatting and reading *)

Lemma build_loop_same_runs (w w' : World) (repos : list Repo) (acc : list str) :
  clock w = clock w' ->
  (forall name limit, get_workflow_runs w name limit = get_workflow_runs w' name limit) ->
  build_loop w repos acc = build_loop w' repos acc.
Proof.
  intros Hc Hr. revert acc; induction repos as [|repo rest IH]; intros acc;
    cbn [build_loop]; [reflexivity|].
  rewrite Hr, Hc.
  destruct (get_workflow_runs w' (repo_full_name repo) 2) as [|run runs];
    [apply IH|].
  destruct (for_each _ _) as [[|b bs]|e]; cbn [bind]; [apply IH|apply IH|reflexivity].
Qed.

Lemma format_build_status_with_document (document : file) (w : World)
      (repos : list Repo) :
  format_build_status (with_document document w) repos
  = format_build_status w repos.
Proof.
  unfold format_build_status.
  now rewrite (build_loop_same_runs (with_document document w) w).
Qed.

Lemma update_readme_raised (w : World) (e : exn) :
  format_repository_activity (clock w) (get_org_repositories w 10) = Raise e
  \/ (exists activity_content,
        format_repository_activity (clock w) (get_org_repositories w 10)
        = Ok activity_content
        /\ format_build_status w (get_org_repositories w 10) = Raise e)
  \/ (exists activity_content build_content,
        format_repository_activity (clock w) (get_org_repositories w 10)
        = Ok activity_content
        /\ format_build_status w (get_org_repositories w 10) = Ok build_content
        /\ format_latest_releases w (get_org_repositories w 10) = Raise e) ->
  update_readme w = Raise e.
Proof.
  unfold update_readme.
  intros [H|[(a & Ha & H)|(a & b & Ha & Hb & H)]].
  - rewrite H. reflexivity.
  - rewrite Ha. cbn [bind]. rewrite H. reflexivity.
  - rewrite Ha. cbn [bind]. rewrite Hb. cbn [bind]. rewrite H. reflexivity.
Qed.

(** X15.  The formatters run before README.md is opened.  When the
    activity, the build or the releases formatter raises, the first of
    them in that order, that exception escapes the update whatever
    README.md is, also when it does not exist, and the exit status is 1.
    When none of them raises, what escapes is what reading README.md
    raises, [FileNotFoundError] being caught, or else what writing it
    raises: an exception escapes the update exactly in these cases. *)
Theorem formatting_precedes_reading (w : World) (e : exn) :
  (format_repository_activity (clock w) (get_org_repositories w 10) = Raise e
   \/ (exists activity_content,
         format_repository_activity (clock w) (get_org_repositories w 10)
         = Ok activity_content
         /\ format_build_status w (get_org_repositories w 10) = Raise e)
   \/ (exists activity_content build_content,
         format_repository_activity (clock w) (get_org_repositories w 10)
         = Ok activity_content
         /\ format_build_status w (get_org_repositories w 10) = Ok build_content
         /\ format_latest_releases w (get_org_repositories w 10) = Raise e) ->
   forall document,
     update_readme (with_document document w) = Raise e
     /\ main (with_document document w) = 1)
  /\ (update_readme w = Raise e
      <-> format_repository_activity (clock w) (get_org_repositories w 10)
          = Raise e
          \/ (exists activity_content,
                format_repository_activity (clock w) (get_org_repositories w 10)
                = Ok activity_content
                /\ format_build_status w (get_org_repositories w 10) = Raise e)
          \/ (exists activity_content build_content,
                format_repository_activity (clock w) (get_org_repositories w 10)
                = Ok activity_content
                /\ format_build_status w (get_org_repositories w 10)
                   = Ok build_content
                /\ format_latest_releases w (get_org_repositories w 10) = Raise e)
          \/ (exists activity_content build_content releases_content,
                format_repository_activity (clock w) (get_org_repositories w 10)
                = Ok activity_content
                /\ format_build_status w (get_org_repositories w 10)
                   = Ok build_content
                /\ format_latest_releases w (get_org_repositories w 10)
                   = Ok releases_content
                /\ (read_file (document w) = Raise e
                    \/ exists content,
                         read_file (document w) = Ok (Some content)
                         /\ write_file (document w) (linesep w)
                              (apply_replacements
                                 (replacements_of
                                    activity_content build_content
                                    (format_team_members (get_org_members w))
                                    (format_active_repos
                                       (get_org_repositories w 10))
                                    releases_content
                                    (format_org_languages
                                       (get_org_repositories w 10))
                                    (strftime_utc_label
                                       (datetime_now (clock w) None)))
                                 content)
                            = Raise e)))
  /\ (read_file (document w) = Raise e
      <-> document w = Unreadable e
          \/ (e = UnicodeDecodeError
              /\ exists raw,
                   has_surrogate raw = true
                   /\ (document w = Text raw
                       \/ (exists e', document w = ReadOnly raw e')
                       \/ (exists e', document w = Unwritable raw e'))))
  /\ (forall content,
        write_file (document w) (linesep w) content = Raise e
        <-> (exists raw, document w = ReadOnly raw e)
            \/ (has_surrogate content = false
                /\ exists raw, document w = Unwritable raw e)
            \/ (has_surrogate content = true /\ e = UnicodeEncodeError
                /\ forall raw e', document w <> ReadOnly raw e')).
Proof.
  split.
  { intros H document.
    assert (E : update_readme (with_document document w) = Raise e).
    { apply update_readme_raised.
      change (get_org_repositories (with_document document w) 10)
        with (get_org_repositories w 10).
      change (clock (with_document document w)) with (clock w).
      rewrite format_build_status_with_document.
      change (format_latest_releases (with_document document w)
                                     (get_org_repositories w 10))
        with (format_latest_releases w (get_org_repositories w 10)).
      exact H. }
    split; [exact E|]. unfold main. rewrite E. reflexivity. }
  split.
  { destruct (format_repository_activity (clock w) (get_org_repositories w 10))
      as [a|e1] eqn:Ha.
    2:{ assert (E : update_readme w = Raise e1)
          by (unfold update_readme; now rewrite Ha).
        rewrite E. split.
        - intros H. left. congruence.
        - intros [H|[(x & H & _)|[(x & y & H & _)|(x & y & z & H & _)]]];
            [congruence|discriminate|discriminate|discriminate]. }
    destruct (format_build_status w (get_org_repositories w 10)) as [b|e2] eqn:Hb.
    2:{ assert (E : update_readme w = Raise e2)
          by (unfold update_readme; rewrite Ha; cbn [bind]; now rewrite Hb).
        rewrite E. split.
        - intros H. right. left. exists a. split; [reflexivity|congruence].
        - intros [H|[(x & _ & H)|[(x & y & _ & H & _)|(x & y & z & _ & H & _)]]];
            [discriminate|congruence|discriminate|discriminate]. }
    destruct (format_latest_releases w (get_org_repositories w 10))
      as [l|e3] eqn:Hl.
    2:{ assert (E : update_readme w = Raise e3)
          by (unfold update_readme; rewrite Ha; cbn [bind]; rewrite Hb;
              cbn [bind]; now rewrite Hl).
        rewrite E. split.
        - intros H. right. right. left. exists a, b.
          split; [reflexivity|]. split; [reflexivity|congruence].
        - intros [H|[(x & _ & H)|[(x & y & _ & _ & H)
                                  |(x & y & z & _ & _ & H & _)]]];
            [discriminate|discriminate|congruence|discriminate]. }
    assert (E : update_readme w
                = match read_file (document w) with
                  | Ok None => Ok (false, None)
                  | Ok (Some content) =>
                      match write_file (document w) (linesep w)
                              (apply_replacements
                                 (replacements_of
                                    a b (format_team_members (get_org_members w))
                                    (format_active_repos
                                       (get_org_repositories w 10))
                                    l
                                    (format_org_languages
                                       (get_org_repositories w 10))
                                    (strftime_utc_label
                                       (datetime_now (clock w) None)))
                                 content) with
                      | Ok written => Ok (true, Some written)
                      | Raise e' => Raise e'
                      end
                  | Raise e' => Raise e'
                  end).
    { unfold update_readme. rewrite Ha. cbn [bind]. rewrite Hb. cbn [bind].
      rewrite Hl. cbn [bind].
      destruct (read_file (document w)) as [[content|]|e']; reflexivity. }
    rewrite E. split.
    - intros H. right. right. right. exists a, b, l.
      split; [reflexivity|]. split; [reflexivity|]. split; [reflexivity|].
      destruct (read_file (document w)) as [[content|]|e'];
        [|discriminate|left; congruence].
      right. exists content. split; [reflexivity|].
      destruct (write_file _ _ _); [discriminate|congruence].
    - intros [H|[(x & _ & H)|[(x & y & _ & _ & H)|(x & y & z & Hx & Hy & Hz & H)]]];
        [discriminate|discriminate|discriminate|].
      assert (x = a) by congruence. assert (y = b) by congruence.
      assert (z = l) by congruence. subst x y z.
      destruct H as [H|(content & Hread & Hwrite)].
      + now rewrite H.
      + rewrite Hread, Hwrite. reflexivity. }
  split.
  { unfold read_file. destruct (document w) as [|e'|raw e'|raw e'|raw].
    - split; [discriminate|].
      intros [H|(_ & raw & _ & [H|[[e' H]|[e' H]]])]; discriminate.
    - split.
      + intros H. left. congruence.
      + intros [H|(_ & raw & _ & [H|[[e'' H]|[e'' H]]])]; try discriminate.
        congruence.
    - destruct (has_surrogate raw) eqn:Hs; split.
      + intros H. right. split; [congruence|]. exists raw. split; [exact Hs|].
        right. left. now exists e'.
      + intros [H|(-> & _)]; [discriminate|reflexivity].
      + discriminate.
      + intros [H|(_ & raw' & Hs' & [H|[[e'' H]|[e'' H]]])]; try discriminate.
        congruence.
    - destruct (has_surrogate raw) eqn:Hs; split.
      + intros H. right. split; [congruence|]. exists raw. split; [exact Hs|].
        right. right. now exists e'.
      + intros [H|(-> & _)]; [discriminate|reflexivity].
      + discriminate.
      + intros [H|(_ & raw' & Hs' & [H|[[e'' H]|[e'' H]]])]; try discriminate.
        congruence.
    - destruct (has_surrogate raw) eqn:Hs; split.
      + intros H. right. split; [congruence|]. exists raw. split; [exact Hs|].
        now left.
      + intros [H|(-> & _)]; [discriminate|reflexivity].
      + discriminate.
      + intros [H|(_ & raw' & Hs' & [H|[[e'' H]|[e'' H]]])]; try discriminate.
        congruence. }
  intros content. unfold write_file.
  destruct (document w) as [|e'|raw e'|raw e'|raw].
  - destruct (has_surrogate content) eqn:Hs; split.
    + intros H. right. right. split; [reflexivity|]. split; [congruence|].
      intros raw e'. discriminate.
    + intros [[raw H]|[[H _]|(_ & -> & _)]]; [discriminate|discriminate|reflexivity].
    + discriminate.
    + intros [[raw H]|[[_ [raw H]]|(H & _)]]; discriminate.
  - destruct (has_surrogate content) eqn:Hs; split.
    + intros H. right. right. split; [reflexivity|]. split; [congruence|].
      intros raw e''. discriminate.
    + intros [[raw H]|[[H _]|(_ & -> & _)]]; [discriminate|discriminate|reflexivity].
    + discriminate.
    + intros [[raw H]|[[_ [raw H]]|(H & _)]]; discriminate.
  - split.
    + intros H. left. exists raw. congruence.
    + intros [[raw' H]|[[_ [raw' H]]|(_ & _ & H)]]; [congruence|discriminate|].
      exfalso. now apply (H raw e').
  - destruct (has_surrogate content) eqn:Hs; split.
    + intros H. right. right. split; [reflexivity|]. split; [congruence|].
      intros raw' e''. discriminate.
    + intros [[raw' H]|[[H _]|(_ & -> & _)]];
        [discriminate|discriminate|reflexivity].
    + intros H. right. left. split; [reflexivity|]. exists raw. congruence.
    + intros [[raw' H]|[[_ [raw' H]]|(H & _)]];
        [discriminate|congruence|discriminate].
  - destruct (has_surrogate content) eqn:Hs; split.
    + intros H. right. right. split; [reflexivity|]. split; [congruence|].
      intros raw' e'. discriminate.
    + intros [[raw' H]|[[H _]|(_ & -> & _)]];
        [discriminate|discriminate|reflexivity].
    + discriminate.
    + intros [[raw' H]|[[_ [raw' H]]|(H & _)]]; discriminate.
Qed.

(** ** Text mode *)

Lemma read_text_cons (c : N) (rest : str) :
  read_text (c :: rest)
  = if N.eqb c 13
    then 10%N :: match rest with
                 | c' :: rest' => if N.eqb c' 10 then read_text rest' else read_text rest
                 | [] => []
                 end
    else c :: read_text rest.
Proof. cbn [read_text]. destruct (N.eqb c 13); [|reflexivity]. now destruct rest. Qed.

Lemma read_text_no_return_bounded (n : nat) (raw : str) :
  (length raw <= n)%nat -> ~ In 13%N (read_text raw).
Proof.
  revert raw; induction n as [|n IH]; intros raw Hlen.
  - destruct raw; [intros []|cbn [length] in Hlen; lia].
  - destruct raw as [|c rest]; [intros []|].
    cbn [length] in Hlen. rewrite read_text_cons.
    destruct (N.eqb c 13) eqn:E.
    + destruct rest as [|c' rest'].
      * intros [H|[]]. discriminate.
      * cbn [length] in Hlen.
        destruct (N.eqb c' 10); intros [H|H]; try discriminate;
          revert H; apply IH; cbn [length]; lia.
    + apply N.eqb_neq in E. intros [H|H]; [congruence|].
      revert H. apply IH. lia.
Qed.

Lemma write_text_cons (linesep : str) (c : N) (content : str) :
  write_text linesep (c :: content)
  = (if N.eqb c 10 then linesep else [c]) ++ write_text linesep content.
Proof. reflexivity. Qed.

Lemma read_write_crlf (content : str) :
  ~ In 13%N content -> read_text (write_text crlf content) = content.
Proof.
  unfold crlf.
  induction content as [|c content IH]; intros H; [reflexivity|].
  rewrite write_text_cons.
  assert (Hc : c <> 13%N) by (intros E; apply H; now left).
  assert (Hrest : ~ In 13%N content) by (intros E; apply H; now right).
  destruct (N.eqb c 10) eqn:E.
  - apply N.eqb_eq in E. subst c. cbn [app].
    rewrite read_text_cons. cbn [N.eqb Pos.eqb]. now rewrite IH.
  - cbn [app]. rewrite read_text_cons.
    apply N.eqb_neq in Hc. rewrite Hc. now rewrite IH.
Qed.

(** X16.  Reading in text mode leaves no carriage return, and reading
    what has been read changes nothing.  What has been read is written
    back unchanged with the line separator [\n], and reads back unchanged
    after being written with [\r\n]. *)
Theorem text_mode_round_trip (raw : str) :
  ~ In 13%N (read_text raw)
  /\ read_text (read_text raw) = read_text raw
  /\ write_text nl (read_text raw) = read_text raw
  /\ read_text (write_text nl (read_text raw)) = read_text raw
  /\ read_text (write_text crlf (read_text raw)) = read_text raw
  /\ (~ In 13%N raw -> read_text raw = raw)
  /\ (~ In 10%N raw -> forall linesep, write_text linesep raw = raw).
Proof.
  assert (Hno : ~ In 13%N (read_text raw))
    by apply (read_text_no_return_bounded (length raw)), Nat.le_refl.
  assert (Hid : forall s, ~ In 13%N s -> read_text s = s).
  { intros s H. apply read_text_no_cr. intros c Hc E. subst c. contradiction. }
  split; [exact Hno|]. split; [now apply Hid|].
  split; [apply write_text_nl|]. split; [rewrite write_text_nl; now apply Hid|].
  split; [now apply read_write_crlf|]. split; [apply Hid|].
  intros H linesep. induction raw as [|c raw IH]; [reflexivity|].
  rewrite write_text_cons.
  assert (E : N.eqb c 10 = false).
  { apply N.eqb_neq. intros E. apply H. now left. }
  rewrite E. cbn [app]. f_equal. apply IH.
  - apply (read_text_no_return_bounded (length raw)), Nat.le_refl.
  - intros Hin. apply H. now right.
Qed.

(** * The sections of the rewritten document *)

(** ** The shape of the tokens *)

Lemma marker_tokens_shape (token : str) :
  In token marker_tokens -> token_shape token = true.
Proof.
  assert (H : forallb token_shape marker_tokens = true) by (vm_compute; reflexivity).
  rewrite forallb_forall in H. apply H.
Qed.

Lemma is_token_In (token : str) :
  is_token token = true <-> In token marker_tokens.
Proof.
  unfold is_token. rewrite existsb_exists. split.
  - intros (x & Hx & E). apply str_eqb_eq in E. now subst.
  - intros H. exists token. split; [exact H|now apply str_eqb_eq].
Qed.

Lemma token_shape_nonempty (token : str) :
  token_shape token = true -> (0 < length token)%nat.
Proof. destruct token; [discriminate|cbn [length]; lia]. Qed.

(** The only [<] of a token is its first character. *)
Lemma token_shape_lt (token : str) (d : nat) :
  token_shape token = true ->
  (nth_error token d = Some 60%N <-> d = O).
Proof.
  unfold token_shape. destruct token as [|c rest]; [discriminate|].
  destruct (rev (c :: rest)) as [|c' rest']; [discriminate|].
  intros H. repeat (apply andb_prop in H; destruct H as [H ?]).
  apply N.eqb_eq in H. subst c. split.
  - destruct d as [|d]; [reflexivity|]. cbn [nth_error]. intros Hd.
    apply nth_error_In in Hd.
    assert (existsb (N.eqb 60) rest = true).
    { apply existsb_exists. exists 60%N. split; [exact Hd|reflexivity]. }
    destruct (existsb (N.eqb 60) rest); discriminate.
  - intros ->. reflexivity.
Qed.

(** The only [>] of a token is its last character. *)
Lemma token_shape_gt (token : str) (d : nat) :
  token_shape token = true ->
  (nth_error token d = Some 62%N <-> S d = length token).
Proof.
  unfold token_shape. destruct token as [|c rest]; [discriminate|].
  destruct (rev (c :: rest)) as [|c' rest'] eqn:Er; [discriminate|].
  intros H. repeat (apply andb_prop in H; destruct H as [H ?]).
  match goal with E : N.eqb c' 62 = true |- _ => apply N.eqb_eq in E; subst c' end.
  assert (Et : c :: rest = rev rest' ++ [62%N]).
  { rewrite <- (rev_involutive (c :: rest)), Er. reflexivity. }
  rewrite Et. rewrite length_app. cbn [length].
  destruct (Nat.lt_ge_cases d (length (rev rest'))) as [Hlt|Hge].
  - rewrite nth_error_app1 by exact Hlt. split; [|lia].
    intros Hd. apply nth_error_In in Hd. apply in_rev in Hd.
    assert (existsb (N.eqb 62) rest' = true).
    { apply existsb_exists. exists 62%N. split; [exact Hd|reflexivity]. }
    destruct (existsb (N.eqb 62) rest'); discriminate.
  - rewrite nth_error_app2 by exact Hge.
    destruct (d - length (rev rest'))%nat as [|k] eqn:Ek; cbn [nth_error].
    + split; [lia|reflexivity].
    + split; [destruct k; discriminate|lia].
Qed.

(** A token has no digit and no newline. *)
Lemma token_shape_plain (token : str) (c : N) :
  token_shape token = true -> In c token ->
  is_digit c = false /\ c <> 10%N.
Proof.
  unfold token_shape. destruct token as [|c0 rest]; [discriminate|].
  destruct (rev (c0 :: rest)) as [|c' rest']; [discriminate|].
  intros H Hin. apply andb_prop in H. destruct H as [_ H].
  destruct (existsb _ (c0 :: rest)) eqn:E; [discriminate|].
  destruct (is_digit c) eqn:Ed.
  - exfalso. assert (existsb (fun c => is_digit c || N.eqb c 10) (c0 :: rest) = true).
    { apply existsb_exists. exists c. split; [exact Hin|]. now rewrite Ed. }
    congruence.
  - split; [reflexivity|]. intros ->.
    assert (existsb (fun c => is_digit c || N.eqb c 10) (c0 :: rest) = true).
    { apply existsb_exists. exists 10%N. split; [exact Hin|]. apply orb_true_r. }
    congruence.
Qed.

Lemma token_shape_head (token : str) :
  token_shape token = true -> nth_error token 0 = Some 60%N.
Proof. intros H. now apply (token_shape_lt token 0 H). Qed.

(** ** Occurrences *)

Lemma occurrence_in_prefix (x y sub : str) (k : nat) :
  startswith (skipn k (x ++ y)) sub = true ->
  (k + length sub <= length x)%nat ->
  startswith (skipn k x) sub = true.
Proof.
  intros H Hk. rewrite <- H. symmetry.
  apply (startswith_shared_prefix (x ++ y) x sub k (length x)); [|exact Hk].
  rewrite firstn_app, Nat.sub_diag, firstn_all. cbn [firstn].
  now rewrite app_nil_r.
Qed.

Lemma skipn_past (x y : str) (k : nat) :
  (length x <= k)%nat -> skipn k (x ++ y) = skipn (k - length x) y.
Proof.
  intros H. rewrite skipn_app, skipn_all2 by exact H. reflexivity.
Qed.

Lemma no_occurrence (s sub : str) (k : nat) :
  contains s sub = false -> startswith (skipn k s) sub = false.
Proof. intros H. apply contains_false in H. now apply index_of_None. Qed.

Lemma token_free_spec (s : str) :
  token_free s = true
  <-> forall token, In token marker_tokens -> contains s token = false.
Proof.
  unfold token_free. rewrite forallb_forall. split; intros H token Hin.
  - specialize (H token Hin). now destruct (contains s token).
  - now rewrite (H token Hin).
Qed.

(** Two texts without [token], put together with a text in between that
    has no [<], no [>] and some character that no token has, make a text
    without [token]. *)
Lemma glue_no_token (x mid y token : str) (c : N) :
  token_shape token = true ->
  contains x token = false -> contains y token = false ->
  ~ In 60%N mid -> ~ In 62%N mid ->
  In c mid -> (is_digit c = true \/ c = 10%N) ->
  contains (x ++ mid ++ y) token = false.
Proof.
  intros Hs Hx Hy H60 H62 Hc Hplain.
  apply contains_false, index_of_absent. intros k.
  destruct (startswith (skipn k (x ++ mid ++ y)) token) eqn:E; [exfalso|reflexivity].
  pose proof (token_shape_nonempty _ Hs) as Hlen.
  assert (Hchar : forall d, (d < length token)%nat ->
                            nth_error (x ++ mid ++ y) (k + d) = nth_error token d)
    by (intros d Hd; now apply startswith_nth).
  destruct (Nat.lt_ge_cases k (length x)) as [Hkx|Hkx].
  - destruct (Nat.le_gt_cases (k + length token) (length x)) as [Hin|Hout].
    + pose proof (occurrence_in_prefix _ _ _ _ E Hin) as E'.
      rewrite (no_occurrence _ _ k Hx) in E'. discriminate.
    + destruct (Nat.lt_ge_cases (k + length token - 1) (length x + length mid))
        as [Hend|Hend].
      * pose proof (Hchar (length token - 1)%nat ltac:(lia)) as Hlast.
        rewrite (proj2 (token_shape_gt token (length token - 1) Hs)) in Hlast by lia.
        rewrite nth_error_app2 in Hlast by lia.
        rewrite nth_error_app1 in Hlast by lia.
        apply nth_error_In in Hlast. contradiction.
      * apply In_nth_error in Hc. destruct Hc as [i Hi].
        assert (Hil : (i < length mid)%nat)
          by (apply nth_error_Some; congruence).
        pose proof (Hchar (length x + i - k)%nat ltac:(lia)) as Hmid.
        replace (k + (length x + i - k))%nat with (length x + i)%nat in Hmid by lia.
        rewrite nth_error_app2 in Hmid by lia.
        replace (length x + i - length x)%nat with i in Hmid by lia.
        rewrite nth_error_app1 in Hmid by lia.
        rewrite Hi in Hmid. symmetry in Hmid. apply nth_error_In in Hmid.
        destruct (token_shape_plain _ c Hs Hmid) as [Hd Hn].
        destruct Hplain; congruence.
  - destruct (Nat.lt_ge_cases k (length x + length mid)) as [Hkm|Hkm].
    + pose proof (Hchar O Hlen) as Hfirst.
      rewrite (token_shape_head _ Hs), Nat.add_0_r in Hfirst.
      rewrite nth_error_app2 in Hfirst by lia.
      rewrite nth_error_app1 in Hfirst by lia.
      apply nth_error_In in Hfirst. contradiction.
    + rewrite skipn_past in E by lia. rewrite skipn_past in E by lia.
      rewrite (no_occurrence _ _ _ Hy) in E. discriminate.
Qed.

Lemma contains_nil (token : str) :
  token_shape token = true -> contains [] token = false.
Proof. destruct token; [discriminate|reflexivity]. Qed.

Lemma token_free_nil : token_free [] = true.
Proof. reflexivity. Qed.

(** The fragment on a line of its own has no token when the fragment has
    none. *)
Lemma token_free_lines (fragment : str) :
  token_free fragment = true -> token_free (nl ++ fragment ++ nl) = true.
Proof.
  rewrite !token_free_spec. intros H token Hin.
  pose proof (marker_tokens_shape _ Hin) as Hs.
  assert (Hnl : forall x y, contains x token = false -> contains y token = false ->
                            contains (x ++ nl ++ y) token = false).
  { intros x y Hx Hy. apply (glue_no_token x nl y token 10%N Hs Hx Hy).
    - intros [E|[]]; discriminate.
    - intros [E|[]]; discriminate.
    - now left.
    - now right. }
  change (nl ++ fragment ++ nl) with ([] ++ nl ++ fragment ++ nl).
  apply Hnl; [now apply contains_nil|].
  rewrite <- (app_nil_r nl).
  apply Hnl; [now apply H|now apply contains_nil].
Qed.

(** ** Searching a document by its pieces *)

Lemma flatten_cons (text token : str) (pieces : list (str * str)) (tail : str) :
  flatten ((text, token) :: pieces) tail = text ++ token ++ flatten pieces tail.
Proof. unfold flatten. cbn [flat_map fst snd]. now rewrite <- !app_assoc. Qed.

Lemma flatten_app (p1 p2 : list (str * str)) (tail : str) :
  flatten (p1 ++ p2) tail = flatten p1 (flatten p2 tail).
Proof. unfold flatten. now rewrite flat_map_app, <- app_assoc. Qed.

Lemma flatten_tail (pieces : list (str * str)) (tail : str) :
  flatten pieces tail = flatten pieces [] ++ tail.
Proof. unfold flatten. now rewrite app_nil_r. Qed.

(** Two tokens that start at the same place are the same token. *)
Lemma tokens_prefix_free (a b rest : str) :
  token_shape a = true -> token_shape b = true ->
  startswith (b ++ rest) a = true -> a = b.
Proof.
  intros Ha Hb H.
  pose proof (token_shape_nonempty _ Ha) as La.
  pose proof (token_shape_nonempty _ Hb) as Lb.
  assert (Hchar : forall d, (d < length a)%nat ->
                            nth_error (b ++ rest) d = nth_error a d).
  { intros d Hd. change (b ++ rest) with (skipn 0 (b ++ rest)) in H.
    apply (startswith_nth _ _ 0 d H Hd). }
  assert (Hlen : length a = length b).
  { destruct (Nat.lt_trichotomy (length a) (length b)) as [Hlt|[Heq|Hgt]];
      [|exact Heq|].
    - pose proof (Hchar (length a - 1)%nat ltac:(lia)) as E.
      rewrite nth_error_app1 in E by lia.
      rewrite (proj2 (token_shape_gt a _ Ha)) in E by lia.
      apply (token_shape_gt b _ Hb) in E. lia.
    - pose proof (Hchar (length b - 1)%nat ltac:(lia)) as E.
      rewrite nth_error_app1 in E by lia.
      rewrite (proj2 (token_shape_gt b _ Hb)) in E by lia.
      symmetry in E. apply (token_shape_gt a _ Ha) in E. lia. }
  apply startswith_true in H.
  apply (f_equal (firstn (length a))) in H.
  rewrite (firstn_app (length a) a), Nat.sub_diag, firstn_all in H.
  cbn [firstn] in H. rewrite app_nil_r in H. rewrite <- H, Hlen.
  rewrite firstn_app, Nat.sub_diag, firstn_all. cbn [firstn].
  now rewrite app_nil_r.
Qed.

(** No token starts in a text without it that a token follows, nor inside
    that token, nor at that token unless it is that token. *)
Lemma no_occurrence_before (text token' rest token : str) (j : nat) :
  token_shape token = true -> token_shape token' = true ->
  contains text token = false ->
  (j < length text + length token')%nat ->
  (j = length text -> token <> token') ->
  startswith (skipn j (text ++ token' ++ rest)) token = false.
Proof.
  intros Hs Hs' Hno Hj Hne.
  destruct (startswith (skipn j (text ++ token' ++ rest)) token) eqn:E;
    [exfalso|reflexivity].
  pose proof (token_shape_nonempty _ Hs) as Hlen.
  pose proof (token_shape_nonempty _ Hs') as Hlen'.
  assert (Hchar : forall d, (d < length token)%nat ->
                            nth_error (text ++ token' ++ rest) (j + d)
                            = nth_error token d)
    by (intros d Hd; now apply startswith_nth).
  destruct (Nat.lt_trichotomy j (length text)) as [Hlt|[Heq|Hgt]].
  - destruct (Nat.le_gt_cases (j + length token) (length text)) as [Hin|Hout].
    + pose proof (occurrence_in_prefix _ _ _ _ E Hin) as E'.
      rewrite (no_occurrence _ _ j Hno) in E'. discriminate.
    + pose proof (Hchar (length text - j)%nat ltac:(lia)) as Hc.
      replace (j + (length text - j))%nat with (length text) in Hc by lia.
      rewrite nth_error_app2, Nat.sub_diag in Hc by lia.
      rewrite nth_error_app1 in Hc by lia.
      rewrite (token_shape_head _ Hs') in Hc. symmetry in Hc.
      apply (token_shape_lt token _ Hs) in Hc. lia.
  - subst j. rewrite skipn_past, Nat.sub_diag in E by lia. cbn [skipn] in E.
    apply (Hne eq_refl). now apply (tokens_prefix_free token token' rest).
  - pose proof (Hchar O Hlen) as Hc.
    rewrite (token_shape_head _ Hs), Nat.add_0_r in Hc.
    rewrite nth_error_app2 in Hc by lia.
    rewrite nth_error_app1 in Hc by lia.
    apply (token_shape_lt token' _ Hs') in Hc. lia.
Qed.

(** Without an occurrence that starts in [p], the search goes on after
    [p]. *)
Lemma index_of_shift (p s sub : str) :
  (forall j, (j < length p)%nat -> startswith (skipn j (p ++ s)) sub = false) ->
  index_of (p ++ s) sub = option_map (Nat.add (length p)) (index_of s sub).
Proof.
  intros Hp. destruct (index_of s sub) as [i|] eqn:E; cbn [option_map].
  - destruct (index_of_Some _ _ _ E) as (H1 & H2 & H3).
    apply index_of_least.
    + rewrite skipn_past by lia.
      now replace (length p + i - length p)%nat with i by lia.
    + rewrite length_app. lia.
    + intros j Hj. destruct (Nat.lt_ge_cases j (length p)) as [Hlt|Hge].
      * now apply Hp.
      * rewrite skipn_past by exact Hge. apply H3. lia.
  - apply index_of_absent. intros j.
    destruct (Nat.lt_ge_cases j (length p)) as [Hlt|Hge].
    + now apply Hp.
    + rewrite skipn_past by exact Hge. now apply index_of_None.
Qed.

(** The pieces whose token is another one are passed over. *)
Lemma index_of_skip_pieces (pieces : list (str * str)) (s token : str) :
  token_shape token = true ->
  (forall piece, In piece pieces ->
     contains (fst piece) token = false
     /\ token_shape (snd piece) = true /\ snd piece <> token) ->
  index_of (flatten pieces s) token
  = option_map (Nat.add (length (flatten pieces []))) (index_of s token).
Proof.
  intros Hs. induction pieces as [|[text token'] pieces IH]; intros H.
  - cbn. now destruct (index_of s token).
  - rewrite !flatten_cons.
    destruct (H (text, token') (or_introl eq_refl)) as (Hno & Hs' & Hne).
    cbn [fst snd] in *.
    rewrite (app_assoc text token' (flatten pieces s)).
    rewrite index_of_shift.
    + rewrite IH by (intros piece Hin; apply H; now right).
      rewrite (app_assoc text token' (flatten pieces [])), !length_app.
      destruct (index_of s token); cbn [option_map]; [f_equal; lia|reflexivity].
    + intros j Hj. rewrite <- app_assoc. rewrite length_app in Hj.
      apply no_occurrence_before; try assumption. intros _. congruence.
Qed.

(** The first piece with the token is where the token is first found. *)
Lemma index_of_hit (text token rest : str) :
  token_shape token = true -> contains text token = false ->
  index_of (text ++ token ++ rest) token = Some (length text).
Proof.
  intros Hs Hno. apply index_of_least.
  - rewrite skipn_past, Nat.sub_diag by lia. cbn [skipn]. apply startswith_app.
  - rewrite length_app. lia.
  - intros j Hj. apply no_occurrence_before; try assumption.
    + pose proof (token_shape_nonempty _ Hs). lia.
    + lia.
Qed.

Lemma first_index_None (tokens : list str) (token : str) :
  first_index tokens token = None <-> ~ In token tokens.
Proof.
  induction tokens as [|t rest IH]; cbn [first_index In]; [tauto|].
  destruct (str_eqb t token) eqn:E.
  - apply str_eqb_eq in E. split; [discriminate|tauto].
  - apply str_eqb_neq in E.
    destruct (first_index rest token); cbn [option_map].
    + split; [discriminate|]. intros H.
      assert (Some n = None) by (apply IH; tauto). discriminate.
    + tauto.
Qed.

(** ** One section *)

Lemma paired_marker_facts (marker : str) :
  In marker paired_markers ->
  endswith marker (L "START -->") = true
  /\ marker <> end_marker_of marker
  /\ marker <> LAST_UPDATED /\ end_marker_of marker <> LAST_UPDATED
  /\ In marker marker_tokens /\ In (end_marker_of marker) marker_tokens.
Proof.
  intros H. cbn in H.
  repeat (destruct H as [<-|H];
          [repeat split; try discriminate; try reflexivity;
           vm_compute; tauto|]).
  destruct H.
Qed.

(** Where the first start marker is followed by the first end marker. *)
Lemma paired_split (pieces : list (str * str)) (m e : str) (p : nat) :
  m <> e ->
  first_index (map snd pieces) m = Some p ->
  first_index (map snd pieces) e = Some (S p) ->
  exists p1 text body p2,
    pieces = p1 ++ (text, m) :: (body, e) :: p2
    /\ ~ In m (map snd p1) /\ ~ In e (map snd p1).
Proof.
  intros Hne. revert p.
  induction pieces as [|[text token] rest IH]; intros p Hm He; [discriminate|].
  cbn [map snd first_index] in Hm, He.
  destruct (str_eqb token m) eqn:Em.
  - apply str_eqb_eq in Em. subst token.
    assert (p = O) by congruence. subst p.
    assert (Ee : str_eqb m e = false) by now apply str_eqb_neq.
    rewrite Ee in He.
    destruct rest as [|[body token'] rest']; [discriminate|].
    cbn [map snd first_index] in He.
    destruct (str_eqb token' e) eqn:Ee'.
    + apply str_eqb_eq in Ee'. subst token'.
      exists [], text, body, rest'. split; [reflexivity|]. split; intros [].
    + destruct (first_index (map snd rest') e); discriminate.
  - destruct (str_eqb token e) eqn:Ee; [discriminate|].
    destruct (first_index (map snd rest) m) as [p'|] eqn:Fm; [|discriminate].
    cbn [option_map] in Hm. assert (p = S p') by congruence. subst p.
    destruct (first_index (map snd rest) e) as [q|] eqn:Fe; [|discriminate].
    cbn [option_map] in He. assert (q = S p') by congruence. subst q.
    destruct (IH p' eq_refl eq_refl) as (p1 & t & body & p2 & E & H1 & H2).
    exists ((text, token) :: p1), t, body, p2. subst rest.
    apply str_eqb_neq in Em, Ee.
    split; [reflexivity|]. split; cbn [map snd In]; tauto.
Qed.

Lemma update_section_absent (marker replacement : str) (pieces : list (str * str)) :
  ~ In marker (map snd pieces) -> update_section marker replacement pieces = pieces.
Proof.
  induction pieces as [|[text token] rest IH]; intros H; [reflexivity|].
  cbn [update_section]. cbn [map snd In] in H.
  assert (E : str_eqb token marker = false) by (apply str_eqb_neq; tauto).
  rewrite E, IH by tauto. reflexivity.
Qed.

Lemma update_section_no_end (marker replacement : str) (pieces : list (str * str)) :
  ~ In (end_marker_of marker) (map snd pieces) ->
  update_section marker replacement pieces = pieces.
Proof.
  induction pieces as [|[text token] rest IH]; intros H; [reflexivity|].
  cbn [update_section]. cbn [map snd In] in H.
  destruct (str_eqb token marker).
  - destruct rest as [|[body token'] rest']; [reflexivity|].
    cbn [map snd In] in H.
    assert (E : str_eqb token' (end_marker_of marker) = false)
      by (apply str_eqb_neq; tauto).
    now rewrite E.
  - rewrite IH by tauto. reflexivity.
Qed.

Lemma update_section_split (marker replacement : str) (p1 p2 : list (str * str))
      (text body : str) :
  ~ In marker (map snd p1) ->
  update_section marker replacement
    (p1 ++ (text, marker) :: (body, end_marker_of marker) :: p2)
  = p1 ++ (text, marker) :: (nl ++ replacement ++ nl, end_marker_of marker) :: p2.
Proof.
  induction p1 as [|[t token] rest IH]; intros H.
  - cbn [app update_section]. now rewrite !str_eqb_refl.
  - cbn [app update_section]. cbn [map snd In] in H.
    assert (E : str_eqb token marker = false) by (apply str_eqb_neq; tauto).
    rewrite E, IH by tauto. reflexivity.
Qed.

Lemma update_section_tokens (marker replacement : str) (pieces : list (str * str)) :
  map snd (update_section marker replacement pieces) = map snd pieces.
Proof.
  induction pieces as [|[text token] rest IH]; [reflexivity|].
  cbn [update_section map snd]. f_equal.
  destruct (str_eqb token marker); [|exact IH].
  destruct rest as [|[body token'] rest']; [reflexivity|].
  now destruct (str_eqb token' (end_marker_of marker)).
Qed.

Lemma update_section_texts (marker replacement : str) (pieces : list (str * str)) :
  token_free replacement = true ->
  Forall (fun piece => token_free (fst piece) = true) pieces ->
  Forall (fun piece => token_free (fst piece) = true)
         (update_section marker replacement pieces).
Proof.
  intros Hr. induction pieces as [|[text token] rest IH]; intros H; [constructor|].
  inversion H as [|? ? Ht Hrest]; subst. cbn [update_section].
  constructor; [exact Ht|].
  destruct (str_eqb token marker); [|now apply IH].
  destruct rest as [|[body token'] rest']; [constructor|].
  destruct (str_eqb token' (end_marker_of marker)); [|exact Hrest].
  inversion Hrest; subst. constructor; [|assumption].
  cbn [fst]. now apply token_free_lines.
Qed.

(** What [well_formed] says. *)
Lemma well_formed_spec (pieces : list (str * str)) (tail : str) :
  well_formed pieces tail = true
  <-> Forall (fun piece => token_free (fst piece) = true) pieces
      /\ Forall (fun token => In token marker_tokens) (map snd pieces)
      /\ token_free tail = true
      /\ forall marker, In marker paired_markers ->
                        well_paired (map snd pieces) marker = true.
Proof.
  unfold well_formed. rewrite !andb_true_iff, !forallb_forall, !Forall_forall.
  split.
  - intros [[H1 H2] H3]. repeat split; try assumption.
    + intros piece Hin. specialize (H1 piece Hin). now apply andb_prop in H1.
    + intros token Hin. apply in_map_iff in Hin. destruct Hin as (piece & <- & Hin).
      specialize (H1 piece Hin). apply andb_prop in H1. now apply is_token_In.
  - intros (H1 & H2 & H3 & H4). repeat split; try assumption.
    intros piece Hin. rewrite (H1 piece Hin). cbn [andb].
    apply is_token_In, H2. now apply in_map.
Qed.

Lemma firstn_exact (a b : str) (n : nat) :
  n = length a -> firstn n (a ++ b) = a.
Proof.
  intros ->. rewrite firstn_app, Nat.sub_diag, firstn_all. cbn [firstn].
  apply app_nil_r.
Qed.

(** The step of the loop for a section, on a well-formed document. *)
Lemma replace_marker_layout (pieces : list (str * str)) (tail marker replacement : str) :
  In marker paired_markers ->
  well_formed pieces tail = true ->
  replace_marker (flatten pieces tail) marker replacement
  = flatten (update_section marker replacement pieces) tail.
Proof.
  intros Hm Hwf.
  destruct (paired_marker_facts _ Hm) as (Hp & Hne & _ & _ & Tm & Te).
  apply well_formed_spec in Hwf. destruct Hwf as (Htexts & Htoks & Htail & Hpaired).
  specialize (Hpaired marker Hm). unfold well_paired in Hpaired.
  pose proof (marker_tokens_shape _ Tm) as Sm.
  pose proof (marker_tokens_shape _ Te) as Se.
  rewrite Forall_forall in Htexts, Htoks.
  rewrite token_free_spec in Htail.
  assert (Hskip : forall token p1 s,
            In token marker_tokens ->
            (forall piece, In piece p1 -> In piece pieces) ->
            ~ In token (map snd p1) ->
            index_of (flatten p1 s) token
            = option_map (Nat.add (length (flatten p1 []))) (index_of s token)).
  { intros token p1 s Ht Hsub Hnot.
    apply index_of_skip_pieces; [now apply marker_tokens_shape|].
    intros piece Hin. split; [|split].
    - pose proof (Htexts piece (Hsub piece Hin)) as Hf.
      rewrite token_free_spec in Hf. now apply Hf.
    - apply marker_tokens_shape, Htoks. apply in_map. now apply Hsub.
    - intros E. apply Hnot. rewrite <- E. now apply in_map. }
  destruct (first_index (map snd pieces) marker) as [p|] eqn:Fm.
  2:{ apply first_index_None in Fm.
      rewrite update_section_absent by exact Fm.
      apply replace_marker_absent. apply contains_false.
      rewrite (Hskip marker pieces tail Tm (fun _ H => H) Fm).
      pose proof (Htail marker Tm) as Hn. apply contains_false in Hn.
      now rewrite Hn. }
  destruct (first_index (map snd pieces) (end_marker_of marker)) as [q|] eqn:Fe.
  2:{ apply first_index_None in Fe.
      rewrite update_section_no_end by exact Fe.
      apply replace_marker_no_end; [exact Hp|].
      rewrite (Hskip _ pieces tail Te (fun _ H => H) Fe).
      pose proof (Htail _ Te) as Hn. apply contains_false in Hn.
      now rewrite Hn. }
  apply Nat.eqb_eq in Hpaired. subst q.
  destruct (paired_split _ _ _ _ Hne Fm Fe) as (p1 & text & body & p2 & E & N1 & N2).
  subst pieces.
  assert (Htext : contains text marker = false).
  { assert (Hf : token_free text = true)
      by (apply (Htexts (text, marker)), in_or_app; right; now left).
    rewrite token_free_spec in Hf. now apply Hf. }
  assert (Hbody : contains body (end_marker_of marker) = false).
  { assert (Hf : token_free body = true)
      by (apply (Htexts (body, end_marker_of marker)), in_or_app; right; right;
          now left).
    rewrite token_free_spec in Hf. now apply Hf. }
  rewrite update_section_split by exact N1.
  set (z := flatten p2 tail).
  assert (Hi : index_of (flatten (p1 ++ (text, marker)
                                     :: (body, end_marker_of marker) :: p2) tail)
                        marker
               = Some (length (flatten p1 []) + length text)%nat).
  { rewrite flatten_app.
    rewrite (Hskip marker p1 _ Tm); [|intros piece Hin; apply in_or_app; now left
                                     |exact N1].
    rewrite flatten_cons, index_of_hit by assumption. reflexivity. }
  assert (Hj : index_of (flatten (p1 ++ (text, marker)
                                     :: (body, end_marker_of marker) :: p2) tail)
                        (end_marker_of marker)
               = Some (length (flatten p1 []) + length text + length marker
                       + length body)%nat).
  { replace (p1 ++ (text, marker) :: (body, end_marker_of marker) :: p2)
      with ((p1 ++ [(text, marker)]) ++ (body, end_marker_of marker) :: p2)
      by (rewrite <- app_assoc; reflexivity).
    rewrite flatten_app.
    rewrite (Hskip (end_marker_of marker) (p1 ++ [(text, marker)]) _ Te).
    - rewrite flatten_cons, index_of_hit by assumption. cbn [option_map].
      rewrite flatten_app, flatten_cons. cbn [flatten flat_map app].
      rewrite (flatten_tail p1), !length_app. cbn [length]. f_equal. lia.
    - intros piece Hin. apply in_app_or in Hin. apply in_or_app.
      destruct Hin as [Hin|[<-|[]]]; [now left|right; now left].
    - rewrite map_app. cbn [map snd]. intros Hin. apply in_app_or in Hin.
      destruct Hin as [Hin|[Hin|[]]]; [now apply N2|now apply Hne]. }
  rewrite (replace_marker_paired _ _ replacement _ _ Hp Hi Hj).
  rewrite !flatten_app, !flatten_cons. fold z.
  rewrite !(flatten_tail p1 (_ ++ _)).
  set (x := flatten p1 []).
  replace (x ++ text ++ marker ++ body ++ end_marker_of marker ++ z)
    with ((x ++ text ++ marker) ++ body ++ end_marker_of marker ++ z)
    by (rewrite <- !app_assoc; reflexivity).
  rewrite firstn_exact by (rewrite !length_app; lia).
  replace ((x ++ text ++ marker) ++ body ++ end_marker_of marker ++ z)
    with (((x ++ text ++ marker) ++ body) ++ end_marker_of marker ++ z)
    by (rewrite <- !app_assoc; reflexivity).
  rewrite skipn_app_exact by (rewrite !length_app; lia).
  rewrite <- !app_assoc. reflexivity.
Qed.

Lemma update_section_well_formed (pieces : list (str * str))
      (tail marker replacement : str) :
  token_free replacement = true ->
  well_formed pieces tail = true ->
  well_formed (update_section marker replacement pieces) tail = true.
Proof.
  intros Hr Hwf. apply well_formed_spec in Hwf. apply well_formed_spec.
  destruct Hwf as (H1 & H2 & H3 & H4).
  rewrite update_section_tokens. repeat split; try assumption.
  now apply update_section_texts.
Qed.

(** ** The six sections *)

Lemma apply_replacements_layout (sections pieces : list (str * str)) (tail : str) :
  Forall (fun item => In (fst item) paired_markers
                      /\ token_free (snd item) = true) sections ->
  well_formed pieces tail = true ->
  apply_replacements sections (flatten pieces tail)
  = flatten (update_sections sections pieces) tail
  /\ well_formed (update_sections sections pieces) tail = true
  /\ map snd (update_sections sections pieces) = map snd pieces.
Proof.
  unfold apply_replacements, update_sections.
  intros Hs. revert pieces.
  induction Hs as [|[marker replacement] rest [Hm Hr] _ IH]; intros pieces Hwf.
  - cbn [fold_left]. now repeat split.
  - cbn [fold_left fst snd] in *.
    rewrite (replace_marker_layout _ _ _ _ Hm Hwf).
    destruct (IH (update_section marker replacement pieces)) as (E1 & E2 & E3).
    { now apply update_section_well_formed. }
    rewrite E1, E3, update_section_tokens. now repeat split.
Qed.

(** ** The timestamp *)

Lemma replace_marker_stamp (content timestamp : str) :
  replace_marker content LAST_UPDATED timestamp
  = replace content LAST_UPDATED timestamp.
Proof.
  destruct (contains content LAST_UPDATED) eqn:E.
  - now apply replace_marker_single.
  - rewrite replace_marker_absent by exact E.
    apply contains_false in E. unfold replace. revert E.
    destruct LAST_UPDATED as [|c old]; [destruct content; discriminate|].
    cbn [replace_rounds]. now intros ->.
Qed.

(** The replacements in a text that follows a text no occurrence starts
    in. *)
Lemma replaced_all_skip (p s s' old new : str) :
  (forall j, (j < length p)%nat -> startswith (skipn j (p ++ s)) old = false) ->
  replaced_all old new s s' ->
  replaced_all old new (p ++ s) (p ++ s').
Proof.
  intros Hp H. pose proof (index_of_shift p s old Hp) as Hi.
  destruct H as [s E|s i rest' E H].
  - rewrite E in Hi. now apply replaced_none.
  - rewrite E in Hi. cbn [option_map] in Hi.
    replace (p ++ firstn i s ++ new ++ rest')
      with (firstn (length p + i) (p ++ s) ++ new ++ rest')
      by (rewrite firstn_app_2, <- app_assoc; reflexivity).
    apply replaced_next; [exact Hi|].
    rewrite skipn_past by lia.
    now replace (length p + i + length old - length p)%nat
      with (i + length old)%nat by lia.
Qed.

Lemma stamp_prefix (timestamp carry : str) (pieces : list (str * str)) (tail : str) :
  flatten (stamp_pieces timestamp carry pieces)
          (stamp_carry timestamp carry pieces ++ tail)
  = carry ++ flatten (stamp_pieces timestamp [] pieces)
                     (stamp_carry timestamp [] pieces ++ tail).
Proof.
  revert carry. induction pieces as [|[text token] rest IH]; intros carry.
  - cbn. reflexivity.
  - cbn [stamp_pieces stamp_carry]. destruct (str_eqb token LAST_UPDATED).
    + rewrite IH, (IH ([] ++ text ++ timestamp)).
      cbn [app]. now rewrite <- !app_assoc.
    + rewrite !flatten_cons. cbn [app]. now rewrite <- !app_assoc.
Qed.

(** The timestamp step, piece by piece. *)
Lemma stamp_replaced (timestamp : str) (pieces : list (str * str)) (tail : str) :
  Forall (fun piece => token_free (fst piece) = true) pieces ->
  Forall (fun token => In token marker_tokens) (map snd pieces) ->
  token_free tail = true ->
  replaced_all LAST_UPDATED timestamp (flatten pieces tail)
    (flatten (stamp_pieces timestamp [] pieces)
             (stamp_carry timestamp [] pieces ++ tail)).
Proof.
  assert (Tl : In LAST_UPDATED marker_tokens) by (vm_compute; tauto).
  pose proof (marker_tokens_shape _ Tl) as Sl.
  intros Htexts Htoks Htail.
  induction pieces as [|[text token] rest IH].
  - cbn. apply replaced_none. apply contains_false.
    rewrite token_free_spec in Htail. now apply Htail.
  - inversion Htexts as [|? ? Ht Hrest]; subst.
    inversion Htoks as [|? ? Hk Hkrest]; subst.
    cbn [fst snd] in *. specialize (IH Hrest Hkrest).
    rewrite token_free_spec in Ht. specialize (Ht _ Tl).
    rewrite flatten_cons. cbn [stamp_pieces stamp_carry].
    destruct (str_eqb token LAST_UPDATED) eqn:E.
    + apply str_eqb_eq in E. subst token.
      rewrite stamp_prefix. cbn [app]. rewrite <- app_assoc.
      replace text with (firstn (length text)
                                (text ++ LAST_UPDATED ++ flatten rest tail)) at 2
        by (now apply firstn_exact).
      apply replaced_next; [now apply index_of_hit|].
      rewrite (app_assoc text), skipn_app_exact by (rewrite length_app; lia).
      exact IH.
    + apply str_eqb_neq in E. rewrite flatten_cons. cbn [app].
      rewrite !(app_assoc text token).
      apply replaced_all_skip; [|exact IH].
      intros j Hj. rewrite <- app_assoc. rewrite length_app in Hj.
      apply no_occurrence_before; try assumption.
      * now apply marker_tokens_shape.
      * intros _. congruence.
Qed.

Lemma stamp_tokens (timestamp carry : str) (pieces : list (str * str)) :
  map snd (stamp_pieces timestamp carry pieces)
  = filter (fun token => negb (str_eqb token LAST_UPDATED)) (map snd pieces).
Proof.
  revert carry. induction pieces as [|[text token] rest IH]; intros carry;
    [reflexivity|].
  cbn [stamp_pieces map snd filter].
  destruct (str_eqb token LAST_UPDATED); cbn [negb map snd]; [apply IH|].
  f_equal. apply IH.
Qed.

(** A timestamp has no [<] and no [>], and it has a digit. *)
Lemma strftime_glue (d : datetime) :
  ~ In 60%N (strftime_utc_label d) /\ ~ In 62%N (strftime_utc_label d)
  /\ exists c, In c (strftime_utc_label d) /\ is_digit c = true.
Proof.
  pose proof (strftime_alphabet d) as Ha. rewrite Forall_forall in Ha.
  split; [|split].
  - intros H. specialize (Ha _ H). discriminate.
  - intros H. specialize (Ha _ H). discriminate.
  - unfold strftime_utc_label.
    destruct (civil_from_days _) as [[y m] dd].
    set (secs := (wall d mod us_per_day) / us_per_second).
    destruct (str_of_int_digits (secs mod 60)) as (c & rest & E & Hd).
    { apply Z.mod_pos_bound. lia. }
    inversion Hd as [|? ? Hc _]; subst. exists c. split; [|exact Hc].
    do 10 (apply in_or_app; right).
    apply in_or_app. left. unfold zfill. rewrite E.
    apply in_or_app. right. now left.
Qed.

Lemma stamp_glue (timestamp x y : str) :
  ~ In 60%N timestamp -> ~ In 62%N timestamp ->
  (exists c, In c timestamp /\ is_digit c = true) ->
  token_free x = true -> token_free y = true ->
  token_free (x ++ timestamp ++ y) = true.
Proof.
  rewrite !token_free_spec. intros Hlt Hgt (c & Hc & Hd) Hx Hy token Hin.
  apply (glue_no_token x timestamp y token c); auto.
  now apply marker_tokens_shape.
Qed.

(** The text gathered in front of a piece is empty or ends with the
    timestamp; with the text of the piece it has no token. *)
Lemma carry_text (timestamp carry text : str) :
  ~ In 60%N timestamp -> ~ In 62%N timestamp ->
  (exists c, In c timestamp /\ is_digit c = true) ->
  carry = [] \/ (exists x, carry = x ++ timestamp /\ token_free x = true) ->
  token_free text = true -> token_free (carry ++ text) = true.
Proof.
  intros Hlt Hgt Hd [->|(x & -> & Hx)] Ht; [exact Ht|].
  rewrite <- app_assoc. now apply stamp_glue.
Qed.

Lemma stamp_texts (timestamp carry : str) (pieces : list (str * str)) (tail : str) :
  ~ In 60%N timestamp -> ~ In 62%N timestamp ->
  (exists c, In c timestamp /\ is_digit c = true) ->
  carry = [] \/ (exists x, carry = x ++ timestamp /\ token_free x = true) ->
  Forall (fun piece => token_free (fst piece) = true) pieces ->
  token_free tail = true ->
  Forall (fun piece => token_free (fst piece) = true)
         (stamp_pieces timestamp carry pieces)
  /\ token_free (stamp_carry timestamp carry pieces ++ tail) = true.
Proof.
  intros Hlt Hgt Hd. revert carry.
  induction pieces as [|[text token] rest IH]; intros carry Hc Ht Htail.
  - cbn [stamp_pieces stamp_carry]. split; [constructor|now apply (carry_text timestamp)].
  - inversion Ht as [|? ? Htext Hrest]; subst. cbn [fst] in Htext.
    cbn [stamp_pieces stamp_carry]. destruct (str_eqb token LAST_UPDATED).
    + apply IH; [|exact Hrest|exact Htail].
      right. exists (carry ++ text). split; [now rewrite app_assoc|].
      now apply (carry_text timestamp).
    + destruct (IH [] (or_introl eq_refl) Hrest Htail) as [H1 H2].
      split; [|exact H2]. constructor; [|exact H1].
      cbn [fst]. now apply (carry_text timestamp).
Qed.

Lemma first_index_filter_None (f : str -> bool) (tokens : list str) (token : str) :
  first_index tokens token = None -> first_index (filter f tokens) token = None.
Proof.
  rewrite !first_index_None. intros H Hin. apply H.
  apply filter_In in Hin. tauto.
Qed.

Lemma well_paired_cons (t : str) (tokens : list str) (marker : str) :
  str_eqb t marker = false -> str_eqb t (end_marker_of marker) = false ->
  well_paired (t :: tokens) marker = well_paired tokens marker.
Proof.
  intros E1 E2. unfold well_paired. cbn [first_index]. rewrite E1, E2.
  destruct (first_index tokens marker), (first_index tokens (end_marker_of marker));
    reflexivity.
Qed.

(** Taking the timestamp markers away keeps the sections well paired. *)
Lemma well_paired_filter (tokens : list str) (marker : str) :
  In marker paired_markers ->
  well_paired tokens marker = true ->
  well_paired (filter (fun token => negb (str_eqb token LAST_UPDATED)) tokens)
              marker = true.
Proof.
  intros Hm. destruct (paired_marker_facts _ Hm) as (_ & Hne & Hl & Hle & _).
  set (f := fun token => negb (str_eqb token LAST_UPDATED)).
  induction tokens as [|t rest IH]; intros H; [reflexivity|].
  cbn [filter]. unfold f at 1.
  destruct (str_eqb t LAST_UPDATED) eqn:El; cbn [negb].
  - apply str_eqb_eq in El. subst t. apply IH.
    rewrite well_paired_cons in H; [exact H| |]; apply str_eqb_neq; congruence.
  - destruct (str_eqb t marker) eqn:Em.
    + apply str_eqb_eq in Em. subst t.
      unfold well_paired in *. cbn [first_index] in *.
      rewrite str_eqb_refl in *.
      assert (Ee : str_eqb marker (end_marker_of marker) = false)
        by now apply str_eqb_neq.
      rewrite Ee in *.
      destruct (first_index rest (end_marker_of marker)) as [q|] eqn:Fe.
      * cbn [option_map] in H. apply Nat.eqb_eq in H.
        assert (q = O) by lia. subst q.
        destruct rest as [|t' rest']; [discriminate|].
        cbn [first_index] in Fe.
        destruct (str_eqb t' (end_marker_of marker)) eqn:Ee'.
        -- apply str_eqb_eq in Ee'. subst t'. cbn [filter]. unfold f at 1.
           assert (E : str_eqb (end_marker_of marker) LAST_UPDATED = false)
             by now apply str_eqb_neq.
           rewrite E. cbn [negb first_index]. now rewrite str_eqb_refl.
        -- destruct (first_index rest' (end_marker_of marker)); discriminate.
      * now rewrite (first_index_filter_None f _ _ Fe).
    + destruct (str_eqb t (end_marker_of marker)) eqn:Ee.
      * unfold well_paired in *. cbn [first_index] in *. rewrite Em, Ee in *.
        destruct (first_index rest marker) as [p|] eqn:Fm; [discriminate|].
        now rewrite (first_index_filter_None f _ _ Fm).
      * rewrite well_paired_cons in * by assumption. now apply IH.
Qed.

(** A document without timestamp markers is left as it is. *)
Lemma stamp_none (timestamp : str) (pieces : list (str * str)) :
  ~ In LAST_UPDATED (map snd pieces) ->
  stamp_pieces timestamp [] pieces = pieces
  /\ stamp_carry timestamp [] pieces = [].
Proof.
  induction pieces as [|[text token] rest IH]; intros H; [now split|].
  cbn [map snd In] in H. cbn [stamp_pieces stamp_carry].
  assert (E : str_eqb token LAST_UPDATED = false) by (apply str_eqb_neq; tauto).
  rewrite E. destruct IH as [H1 H2]; [tauto|]. now rewrite H1, H2.
Qed.

(** ** Writing the document *)

Lemma write_text_app (linesep a b : str) :
  write_text linesep (a ++ b) = write_text linesep a ++ write_text linesep b.
Proof. unfold write_text. apply flat_map_app. Qed.

Lemma write_text_plain (linesep s : str) :
  ~ In 10%N s -> write_text linesep s = s.
Proof.
  induction s as [|c s IH]; intros H; [reflexivity|].
  rewrite write_text_cons.
  assert (E : N.eqb c 10 = false) by (apply N.eqb_neq; intros ->; apply H; now left).
  rewrite E, IH by (intros Hin; apply H; now right). reflexivity.
Qed.

Lemma write_text_flatten (linesep : str) (pieces : list (str * str)) (tail : str) :
  Forall (fun token => In token marker_tokens) (map snd pieces) ->
  write_text linesep (flatten pieces tail)
  = flatten (map (fun piece => (write_text linesep (fst piece), snd piece)) pieces)
            (write_text linesep tail).
Proof.
  induction pieces as [|[text token] rest IH]; intros H; [reflexivity|].
  inversion H as [|? ? Hk Hrest]; subst. cbn [map fst snd] in *.
  rewrite !flatten_cons, !write_text_app, (IH Hrest). f_equal. f_equal.
  apply write_text_plain. intros Hin.
  destruct (token_shape_plain token 10%N (marker_tokens_shape _ Hk) Hin) as [_ Hn].
  now apply Hn.
Qed.

(** ** What the sections keep *)

(** A step changes a text only when the text stands between the marker
    and its end marker. *)
Lemma update_section_frame (marker replacement : str) (pieces : list (str * str))
      (k : nat) (text token : str) :
  nth_error pieces k = Some (text, token) ->
  exists text',
    nth_error (update_section marker replacement pieces) k = Some (text', token)
    /\ (text' = text
        \/ exists k0,
             k = S k0 /\ nth_error (map snd pieces) k0 = Some marker
             /\ token = end_marker_of marker
             /\ text' = nl ++ replacement ++ nl).
Proof.
  revert k. induction pieces as [|[t tok] rest IH]; intros k H;
    [destruct k; discriminate|].
  destruct k as [|k]; cbn [nth_error] in H.
  - inversion H; subst. exists text. split; [reflexivity|now left].
  - cbn [update_section nth_error]. destruct (str_eqb tok marker) eqn:Em.
    + apply str_eqb_eq in Em. subst tok.
      destruct rest as [|[body tok'] rest']; [destruct k; discriminate|].
      destruct (str_eqb tok' (end_marker_of marker)) eqn:Ee.
      * apply str_eqb_eq in Ee. subst tok'. destruct k as [|k]; cbn [nth_error] in *.
        -- inversion H; subst. eexists. split; [reflexivity|].
           right. exists O. now repeat split.
        -- exists text. split; [exact H|now left].
      * exists text. split; [exact H|now left].
    + destruct (IH k H) as (text' & E & Hc). exists text'. split; [exact E|].
      destruct Hc as [->|(k0 & -> & Hk & He & Ht)]; [now left|].
      right. exists (S k0). now repeat split.
Qed.

Lemma update_sections_frame (sections pieces : list (str * str))
      (k : nat) (text token : str) :
  nth_error pieces k = Some (text, token) ->
  exists text',
    nth_error (update_sections sections pieces) k = Some (text', token)
    /\ (text' = text
        \/ exists marker replacement k0,
             In (marker, replacement) sections
             /\ k = S k0 /\ nth_error (map snd pieces) k0 = Some marker
             /\ token = end_marker_of marker
             /\ text' = nl ++ replacement ++ nl).
Proof.
  unfold update_sections. revert pieces text.
  induction sections as [|[m r] rest IH]; intros pieces text H.
  - exists text. split; [exact H|now left].
  - cbn [fold_left fst snd].
    destruct (update_section_frame m r pieces k text token H) as (t1 & E1 & C1).
    destruct (IH _ _ E1) as (t2 & E2 & C2). exists t2. split; [exact E2|].
    destruct C2 as [->|(m' & r' & k0 & Hin & -> & Hk & He & Ht)].
    + destruct C1 as [->|(k0 & -> & Hk & He & Ht)]; [now left|].
      right. exists m, r, k0. repeat split; try assumption. now left.
    + right. exists m', r', k0. rewrite update_section_tokens in Hk.
      repeat split; try assumption. now right.
Qed.

Lemma first_index_nth (tokens : list str) (token : str) (p : nat) :
  first_index tokens token = Some p ->
  nth_error tokens p = Some token
  /\ forall j, (j < p)%nat -> nth_error tokens j <> Some token.
Proof.
  revert p. induction tokens as [|t rest IH]; intros p H; [discriminate|].
  cbn [first_index] in H. destruct (str_eqb t token) eqn:E.
  - apply str_eqb_eq in E. subst t. assert (p = O) by congruence. subst p.
    split; [reflexivity|]. intros j Hj. lia.
  - apply str_eqb_neq in E.
    destruct (first_index rest token) as [p'|]; [|discriminate].
    cbn [option_map] in H. assert (p = S p') by congruence. subst p.
    destruct (IH p' eq_refl) as [H1 H2]. split; [exact H1|].
    intros [|j] Hj; cbn [nth_error]; [congruence|]. apply H2. lia.
Qed.

(** The step of a section replaces the text after the first marker when
    the end marker follows it. *)
Lemma update_section_hit (marker replacement : str) (pieces : list (str * str))
      (k0 : nat) (body : str) :
  first_index (map snd pieces) marker = Some k0 ->
  nth_error pieces (S k0) = Some (body, end_marker_of marker) ->
  nth_error (update_section marker replacement pieces) (S k0)
  = Some (nl ++ replacement ++ nl, end_marker_of marker).
Proof.
  revert k0. induction pieces as [|[t tok] rest IH]; intros k0 Hf Hn; [discriminate|].
  cbn [map snd first_index] in Hf. cbn [update_section nth_error] in *.
  destruct (str_eqb tok marker) eqn:Em.
  - assert (k0 = O) by congruence. subst k0.
    destruct rest as [|[body' tok'] rest']; [discriminate|].
    cbn [nth_error] in Hn. inversion Hn; subst.
    now rewrite str_eqb_refl.
  - destruct (first_index (map snd rest) marker) as [p|] eqn:Fp; [|discriminate].
    cbn [option_map] in Hf. assert (k0 = S p) by congruence. subst k0.
    now apply IH.
Qed.

(** With one entry for each marker, the loop over the sections replaces
    the text between the first marker and the end marker that follows
    it. *)
Lemma update_sections_hit (sections pieces : list (str * str))
      (marker replacement : str) (k0 : nat) (body : str) :
  NoDup (map fst sections) ->
  In (marker, replacement) sections ->
  first_index (map snd pieces) marker = Some k0 ->
  nth_error pieces (S k0) = Some (body, end_marker_of marker) ->
  nth_error (update_sections sections pieces) (S k0)
  = Some (nl ++ replacement ++ nl, end_marker_of marker).
Proof.
  unfold update_sections. revert pieces body.
  induction sections as [|[m r] rest IH]; intros pieces body Hnd Hin Hf Hn;
    [destruct Hin|].
  cbn [map fst] in Hnd. inversion Hnd as [|? ? Hnot Hnd']; subst.
  cbn [fold_left fst snd]. destruct Hin as [Hin|Hin].
  - inversion Hin; subst.
    pose proof (update_section_hit marker replacement pieces k0 body Hf Hn) as E1.
    destruct (update_sections_frame rest _ _ _ _ E1) as (t2 & E2 & C2).
    unfold update_sections in E2. rewrite E2. f_equal. f_equal.
    destruct C2 as [->|(m' & r' & k0' & Hin' & Hk & Hk' & _)]; [reflexivity|].
    exfalso. assert (k0' = k0) by lia. subst k0'.
    rewrite update_section_tokens in Hk'.
    destruct (first_index_nth _ _ _ Hf) as [Hm _].
    assert (m' = marker) by congruence. subst m'.
    apply Hnot. change marker with (fst (marker, r')). now apply in_map.
  - destruct (update_section_frame m r pieces (S k0) body _ Hn) as (t1 & E1 & _).
    apply (IH _ t1 Hnd' Hin); [|exact E1].
    now rewrite update_section_tokens.
Qed.

(** ** The rewritten document *)

Lemma sections_of_Ok (w : World) (sections : list (str * str)) :
  sections_of w = Ok sections ->
  exists a b l,
    format_repository_activity (clock w) (get_org_repositories w 10) = Ok a
    /\ format_build_status w (get_org_repositories w 10) = Ok b
    /\ format_latest_releases w (get_org_repositories w 10) = Ok l
    /\ sections
       = [ (RECENT_ACTIVITY, a); (BUILD_STATUS, b);
           (TEAM_MEMBERS, format_team_members (get_org_members w));
           (ACTIVE_REPOS, format_active_repos (get_org_repositories w 10));
           (LATEST_RELEASES, l);
           (ORG_LANGUAGES, format_org_languages (get_org_repositories w 10)) ].
Proof.
  unfold sections_of.
  destruct (format_repository_activity _ _) as [a|e]; cbn [bind]; [|discriminate].
  destruct (format_build_status _ _) as [b|e]; cbn [bind]; [|discriminate].
  destruct (format_latest_releases _ _) as [l|e]; cbn [bind]; [|discriminate].
  intros H. apply Ok_inj in H. exists a, b, l. now repeat split.
Qed.

(** What a run writes into a well-formed document. *)
Lemma update_readme_layout (w : World) (raw : str)
      (sections pieces : list (str * str)) (tail : str) :
  sections_of w = Ok sections ->
  forallb (fun item => token_free (snd item)) sections = true ->
  readme w = Some raw ->
  read_text raw = flatten pieces tail ->
  well_formed pieces tail = true ->
  let timestamp := strftime_utc_label (datetime_now (clock w) None) in
  let updated := update_sections sections pieces in
  update_readme w
  = (if has_surrogate (flatten (stamp_pieces timestamp [] updated)
                               (stamp_carry timestamp [] updated ++ tail))
     then Raise UnicodeEncodeError
     else Ok (true,
              Some (write_text (linesep w)
                      (flatten (stamp_pieces timestamp [] updated)
                               (stamp_carry timestamp [] updated ++ tail)))))
  /\ well_formed updated tail = true
  /\ map snd updated = map snd pieces
  /\ NoDup (map fst sections).
Proof.
  intros Hs Hfree Hr Hread Hwf timestamp updated.
  destruct (sections_of_Ok _ _ Hs) as (a & b & l & Ha & Hb & Hl & E).
  apply readme_Some in Hr. destruct Hr as [Hdoc Hsur].
  assert (Hsix : Forall (fun item => In (fst item) paired_markers
                                     /\ token_free (snd item) = true) sections).
  { rewrite forallb_forall in Hfree. apply Forall_forall. intros item Hin.
    split; [|now apply Hfree].
    rewrite E in Hin. cbn in Hin.
    repeat (destruct Hin as [<-|Hin]; [vm_compute; tauto|]). destruct Hin. }
  destruct (apply_replacements_layout sections pieces tail Hsix Hwf)
    as (Happly & Hwf' & Htoks).
  fold updated in Happly, Hwf', Htoks.
  split; [|split; [exact Hwf'|split; [exact Htoks|]]].
  - rewrite (update_readme_formatted w a b l Ha Hb Hl), Hdoc, Hsur.
    assert (Hcontent :
              apply_replacements
                (replacements_of a b (format_team_members (get_org_members w))
                   (format_active_repos (get_org_repositories w 10)) l
                   (format_org_languages (get_org_repositories w 10)) timestamp)
                (read_text raw)
              = flatten (stamp_pieces timestamp [] updated)
                        (stamp_carry timestamp [] updated ++ tail)).
    { change (replacements_of a b (format_team_members (get_org_members w))
                (format_active_repos (get_org_repositories w 10)) l
                (format_org_languages (get_org_repositories w 10)) timestamp)
        with ([ (RECENT_ACTIVITY, a); (BUILD_STATUS, b);
                (TEAM_MEMBERS, format_team_members (get_org_members w));
                (ACTIVE_REPOS, format_active_repos (get_org_repositories w 10));
                (LATEST_RELEASES, l);
                (ORG_LANGUAGES, format_org_languages (get_org_repositories w 10)) ]
              ++ [(LAST_UPDATED, timestamp)]).
      rewrite <- E, apply_replacements_last, Hread, Happly, replace_marker_stamp.
      apply well_formed_spec in Hwf'. destruct Hwf' as (H1 & H2 & H3 & _).
      apply (replaced_all_unique LAST_UPDATED timestamp (flatten updated tail)).
      - apply replace_all. discriminate.
      - now apply stamp_replaced. }
    fold timestamp. rewrite Hcontent. reflexivity.
  - rewrite E. cbn [map fst].
    repeat (constructor; [cbn [In]; intros H;
                          repeat (destruct H as [H|H]; [discriminate|]); exact H|]).
    constructor.
Qed.

Lemma stamped_well_formed (timestamp : str) (pieces : list (str * str)) (tail : str) :
  ~ In 60%N timestamp -> ~ In 62%N timestamp ->
  (exists c, In c timestamp /\ is_digit c = true) ->
  well_formed pieces tail = true ->
  well_formed (stamp_pieces timestamp [] pieces)
              (stamp_carry timestamp [] pieces ++ tail) = true.
Proof.
  intros Hlt Hgt Hd Hwf. apply well_formed_spec in Hwf. apply well_formed_spec.
  destruct Hwf as (H1 & H2 & H3 & H4).
  destruct (stamp_texts timestamp [] pieces tail Hlt Hgt Hd (or_introl eq_refl) H1 H3)
    as [T1 T2].
  split; [exact T1|]. split; [|split; [exact T2|]].
  - rewrite stamp_tokens. rewrite Forall_forall in *. intros token Hin.
    apply filter_In in Hin. now apply H2.
  - intros marker Hm. rewrite stamp_tokens. apply well_paired_filter; auto.
Qed.

(** C10.  Take a document read as texts between marker tokens, the texts
    holding no token, in which for each of the six sections the first end
    marker, when both markers occur, is the token right after the first
    start marker; and fragments that hold no token.  Then the run writes
    the document in which every token other than the timestamp markers
    stands verbatim, in the same order, whatever the line separator; the
    text between the first start marker of a section and the end marker
    that follows it is the new fragment on a line of its own, and no other
    text is changed by the steps of the sections; every timestamp marker
    is the timestamp.  The document written is again of that form, so the
    next run replaces the same sections again, and it is read back as it
    was written. *)
Theorem C10_markers_preserved (w : World) (raw : str)
        (sections pieces : list (str * str)) (tail : str) :
  sections_of w = Ok sections ->
  forallb (fun item => token_free (snd item)) sections = true ->
  readme w = Some raw ->
  read_text raw = flatten pieces tail ->
  well_formed pieces tail = true ->
  let timestamp := strftime_utc_label (datetime_now (clock w) None) in
  let updated := update_sections sections pieces in
  let pieces' := stamp_pieces timestamp [] updated in
  let tail' := stamp_carry timestamp [] updated ++ tail in
  update_readme w
  = (if has_surrogate (flatten pieces' tail') then Raise UnicodeEncodeError
     else Ok (true, Some (write_text (linesep w) (flatten pieces' tail'))))
  /\ write_text (linesep w) (flatten pieces' tail')
     = flatten (map (fun piece => (write_text (linesep w) (fst piece), snd piece))
                    pieces')
               (write_text (linesep w) tail')
  /\ map snd updated = map snd pieces
  /\ map snd pieces'
     = filter (fun token => negb (str_eqb token LAST_UPDATED)) (map snd pieces)
  /\ (forall marker replacement k0 body,
        In (marker, replacement) sections ->
        first_index (map snd pieces) marker = Some k0 ->
        nth_error pieces (S k0) = Some (body, end_marker_of marker) ->
        nth_error updated (S k0)
        = Some (nl ++ replacement ++ nl, end_marker_of marker))
  /\ (forall k text token,
        nth_error pieces k = Some (text, token) ->
        exists text',
          nth_error updated k = Some (text', token)
          /\ (text' = text
              \/ exists marker replacement k0,
                   In (marker, replacement) sections
                   /\ k = S k0 /\ nth_error (map snd pieces) k0 = Some marker
                   /\ token = end_marker_of marker
                   /\ text' = nl ++ replacement ++ nl))
  /\ well_formed pieces' tail' = true
  /\ (forall w' raw' sections',
        sections_of w' = Ok sections' ->
        forallb (fun item => token_free (snd item)) sections' = true ->
        readme w' = Some raw' ->
        read_text raw' = flatten pieces' tail' ->
        update_readme w'
        = (if has_surrogate (flatten (update_sections sections' pieces') tail')
           then Raise UnicodeEncodeError
           else Ok (true,
                    Some (write_text (linesep w')
                            (flatten (update_sections sections' pieces') tail'))))
        /\ map snd (update_sections sections' pieces') = map snd pieces')
  /\ (linesep w = nl \/ linesep w = crlf ->
      ~ In 13%N (flatten pieces' tail') ->
      read_text (write_text (linesep w) (flatten pieces' tail'))
      = flatten pieces' tail').
Proof.
  intros Hs Hfree Hr Hread Hwf timestamp updated pieces' tail'.
  destruct (update_readme_layout w raw sections pieces tail Hs Hfree Hr Hread Hwf)
    as (Hrun & Hwf1 & Htoks & Hnd).
  fold timestamp updated in Hrun, Hwf1, Htoks. fold pieces' tail' in Hrun.
  destruct (strftime_glue (datetime_now (clock w) None)) as (Hlt & Hgt & Hd).
  fold timestamp in Hlt, Hgt, Hd.
  pose proof (stamped_well_formed timestamp updated tail Hlt Hgt Hd Hwf1) as Hwf2.
  fold pieces' tail' in Hwf2.
  assert (Htoks' : map snd pieces'
                   = filter (fun token => negb (str_eqb token LAST_UPDATED))
                            (map snd pieces)).
  { unfold pieces'. now rewrite stamp_tokens, Htoks. }
  split; [exact Hrun|]. split.
  { apply write_text_flatten.
    apply well_formed_spec in Hwf2. now destruct Hwf2 as (_ & H2 & _). }
  split; [exact Htoks|]. split; [exact Htoks'|]. split.
  { intros marker replacement k0 body Hin Hf Hn.
    now apply (update_sections_hit sections pieces marker replacement k0 body). }
  split; [intros k text token; apply update_sections_frame|].
  split; [exact Hwf2|]. split.
  - intros w' raw' sections' Hs' Hfree' Hr' Hread'.
    destruct (update_readme_layout w' raw' sections' pieces' tail' Hs' Hfree' Hr'
                                   Hread' Hwf2) as (Hrun' & _ & Htoks2 & _).
    cbv zeta in Hrun'. split; [|exact Htoks2].
    destruct (stamp_none (strftime_utc_label (datetime_now (clock w') None))
                         (update_sections sections' pieces')) as [E1 E2].
    { rewrite Htoks2, Htoks'. intros Hin. apply filter_In in Hin.
      destruct Hin as [_ Hin]. now rewrite str_eqb_refl in Hin. }
    rewrite E1, E2 in Hrun'. exact Hrun'.
  - intros [->| ->] Hcr.
    + rewrite write_text_nl. apply read_text_no_cr.
      intros c Hc E. subst c. contradiction.
    + now apply read_write_crlf.
Qed.

(** C10 at the document with the seven markers. *)
Lemma C10_witness :
  update_readme world_full
  = Ok (true,
        Some (flatten
                (stamp_pieces (L "2024-01-15 12:30:45 UTC") []
                              (update_sections sections_full pieces_full))
                (stamp_carry (L "2024-01-15 12:30:45 UTC") []
                             (update_sections sections_full pieces_full) ++ nl)))
  /\ map snd (update_sections sections_full pieces_full) = map snd pieces_full.
Proof.
  destruct (C10_markers_preserved world_full doc_full sections_full pieces_full nl)
    as (Hrun & _ & Htoks & _);
    try (vm_compute; reflexivity).
  split; [|exact Htoks].
  rewrite Hrun. vm_compute. reflexivity.
Defined.

(** A section inside another one is replaced by its own step, and the step
    of the outer section then drops both of its markers from the document
    that is written; with the end marker before the start marker the step
    writes the text around the markers twice. *)
Lemma C10_counterexample :
  index_of (read_text doc_nested) RECENT_ACTIVITY = Some 28%nat
  /\ index_of (read_text doc_nested) (end_marker_of RECENT_ACTIVITY) = Some 61%nat
  /\ update_readme (offline clock_utc (Some doc_nested))
     = Ok (true,
           Some (BUILD_STATUS ++ nl ++ L "No recent builds found." ++ nl
                 ++ end_marker_of BUILD_STATUS))
  /\ contains (BUILD_STATUS ++ nl ++ L "No recent builds found." ++ nl
               ++ end_marker_of BUILD_STATUS) RECENT_ACTIVITY = false
  /\ contains (BUILD_STATUS ++ nl ++ L "No recent builds found." ++ nl
               ++ end_marker_of BUILD_STATUS) (end_marker_of RECENT_ACTIVITY)
     = false
  /\ update_readme (offline clock_utc (Some doc_reversed))
     = Ok (true,
           Some (end_marker_of RECENT_ACTIVITY ++ L "A" ++ RECENT_ACTIVITY ++ nl
                 ++ L "No recent activity found." ++ nl
                 ++ end_marker_of RECENT_ACTIVITY ++ L "A" ++ RECENT_ACTIVITY
                 ++ L "B")).
Proof. repeat split; vm_compute; reflexivity. Qed.
